(** * Ember batch renderer (Renderer.cpp): a shallow embedding and its properties

    The development follows [src/Ember/src/Renderer.cpp].  The renderer keeps
    one global [RendererData] object and talks to OpenGL; here the global is
    an explicit record threaded through every function, and the OpenGL
    context is a second record holding exactly what the renderer changes in
    it (polygon mode, texture-unit bindings, and the list of multi-draw
    submissions with the data that was uploaded for each one).

    Numbers are modelled as the code has them:
    - [uint32_t] is a [Z] in [0, 2^32) and every arithmetic operation on it is
      written with its wrap-around ([add32]);
    - [float] is IEEE-754 binary32, taken from the standard library's
      executable specification [SpecFloat] at precision 24 and maximal
      exponent 128, with round-to-nearest-even. *)

From Stdlib Require Import ZArith List Bool Lia String Ascii.
From Stdlib Require Import Floats.SpecFloat.
From stdpp Require Import base list gmap.
Import ListNotations.
Local Open Scope Z_scope.

(** ** 32-bit unsigned integers *)

Definition U32 : Z := 2 ^ 32.

Definition wrap32 (z : Z) : Z := z mod U32.

Definition add32 (a b : Z) : Z := wrap32 (a + b).

(** ** binary32 floating point *)

Module F32.

Definition prec : Z := 24.
Definition emax : Z := 128.

Definition float : Type := spec_float.

Definition add : float -> float -> float := SFadd prec emax.
Definition sub : float -> float -> float := SFsub prec emax.
Definition mul : float -> float -> float := SFmul prec emax.
Definition div : float -> float -> float := SFdiv prec emax.
Definition sqrt : float -> float := SFsqrt prec emax.
Definition eqb : float -> float -> bool := SFeqb.

(** Conversion of an integer ([uint32_t], [int]) to [float]. *)
Definition of_Z (z : Z) : float := binary_normalize prec emax z 0 false.

(** The value [m * 2^e] rounded to binary32. *)
Definition of_scaled (m e : Z) : float := binary_normalize prec emax m e false.

Definition zero : float := S754_zero false.
Definition one : float := Eval vm_compute in of_Z 1.
Definition two : float := Eval vm_compute in of_Z 2.
Definition neg_one : float := Eval vm_compute in of_Z (-1).

(** Decimal literals of the source: a quotient of two exactly
    representable integers, correctly rounded, is the float nearest to the
    decimal value. *)
Definition lit_0_00002 : float := Eval vm_compute in div (of_Z 2) (of_Z 100000).
Definition lit_0_00001 : float := Eval vm_compute in div (of_Z 1) (of_Z 100000).

(** [static_cast<float>(0.01745329251994329576923690768489)], the factor of
    [glm::radians]: the decimal constant, scaled by [2^69], rounded. *)
Definition deg_to_rad : float :=
  Eval vm_compute in
    of_scaled ((1745329251994329576923690768489 * 2 ^ 69) / 10 ^ 32) (-69).

End F32.

Abbreviation float := F32.float.

Declare Scope f32_scope.
Delimit Scope f32_scope with f32.
Infix "+" := F32.add : f32_scope.
Infix "-" := F32.sub : f32_scope.
Infix "*" := F32.mul : f32_scope.
Infix "/" := F32.div : f32_scope.

(** ** The part of GLM the renderer uses

    GLM is a third-party header library; the definitions below follow its
    reference (non-SIMD) implementation: matrices are column-major, and the
    sums are associated as GLM writes them. *)

Module glm.

Record vec2 := mk_vec2 { x2 : float; y2 : float }.
Record vec3 := mk_vec3 { x3 : float; y3 : float; z3 : float }.
Record vec4 := mk_vec4 { x4 : float; y4 : float; z4 : float; w4 : float }.

(** A [mat4] is four columns. *)
Record mat4 := mk_mat4 { col0 : vec4; col1 : vec4; col2 : vec4; col3 : vec4 }.

Definition vec4_scale (v : vec4) (s : float) : vec4 :=
  mk_vec4 (x4 v * s)%f32 (y4 v * s)%f32 (z4 v * s)%f32 (w4 v * s)%f32.

Definition vec4_add (a b : vec4) : vec4 :=
  mk_vec4 (x4 a + x4 b)%f32 (y4 a + y4 b)%f32 (z4 a + z4 b)%f32 (w4 a + w4 b)%f32.

Definition vec3_scale (v : vec3) (s : float) : vec3 :=
  mk_vec3 (x3 v * s)%f32 (y3 v * s)%f32 (z3 v * s)%f32.

(** [glm::vec3(v)] for a [vec4]: the first three components. *)
Definition xyz (v : vec4) : vec3 := mk_vec3 (x4 v) (y4 v) (z4 v).

(** [glm::mat4(1.0f)] *)
Definition identity : mat4 :=
  mk_mat4 (mk_vec4 F32.one F32.zero F32.zero F32.zero)
          (mk_vec4 F32.zero F32.one F32.zero F32.zero)
          (mk_vec4 F32.zero F32.zero F32.one F32.zero)
          (mk_vec4 F32.zero F32.zero F32.zero F32.one).

(** [m * v] *)
Definition mul_vec (m : mat4) (v : vec4) : vec4 :=
  vec4_add
    (vec4_add (vec4_scale (col0 m) (x4 v)) (vec4_scale (col1 m) (y4 v)))
    (vec4_add (vec4_scale (col2 m) (z4 v)) (vec4_scale (col3 m) (w4 v))).

Definition mul_col (a : mat4) (b : vec4) : vec4 :=
  vec4_add
    (vec4_add
       (vec4_add (vec4_scale (col0 a) (x4 b)) (vec4_scale (col1 a) (y4 b)))
       (vec4_scale (col2 a) (z4 b)))
    (vec4_scale (col3 a) (w4 b)).

(** [a * b] *)
Definition mul (a b : mat4) : mat4 :=
  mk_mat4 (mul_col a (col0 b)) (mul_col a (col1 b))
          (mul_col a (col2 b)) (mul_col a (col3 b)).

(** [glm::translate(m, v)] *)
Definition translate (m : mat4) (v : vec3) : mat4 :=
  mk_mat4 (col0 m) (col1 m) (col2 m)
    (vec4_add
       (vec4_add
          (vec4_add (vec4_scale (col0 m) (x3 v)) (vec4_scale (col1 m) (y3 v)))
          (vec4_scale (col2 m) (z3 v)))
       (col3 m)).

(** [glm::scale(m, v)] *)
Definition scale (m : mat4) (v : vec3) : mat4 :=
  mk_mat4 (vec4_scale (col0 m) (x3 v)) (vec4_scale (col1 m) (y3 v))
          (vec4_scale (col2 m) (z3 v)) (col3 m).

(** [glm::radians(degrees)] *)
Definition radians (degrees : float) : float := (degrees * F32.deg_to_rad)%f32.

Definition dot3 (a b : vec3) : float :=
  ((x3 a * x3 b + y3 a * y3 b) + z3 a * z3 b)%f32.

Definition inversesqrt (x : float) : float := (F32.one / F32.sqrt x)%f32.

Definition normalize (v : vec3) : vec3 := vec3_scale v (inversesqrt (dot3 v v)).

Section Rotate.
(** [cos] and [sin] of the C library, used by [glm::rotate]. *)
Variables cosf sinf : float -> float.

(** [glm::rotate(m, angle, v)] *)
Definition rotate (m : mat4) (angle : float) (v : vec3) : mat4 :=
  let c := cosf angle in
  let s := sinf angle in
  let axis := normalize v in
  let temp := vec3_scale axis (F32.one - c)%f32 in
  let r00 := (c + x3 temp * x3 axis)%f32 in
  let r01 := (x3 temp * y3 axis + s * z3 axis)%f32 in
  let r02 := (x3 temp * z3 axis - s * y3 axis)%f32 in
  let r10 := (y3 temp * x3 axis - s * z3 axis)%f32 in
  let r11 := (c + y3 temp * y3 axis)%f32 in
  let r12 := (y3 temp * z3 axis + s * x3 axis)%f32 in
  let r20 := (z3 temp * x3 axis + s * y3 axis)%f32 in
  let r21 := (z3 temp * y3 axis - s * x3 axis)%f32 in
  let r22 := (c + z3 temp * z3 axis)%f32 in
  let lin a b c' :=
    vec4_add (vec4_add (vec4_scale (col0 m) a) (vec4_scale (col1 m) b))
             (vec4_scale (col2 m) c') in
  mk_mat4 (lin r00 r01 r02) (lin r10 r11 r12) (lin r20 r21 r22) (col3 m).
End Rotate.

End glm.

Import glm.

#[global] Instance vec2_inhabited : Inhabited vec2 :=
  populate (mk_vec2 F32.zero F32.zero).
#[global] Instance vec3_inhabited : Inhabited vec3 :=
  populate (mk_vec3 F32.zero F32.zero F32.zero).
#[global] Instance vec4_inhabited : Inhabited vec4 :=
  populate (mk_vec4 F32.zero F32.zero F32.zero F32.zero).

(** ** Constants and tables of Renderer.h

    Renderer.h is not part of the sources at hand.  The batch limits, the
    render-flag bits, the unit shapes and the size of a [Texture] object are
    therefore parameters of the development. *)

Class RendererH := {
  MAX_VERTEX_COUNT : Z;
  MAX_INDEX_COUNT : Z;
  MAX_TEXTURE_SLOTS : Z;
  MAX_DRAW_COMMANDS : Z;
  (** [RenderFlags::PolygonMode] and [RenderFlags::TopLeftCornerPos] *)
  RenderFlags_PolygonMode : Z;
  RenderFlags_TopLeftCornerPos : Z;
  QUAD_POSITIONS : list vec4;
  TRIANGLE_POSITIONS : list vec4;
  CUBE_POSITIONS : list vec3;
  TEX_COORDS : list vec2;
  (** [sizeof(Texture)] in bytes *)
  sizeof_Texture : Z
}.

(** Modelled from the spec: the per-primitive vertex counts of Renderer.h,
    which the spec's external-interface section gives as quad = 4,
    triangle = 3 and cube = 24 vertices on 6 faces. *)
Definition QUAD_VERTEX_COUNT : Z := 4.
Definition TRIANGLE_VERTEX_COUNT : Z := 3.
Definition CUBE_VERTEX_COUNT : Z := 24.
Definition CUBE_FACES : Z := 6.

(** ** Collaborators outside the renderer *)

(** The C library's [cosf], [sinf], [atan2f], and
    [TextureAtlas::CalculateSpriteCoordinate]. *)
Class Collaborators := {
  cosf : float -> float;
  sinf : float -> float;
  atan2f : float -> float -> float;
  CalculateSpriteCoordinate : vec2 -> Z -> Z -> vec2
}.

Record Camera := { GetProjection : mat4; GetView : mat4 }.

(** A [Texture] as far as the renderer sees it: its OpenGL handle. *)
Record Texture := { GetTextureId : Z }.

(** Modelled from the spec: Font.h is not at hand; a glyph carries its pixel
    size, bearing, advance (in 1/64 pixel) and atlas offset, a font its glyph
    table, its atlas dimensions, its size and its atlas texture. *)
Record Glyph := {
  glyph_size_x : Z; glyph_size_y : Z;
  glyph_bearing_x : Z; glyph_bearing_y : Z;
  glyph_advance_x : Z;
  glyph_offset : float
}.

Record Font := {
  glyphs : ascii -> Glyph;
  font_width : Z;
  font_height : Z;
  font_size : Z;
  font_texture : Texture
}.

(** ** Data model *)

Record Vertex := {
  position : vec3;
  color : vec4;
  texture_coordinates : vec2;
  texture_id : float;
  material_id : float
}.

Record DrawElementsCommand := {
  vertex_count : Z;
  instance_count : Z;
  first_index : Z;
  base_vertex : Z;
  base_instance : Z
}.

Definition zero_command : DrawElementsCommand :=
  {| vertex_count := 0; instance_count := 0; first_index := 0;
     base_vertex := 0; base_instance := 0 |}.

#[global] Instance command_inhabited : Inhabited DrawElementsCommand :=
  populate zero_command.

(** [struct RendererData].  The two staging arrays are kept as the part that
    has been written since the cursor was last rewound: [vertices] is the
    content of [[vertices_base, vertices_ptr)] and [indices] that of
    [[index_base, index_ptr)]; advancing a cursor appends, rewinding it
    empties the list.  Shaders are identified by a handle.  The buffer
    objects behind the pointers are part of the OpenGL state below. *)
#[projections(primitive)]
Record RendererData := mkRendererData {
  current_shader : Z;
  default_shader : Z;
  index_offset : Z;
  texture_slot_index : Z;
  textures : list Z;
  proj_view : mat4;
  camera : option Camera;
  num_of_vertices_in_batch : Z;
  draw_commands : list DrawElementsCommand;
  base_vert : Z;
  draw_count : Z;
  current_draw_command_vertex_size : Z;
  vertices : list Vertex;
  indices : list Z;
  current_material_id : Z;
  flags : Z
}.

(** One [glMultiDrawElementsIndirect] call, with what was bound and uploaded
    when it was issued. *)
#[projections(primitive)]
Record DrawCall := {
  call_polygon_line : bool;
  call_shader : Z;
  call_proj_view : mat4;
  call_texture_units : list Z;
  call_vertex_data : list Vertex;
  call_index_data : list Z;
  call_commands : list DrawElementsCommand;
  call_count : Z
}.

(** The part of the OpenGL context the renderer changes: the state persists
    from one call to the next. *)
#[projections(primitive)]
Record GLState := {
  polygon_mode_line : bool;
  texture_units : list Z;
  draw_calls : list DrawCall
}.

#[projections(primitive)]
Record World := { data : RendererData; gl : GLState }.

Definition on_data (f : RendererData -> RendererData) (w : World) : World :=
  {| data := f (data w); gl := gl w |}.

(** *** Field updates *)

Definition set_current_shader (v : Z) (d : RendererData) : RendererData :=
  mkRendererData v (default_shader d) (index_offset d) (texture_slot_index d)
    (textures d) (proj_view d) (camera d) (num_of_vertices_in_batch d)
    (draw_commands d) (base_vert d) (draw_count d)
    (current_draw_command_vertex_size d) (vertices d) (indices d)
    (current_material_id d) (flags d).

Definition set_index_offset (v : Z) (d : RendererData) : RendererData :=
  mkRendererData (current_shader d) (default_shader d) v (texture_slot_index d)
    (textures d) (proj_view d) (camera d) (num_of_vertices_in_batch d)
    (draw_commands d) (base_vert d) (draw_count d)
    (current_draw_command_vertex_size d) (vertices d) (indices d)
    (current_material_id d) (flags d).

Definition set_texture_slot_index (v : Z) (d : RendererData) : RendererData :=
  mkRendererData (current_shader d) (default_shader d) (index_offset d) v
    (textures d) (proj_view d) (camera d) (num_of_vertices_in_batch d)
    (draw_commands d) (base_vert d) (draw_count d)
    (current_draw_command_vertex_size d) (vertices d) (indices d)
    (current_material_id d) (flags d).

Definition set_textures (v : list Z) (d : RendererData) : RendererData :=
  mkRendererData (current_shader d) (default_shader d) (index_offset d)
    (texture_slot_index d) v (proj_view d) (camera d)
    (num_of_vertices_in_batch d) (draw_commands d) (base_vert d) (draw_count d)
    (current_draw_command_vertex_size d) (vertices d) (indices d)
    (current_material_id d) (flags d).

Definition set_proj_view (v : mat4) (d : RendererData) : RendererData :=
  mkRendererData (current_shader d) (default_shader d) (index_offset d)
    (texture_slot_index d) (textures d) v (camera d)
    (num_of_vertices_in_batch d) (draw_commands d) (base_vert d) (draw_count d)
    (current_draw_command_vertex_size d) (vertices d) (indices d)
    (current_material_id d) (flags d).

Definition set_camera (v : option Camera) (d : RendererData) : RendererData :=
  mkRendererData (current_shader d) (default_shader d) (index_offset d)
    (texture_slot_index d) (textures d) (proj_view d) v
    (num_of_vertices_in_batch d) (draw_commands d) (base_vert d) (draw_count d)
    (current_draw_command_vertex_size d) (vertices d) (indices d)
    (current_material_id d) (flags d).

Definition set_num_of_vertices_in_batch (v : Z) (d : RendererData) : RendererData :=
  mkRendererData (current_shader d) (default_shader d) (index_offset d)
    (texture_slot_index d) (textures d) (proj_view d) (camera d) v
    (draw_commands d) (base_vert d) (draw_count d)
    (current_draw_command_vertex_size d) (vertices d) (indices d)
    (current_material_id d) (flags d).

Definition set_draw_commands (v : list DrawElementsCommand) (d : RendererData)
  : RendererData :=
  mkRendererData (current_shader d) (default_shader d) (index_offset d)
    (texture_slot_index d) (textures d) (proj_view d) (camera d)
    (num_of_vertices_in_batch d) v (base_vert d) (draw_count d)
    (current_draw_command_vertex_size d) (vertices d) (indices d)
    (current_material_id d) (flags d).

Definition set_base_vert (v : Z) (d : RendererData) : RendererData :=
  mkRendererData (current_shader d) (default_shader d) (index_offset d)
    (texture_slot_index d) (textures d) (proj_view d) (camera d)
    (num_of_vertices_in_batch d) (draw_commands d) v (draw_count d)
    (current_draw_command_vertex_size d) (vertices d) (indices d)
    (current_material_id d) (flags d).

Definition set_draw_count (v : Z) (d : RendererData) : RendererData :=
  mkRendererData (current_shader d) (default_shader d) (index_offset d)
    (texture_slot_index d) (textures d) (proj_view d) (camera d)
    (num_of_vertices_in_batch d) (draw_commands d) (base_vert d) v
    (current_draw_command_vertex_size d) (vertices d) (indices d)
    (current_material_id d) (flags d).

Definition set_current_draw_command_vertex_size (v : Z) (d : RendererData)
  : RendererData :=
  mkRendererData (current_shader d) (default_shader d) (index_offset d)
    (texture_slot_index d) (textures d) (proj_view d) (camera d)
    (num_of_vertices_in_batch d) (draw_commands d) (base_vert d) (draw_count d)
    v (vertices d) (indices d) (current_material_id d) (flags d).

Definition set_vertices (v : list Vertex) (d : RendererData) : RendererData :=
  mkRendererData (current_shader d) (default_shader d) (index_offset d)
    (texture_slot_index d) (textures d) (proj_view d) (camera d)
    (num_of_vertices_in_batch d) (draw_commands d) (base_vert d) (draw_count d)
    (current_draw_command_vertex_size d) v (indices d)
    (current_material_id d) (flags d).

Definition set_indices (v : list Z) (d : RendererData) : RendererData :=
  mkRendererData (current_shader d) (default_shader d) (index_offset d)
    (texture_slot_index d) (textures d) (proj_view d) (camera d)
    (num_of_vertices_in_batch d) (draw_commands d) (base_vert d) (draw_count d)
    (current_draw_command_vertex_size d) (vertices d) v
    (current_material_id d) (flags d).

Definition set_current_material_id (v : Z) (d : RendererData) : RendererData :=
  mkRendererData (current_shader d) (default_shader d) (index_offset d)
    (texture_slot_index d) (textures d) (proj_view d) (camera d)
    (num_of_vertices_in_batch d) (draw_commands d) (base_vert d) (draw_count d)
    (current_draw_command_vertex_size d) (vertices d) (indices d) v (flags d).

Definition set_flags (v : Z) (d : RendererData) : RendererData :=
  mkRendererData (current_shader d) (default_shader d) (index_offset d)
    (texture_slot_index d) (textures d) (proj_view d) (camera d)
    (num_of_vertices_in_batch d) (draw_commands d) (base_vert d) (draw_count d)
    (current_draw_command_vertex_size d) (vertices d) (indices d)
    (current_material_id d) v.

(** ** The renderer *)

(** [for (i = 0; i < n; i++) body] *)
Definition for_loop {S : Type} (n : Z) (body : nat -> S -> S) (s : S) : S :=
  fold_left (fun s i => body i s) (seq 0 (Z.to_nat n)) s.

(** [memset(a, 0, nbytes)] on an array of 32-bit words.  The byte count the
    renderer passes is a multiple of [sizeof(Texture)], itself a multiple of
    four since the class holds a 32-bit handle, so whole words are cleared.
    The write is followed as far as the array reaches.  With a byte count
    beyond the size of the array the C code goes on into the members declared
    after it; that part of the write is not modelled, and what is proved of
    those members is stated for byte counts within the array
    ([memset_within] below). *)
Definition memset_zero (nbytes : Z) (a : list Z) : list Z :=
  let n := Z.to_nat (nbytes / 4) in
  replicate (Nat.min n (length a)) 0 ++ drop n a.

Section Renderer.
Context `{RendererH} `{Collaborators}.

(** The object [renderer_data] once [Renderer::Init] has run, for a default
    shader with handle [shader]: static storage is zero-initialised, then
    the member initialisers apply ([-1] stored in a [uint32_t] wraps). *)
Definition Init (shader : Z) : World :=
  {| data :=
       {| current_shader := 0;
          default_shader := shader;
          index_offset := 0;
          texture_slot_index := 0;
          textures := replicate (Z.to_nat MAX_TEXTURE_SLOTS) 0;
          proj_view := identity;
          camera := None;
          num_of_vertices_in_batch := 0;
          draw_commands := replicate (Z.to_nat MAX_DRAW_COMMANDS) zero_command;
          base_vert := 0;
          draw_count := 0;
          current_draw_command_vertex_size := 0;
          vertices := [];
          indices := [];
          current_material_id := wrap32 (-1);
          flags := 0 |};
     gl :=
       {| polygon_mode_line := false;
          texture_units := replicate (Z.to_nat MAX_TEXTURE_SLOTS) 0;
          draw_calls := [] |} |}.

Definition StartBatch (d : RendererData) : RendererData :=
  let d := set_textures
             (memset_zero (texture_slot_index d * sizeof_Texture) (textures d)) d in
  let d := set_texture_slot_index 0 d in
  let d := set_num_of_vertices_in_batch 0 d in
  let d := set_index_offset 0 d in
  let d := set_base_vert 0 d in
  let d := set_draw_count 0 d in
  let d := set_current_draw_command_vertex_size 0 d in
  let d := set_vertices [] d in
  set_indices [] d.

Definition BeginScene (cam : Camera) (fl : Z) (w : World) : World :=
  on_data (fun d =>
    let d := set_flags fl d in
    let d := set_proj_view (mul (GetProjection cam) (GetView cam)) d in
    let d := set_camera (Some cam) d in
    let d := set_current_shader (default_shader d) d in
    let d := set_current_material_id (wrap32 (-1)) d in
    StartBatch d) w.

(** The loop of [Render] that binds the occupied texture slots. *)
Definition bind_textures (d : RendererData) (units : list Z) : list Z :=
  for_loop (texture_slot_index d)
    (fun i units =>
       if (textures d !!! i) =? 0 then units
       else <[i := textures d !!! i]> units)
    units.

Definition Render (w : World) : World :=
  let d := data w in
  let g := gl w in
  let line :=
    if Z.land (flags d) RenderFlags_PolygonMode =? 0
    then polygon_mode_line g else true in
  let units := bind_textures d (texture_units g) in
  let call :=
    {| call_polygon_line := line;
       call_shader := current_shader d;
       call_proj_view := proj_view d;
       call_texture_units := units;
       call_vertex_data := vertices d;
       call_index_data := indices d;
       call_commands := draw_commands d;
       call_count := add32 (draw_count d) 1 |} in
  {| data := d;
     gl := {| polygon_mode_line := line;
              texture_units := units;
              draw_calls := draw_calls g ++ [call] |} |}.

Definition NewBatch (w : World) : World := on_data StartBatch (Render w).

Definition push_index (i : Z) (d : RendererData) : RendererData :=
  set_indices (indices d ++ [i]) d.

Definition CalculateSquareIndices (d : RendererData) : RendererData :=
  let d := push_index (index_offset d) d in
  let d := push_index (add32 1 (index_offset d)) d in
  let d := push_index (add32 2 (index_offset d)) d in
  let d := push_index (add32 2 (index_offset d)) d in
  let d := push_index (add32 3 (index_offset d)) d in
  let d := push_index (index_offset d) d in
  set_index_offset (add32 (index_offset d) 4) d.

Definition CalculateTriangleIndices (d : RendererData) : RendererData :=
  let d := push_index (index_offset d) d in
  let d := push_index (add32 1 (index_offset d)) d in
  let d := push_index (add32 2 (index_offset d)) d in
  set_index_offset (add32 (index_offset d) 3) d.

(** [*vertices_ptr = vertex; vertices_ptr++; num_of_vertices_in_batch++;] *)
Definition write_vertex (v : Vertex) (d : RendererData) : RendererData :=
  let d := set_vertices (vertices d ++ [v]) d in
  set_num_of_vertices_in_batch (add32 (num_of_vertices_in_batch d) 1) d.

Definition add_to_command_size (n : Z) (d : RendererData) : RendererData :=
  set_current_draw_command_vertex_size
    (add32 (current_draw_command_vertex_size d) n) d.

(** The capacity test every emitter starts with:
    [if (num_of_vertices_in_batch + count > MAX_VERTEX_COUNT) NewBatch();]
    The sum is taken in the 32 bits of the counter; should the constants be
    of a wider type, the two readings agree while the sum is below [2^32]. *)
Definition check_capacity (count : Z) (w : World) : World :=
  if add32 (num_of_vertices_in_batch (data w)) count >? MAX_VERTEX_COUNT
  then NewBatch w else w.

Definition GoToNextDrawCommand (d : RendererData) : RendererData :=
  let d := set_draw_count (add32 (draw_count d) 1) d in
  let d := set_base_vert (add32 (base_vert d) (num_of_vertices_in_batch d)) d in
  set_current_draw_command_vertex_size 0 d.

Definition MakeCommand (d : RendererData) : RendererData :=
  set_draw_commands
    (<[Z.to_nat (draw_count d) :=
         {| vertex_count := current_draw_command_vertex_size d;
            instance_count := 1;
            first_index := 0;
            base_vertex := base_vert d;
            base_instance := draw_count d |}]> (draw_commands d)) d.

Definition EndScene (w : World) : World :=
  Render (on_data GoToNextDrawCommand (on_data MakeCommand w)).

Definition SetShader (shader : Z) (w : World) : World :=
  on_data (set_current_shader shader) w.

Definition SetShaderToDefualt (w : World) : World :=
  on_data (fun d => set_current_shader (default_shader d) d) w.

Definition SetMaterialId (id : Z) (w : World) : World :=
  on_data (set_current_material_id id) w.

Definition GetShaderId (w : World) : Z := current_shader (data w).

(** [InitRendererShader]: the array it passes to the shader as the uniform
    [textures].  [sampler] is the local array as declared, not yet
    initialised. *)
Definition InitRendererShader (sampler : list Z) : list Z :=
  for_loop MAX_TEXTURE_SLOTS (fun i sampler => <[i := Z.of_nat i]> sampler)
    sampler.

Definition CalculateTextureIndex (id : Z) (w : World) : float * World :=
  let d := data w in
  let texture_id :=
    for_loop (texture_slot_index d)
      (fun i t => if (textures d !!! i) =? id then F32.of_Z (Z.of_nat i) else t)
      F32.neg_one in
  if F32.eqb texture_id F32.neg_one then
    let d1 := set_textures
                (<[Z.to_nat (texture_slot_index d) := id]> (textures d)) d in
    let texture_id := F32.of_Z (texture_slot_index d1) in
    let d2 := set_texture_slot_index (add32 (texture_slot_index d1) 1) d1 in
    let w2 := {| data := d2; gl := gl w |} in
    let w3 := if texture_slot_index d2 =? MAX_TEXTURE_SLOTS
              then NewBatch w2 else w2 in
    (texture_id, w3)
  else (texture_id, w).

Definition CalculateTextureIndex_texture (t : Texture) (w : World) : float * World :=
  CalculateTextureIndex (GetTextureId t) w.

(** [GetModelMatrix] reads [renderer_data.flags]; here the caller passes
    them. *)
Definition GetModelMatrix (fl : Z) (pos : vec3) (size : vec2) : mat4 :=
  if Z.land fl RenderFlags_TopLeftCornerPos =? 0 then
    mul (translate identity (mk_vec3 (x3 pos) (y3 pos) (z3 pos)))
        (scale identity (mk_vec3 (x2 size) (y2 size) F32.one))
  else
    mul (translate identity
           (mk_vec3 (x3 pos + x2 size / F32.two)%f32
                    (y3 pos + y2 size / F32.two)%f32 (z3 pos)))
        (scale identity (mk_vec3 (x2 size) (y2 size) F32.one)).

(** *** Quads *)

Definition DrawQuad_mat (translation : mat4) (col : vec4) (tex : float)
    (tex_coords : list vec2) (w : World) : World :=
  let w := check_capacity QUAD_VERTEX_COUNT w in
  let w := on_data CalculateSquareIndices w in
  let w :=
    for_loop QUAD_VERTEX_COUNT
      (fun i w =>
         let vertex :=
           {| position := xyz (mul_vec translation (QUAD_POSITIONS !!! i));
              color := col;
              texture_coordinates := tex_coords !!! i;
              texture_id := tex;
              material_id := F32.of_Z (current_material_id (data w)) |} in
         on_data (write_vertex vertex) w)
      w in
  on_data (add_to_command_size 6) w.

Definition DrawQuad_color (pos : vec3) (size : vec2) (col : vec4) (w : World)
  : World :=
  let model := GetModelMatrix (flags (data w)) pos size in
  DrawQuad_mat model col F32.neg_one TEX_COORDS w.

Definition DrawQuad_texture (pos : vec3) (size : vec2) (t : Texture)
    (col : vec4) (w : World) : World :=
  let model := GetModelMatrix (flags (data w)) pos size in
  let '(tex, w) := CalculateTextureIndex_texture t w in
  DrawQuad_mat model col tex TEX_COORDS w.

Definition DrawQuad_texture_id (pos : vec3) (size : vec2) (t : Z)
    (col : vec4) (w : World) : World :=
  let model := GetModelMatrix (flags (data w)) pos size in
  let '(tex, w) := CalculateTextureIndex t w in
  DrawQuad_mat model col tex TEX_COORDS w.

Definition DrawQuad_coords (pos : vec3) (size : vec2) (tex_coords : list vec2)
    (col : vec4) (w : World) : World :=
  let model := GetModelMatrix (flags (data w)) pos size in
  DrawQuad_mat model col F32.neg_one tex_coords w.

Definition DrawQuad_texture_coords (pos : vec3) (size : vec2) (t : Texture)
    (tex_coords : list vec2) (col : vec4) (w : World) : World :=
  let model := GetModelMatrix (flags (data w)) pos size in
  let '(tex, w) := CalculateTextureIndex_texture t w in
  DrawQuad_mat model col tex tex_coords w.

Definition DrawRotatedQuad_color (pos : vec3) (rotation : float)
    (rotation_orientation : vec3) (size : vec2) (col : vec4) (w : World)
  : World :=
  let trans := translate identity (mk_vec3 (x3 pos) (y3 pos) F32.zero) in
  let scl := scale identity (mk_vec3 (x2 size) (y2 size) F32.one) in
  let rot := rotate cosf sinf identity (radians rotation) rotation_orientation in
  let model := mul (mul trans rot) scl in
  DrawQuad_mat model col F32.neg_one TEX_COORDS w.

Definition DrawRotatedQuad_texture (pos : vec3) (rotation : float)
    (rotation_orientation : vec3) (size : vec2) (t : Texture) (col : vec4)
    (w : World) : World :=
  let model := GetModelMatrix (flags (data w)) pos size in
  let model := rotate cosf sinf model (radians rotation) rotation_orientation in
  let '(tex, w) := CalculateTextureIndex_texture t w in
  DrawQuad_mat model col tex TEX_COORDS w.

Definition DrawRotatedQuad_coords (pos : vec3) (rotation : float)
    (rotation_orientation : vec3) (size : vec2) (tex_coords : list vec2)
    (col : vec4) (w : World) : World :=
  let model := GetModelMatrix (flags (data w)) pos size in
  let model := rotate cosf sinf model (radians rotation) rotation_orientation in
  DrawQuad_mat model col F32.neg_one tex_coords w.

Definition DrawRotatedQuad_coords_texture (pos : vec3) (rotation : float)
    (rotation_orientation : vec3) (size : vec2) (tex_coords : list vec2)
    (t : Texture) (col : vec4) (w : World) : World :=
  let model := GetModelMatrix (flags (data w)) pos size in
  let model := rotate cosf sinf model (radians rotation) rotation_orientation in
  let '(tex, w) := CalculateTextureIndex_texture t w in
  DrawQuad_mat model col tex tex_coords w.

(** *** Triangles *)

Definition triangle_body (translation : mat4) (col : vec4) (w : World) : World :=
  let w :=
    for_loop TRIANGLE_VERTEX_COUNT
      (fun i w =>
         let vertex :=
           {| position := xyz (mul_vec translation (TRIANGLE_POSITIONS !!! i));
              color := col;
              texture_coordinates := mk_vec2 F32.zero F32.zero;
              texture_id := F32.neg_one;
              material_id := F32.of_Z (current_material_id (data w)) |} in
         on_data (write_vertex vertex) w)
      w in
  on_data (add_to_command_size 3) w.

Definition DrawTriangle (pos : vec3) (size : vec2) (col : vec4) (w : World)
  : World :=
  let w := check_capacity QUAD_VERTEX_COUNT w in
  let w := on_data CalculateTriangleIndices w in
  let translation := GetModelMatrix (flags (data w)) pos size in
  triangle_body translation col w.

Definition DrawTriangle_rotated (pos : vec3) (rotation : float)
    (rotation_orientation : vec3) (size : vec2) (col : vec4) (w : World)
  : World :=
  let translation := GetModelMatrix (flags (data w)) pos size in
  let translation :=
    rotate cosf sinf translation (radians rotation) rotation_orientation in
  let w := check_capacity QUAD_VERTEX_COUNT w in
  let w := on_data CalculateTriangleIndices w in
  triangle_body translation col w.

(** *** Lines *)

Definition DrawLine (p1 p2 : vec2) (col : vec4) (width : float) (w : World)
  : World :=
  let x := (x2 p2 - x2 p1)%f32 in
  let y := (y2 p2 - y2 p1)%f32 in
  let trans :=
    translate identity
      (mk_vec3 (x2 p1 + x / F32.two)%f32 (y2 p1 + y / F32.two)%f32 F32.zero) in
  let scl :=
    scale identity (mk_vec3 (F32.sqrt (x * x + y * y)%f32) width F32.one) in
  let rot :=
    rotate cosf sinf identity (atan2f y x) (mk_vec3 F32.zero F32.zero F32.one) in
  let model := mul (mul trans rot) scl in
  DrawQuad_mat model col F32.neg_one TEX_COORDS w.

(** *** Cubes *)

Definition DrawCube_mat (translation : mat4) (col : vec4) (tex : float)
    (tex_coords : list vec2) (w : World) : World :=
  let w := check_capacity CUBE_VERTEX_COUNT w in
  let w := for_loop CUBE_FACES (fun _ w => on_data CalculateSquareIndices w) w in
  let w :=
    for_loop CUBE_VERTEX_COUNT
      (fun i w =>
         let p := CUBE_POSITIONS !!! i in
         let vertex :=
           {| position :=
                xyz (mul_vec translation (mk_vec4 (x3 p) (y3 p) (z3 p) F32.one));
              color := col;
              texture_coordinates := tex_coords !!! (i mod 4)%nat;
              texture_id := tex;
              material_id := F32.of_Z (current_material_id (data w)) |} in
         on_data (write_vertex vertex) w)
      w in
  on_data (add_to_command_size 36) w.

Definition cube_model (pos size : vec3) : mat4 :=
  mul (translate identity (mk_vec3 (x3 pos) (y3 pos) (z3 pos)))
      (scale identity (mk_vec3 (x3 size) (y3 size) (z3 size))).

Definition DrawCube_color (pos size : vec3) (col : vec4) (w : World) : World :=
  DrawCube_mat (cube_model pos size) col F32.neg_one TEX_COORDS w.

Definition DrawCube_texture (pos size : vec3) (t : Texture) (col : vec4)
    (w : World) : World :=
  let model := cube_model pos size in
  let '(tex, w) := CalculateTextureIndex_texture t w in
  DrawCube_mat model col tex TEX_COORDS w.

(** *** Text *)

(** The body of the loop of [RenderText] for one character; [x] is the pen
    position, which the body advances. *)
Definition RenderGlyph (font : Font) (y : float) (scl : vec2) (col : vec4)
    (c : ascii) (xw : float * World) : float * World :=
  let '(x, w) := xw in
  let character := glyphs font c in
  let normalized_width :=
    (x2 (CalculateSpriteCoordinate
           (mk_vec2 (F32.of_Z (glyph_size_x character)) F32.zero)
           (font_width font) (font_height font))
     - F32.lit_0_00002 * F32.of_Z (font_size font))%f32 in
  let xpos := (x + F32.of_Z (glyph_bearing_x character) * x2 scl)%f32 in
  let ypos :=
    (y - F32.of_Z (glyph_size_y character - glyph_bearing_y character)
         * y2 scl)%f32 in
  let gw := (F32.of_Z (glyph_size_x character) * x2 scl)%f32 in
  let gh := (F32.of_Z (glyph_size_y character) * y2 scl)%f32 in
  let clean := (F32.lit_0_00001 * F32.of_Z (font_size font))%f32 in
  let off := glyph_offset character in
  let coords :=
    [ mk_vec2 (off + clean)%f32 F32.one;
      mk_vec2 (off + normalized_width + clean)%f32 F32.one;
      mk_vec2 (off + normalized_width + clean)%f32 F32.zero;
      mk_vec2 (off + clean)%f32 F32.zero ] in
  let w := check_capacity QUAD_VERTEX_COUNT w in
  let w := on_data CalculateSquareIndices w in
  let '(tex_id, w) := CalculateTextureIndex_texture (font_texture font) w in
  let pos :=
    [ mk_vec4 xpos ypos F32.zero F32.one;
      mk_vec4 (xpos + gw)%f32 ypos F32.zero F32.one;
      mk_vec4 (xpos + gw)%f32 (ypos + gh)%f32 F32.zero F32.one;
      mk_vec4 xpos (ypos + gh)%f32 F32.zero F32.one ] in
  let w :=
    for_loop QUAD_VERTEX_COUNT
      (fun i w =>
         let vertex :=
           {| position := xyz (pos !!! i);
              color := col;
              texture_coordinates := coords !!! i;
              texture_id := tex_id;
              material_id := F32.of_Z (current_material_id (data w)) |} in
         on_data (write_vertex vertex) w)
      w in
  let w := on_data (add_to_command_size 6) w in
  ((x + F32.of_Z (Z.shiftr (glyph_advance_x character) 6) * x2 scl)%f32, w).

Definition RenderText (font : Font) (text : string) (pos scl : vec2)
    (col : vec4) (w : World) : World :=
  snd (fold_left (fun xw c => RenderGlyph font (y2 pos) scl col c xw)
         (list_ascii_of_string text) (x2 pos, w)).

(** *** Scenes

    What a client can call between [BeginScene] and [EndScene]. *)
Inductive Call :=
| CDrawQuad_mat (m : mat4) (col : vec4) (tex : float) (tc : list vec2)
| CDrawQuad_color (pos : vec3) (size : vec2) (col : vec4)
| CDrawQuad_texture (pos : vec3) (size : vec2) (t : Texture) (col : vec4)
| CDrawQuad_texture_id (pos : vec3) (size : vec2) (t : Z) (col : vec4)
| CDrawQuad_coords (pos : vec3) (size : vec2) (tc : list vec2) (col : vec4)
| CDrawQuad_texture_coords (pos : vec3) (size : vec2) (t : Texture)
    (tc : list vec2) (col : vec4)
| CDrawRotatedQuad_color (pos : vec3) (rot : float) (axis : vec3)
    (size : vec2) (col : vec4)
| CDrawRotatedQuad_texture (pos : vec3) (rot : float) (axis : vec3)
    (size : vec2) (t : Texture) (col : vec4)
| CDrawRotatedQuad_coords (pos : vec3) (rot : float) (axis : vec3)
    (size : vec2) (tc : list vec2) (col : vec4)
| CDrawRotatedQuad_coords_texture (pos : vec3) (rot : float) (axis : vec3)
    (size : vec2) (tc : list vec2) (t : Texture) (col : vec4)
| CDrawTriangle (pos : vec3) (size : vec2) (col : vec4)
| CDrawTriangle_rotated (pos : vec3) (rot : float) (axis : vec3)
    (size : vec2) (col : vec4)
| CDrawLine (p1 p2 : vec2) (col : vec4) (width : float)
| CDrawCube_mat (m : mat4) (col : vec4) (tex : float) (tc : list vec2)
| CDrawCube_color (pos size : vec3) (col : vec4)
| CDrawCube_texture (pos size : vec3) (t : Texture) (col : vec4)
| CRenderText (font : Font) (text : string) (pos scl : vec2) (col : vec4)
| CSetShader (shader : Z)
| CSetShaderToDefualt
| CSetMaterialId (id : Z).

Definition exec (c : Call) (w : World) : World :=
  match c with
  | CDrawQuad_mat m col tex tc => DrawQuad_mat m col tex tc w
  | CDrawQuad_color pos size col => DrawQuad_color pos size col w
  | CDrawQuad_texture pos size t col => DrawQuad_texture pos size t col w
  | CDrawQuad_texture_id pos size t col => DrawQuad_texture_id pos size t col w
  | CDrawQuad_coords pos size tc col => DrawQuad_coords pos size tc col w
  | CDrawQuad_texture_coords pos size t tc col =>
      DrawQuad_texture_coords pos size t tc col w
  | CDrawRotatedQuad_color pos rot axis size col =>
      DrawRotatedQuad_color pos rot axis size col w
  | CDrawRotatedQuad_texture pos rot axis size t col =>
      DrawRotatedQuad_texture pos rot axis size t col w
  | CDrawRotatedQuad_coords pos rot axis size tc col =>
      DrawRotatedQuad_coords pos rot axis size tc col w
  | CDrawRotatedQuad_coords_texture pos rot axis size tc t col =>
      DrawRotatedQuad_coords_texture pos rot axis size tc t col w
  | CDrawTriangle pos size col => DrawTriangle pos size col w
  | CDrawTriangle_rotated pos rot axis size col =>
      DrawTriangle_rotated pos rot axis size col w
  | CDrawLine p1 p2 col width => DrawLine p1 p2 col width w
  | CDrawCube_mat m col tex tc => DrawCube_mat m col tex tc w
  | CDrawCube_color pos size col => DrawCube_color pos size col w
  | CDrawCube_texture pos size t col => DrawCube_texture pos size t col w
  | CRenderText font text pos scl col => RenderText font text pos scl col w
  | CSetShader shader => SetShader shader w
  | CSetShaderToDefualt => SetShaderToDefualt w
  | CSetMaterialId id => SetMaterialId id w
  end.

Definition run (cs : list Call) (w : World) : World :=
  fold_left (fun w c => exec c w) cs w.

(** A whole scene: [BeginScene], the calls, [EndScene]. *)
Definition scene (cam : Camera) (fl : Z) (cs : list Call) (w : World) : World :=
  EndScene (run cs (BeginScene cam fl w)).

End Renderer.

(** ** The objects behind the renderer's pointers *)

(** The heap as far as [Init] and [Destroy] see it: the objects that are
    live, and the address the next [new] returns. *)
Record Heap := { live : gset nat; next : nat }.

(** The seven pointers of [RendererData] that [Init] sets; [None] is the
    null pointer of zero-initialised static storage. *)
Record Pointers := {
  vertex_array : option nat;
  vertex_buffer : option nat;
  index_buffer : option nat;
  indirect_draw_buffer : option nat;
  ssbo : option nat;
  vertices_base : option nat;
  index_base : option nat
}.

Definition null_pointers : Pointers :=
  {| vertex_array := None; vertex_buffer := None; index_buffer := None;
     indirect_draw_buffer := None; ssbo := None; vertices_base := None;
     index_base := None |}.

(** [new]: a fresh object. *)
Definition new (h : Heap) : nat * Heap :=
  (next h, {| live := {[ next h ]} ∪ live h; next := S (next h) |}).

(** [delete p]: nothing for the null pointer, the release of a live object,
    and an error (undefined behaviour) for an object that is not live. *)
Definition delete (p : option nat) (h : Heap) : option Heap :=
  match p with
  | None => Some h
  | Some a =>
      if decide (a ∈ live h)
      then Some {| live := live h ∖ {[ a ]}; next := next h |}
      else None
  end.

(** The allocations of [Renderer::Init], in the order of the source; the
    pointers it overwrites are not released. *)
Definition Init_objects (h : Heap) : Pointers * Heap :=
  let '(vb, h) := new h in
  let '(va, h) := new h in
  let '(vs, h) := new h in
  let '(ixs, h) := new h in
  let '(ib, h) := new h in
  let '(idb, h) := new h in
  let '(sb, h) := new h in
  ({| vertex_array := Some va; vertex_buffer := Some vb;
      index_buffer := Some ib; indirect_draw_buffer := Some idb;
      ssbo := Some sb; vertices_base := Some vs; index_base := Some ixs |},
   h).

(** [Renderer::Destroy]: six [delete]s; the pointers keep their values. *)
Definition Destroy (p : Pointers) (h : Heap) : option Heap :=
  h ← delete (vertex_array p) h;
  h ← delete (vertex_buffer p) h;
  h ← delete (index_buffer p) h;
  h ← delete (indirect_draw_buffer p) h;
  h ← delete (vertices_base p) h;
  delete (index_base p) h.

(** Addresses not handed out yet are not live. *)
Definition heap_ok (h : Heap) : Prop :=
  forall a : nat, a ∈ live h -> (a < next h)%nat.

(** ** A concrete configuration, for evaluation *)

Module Sample.

(** Vectors given in halves: [v4 (-1) 1 0 2] is [(-0.5, 0.5, 0, 1)]. *)
Definition v4 (a b c d : Z) : vec4 :=
  mk_vec4 (F32.of_scaled a (-1)) (F32.of_scaled b (-1))
          (F32.of_scaled c (-1)) (F32.of_scaled d (-1)).

Definition v3 (a b c : Z) : vec3 :=
  mk_vec3 (F32.of_scaled a (-1)) (F32.of_scaled b (-1)) (F32.of_scaled c (-1)).

(** The four corners of the face of the unit cube on which coordinate
    [axis] has the value [side]/2. *)
Definition cube_face (axis : nat) (side : Z) : list vec3 :=
  map (fun '(a, b) =>
         match axis with
         | 0%nat => v3 side a b
         | 1%nat => v3 a side b
         | _ => v3 a b side
         end)
      [(-1, -1); (1, -1); (1, 1); (-1, 1)].

(** Small limits: 27 vertices per batch (six quads and a triangle), two
    texture slots. *)
#[export] Instance header : RendererH := {|
  MAX_VERTEX_COUNT := 27;
  MAX_INDEX_COUNT := 42;
  MAX_TEXTURE_SLOTS := 2;
  MAX_DRAW_COMMANDS := 4;
  RenderFlags_PolygonMode := 1;
  RenderFlags_TopLeftCornerPos := 2;
  QUAD_POSITIONS := [v4 (-1) (-1) 0 2; v4 1 (-1) 0 2; v4 1 1 0 2; v4 (-1) 1 0 2];
  TRIANGLE_POSITIONS := [v4 (-1) (-1) 0 2; v4 1 (-1) 0 2; v4 0 1 0 2];
  CUBE_POSITIONS :=
    cube_face 2 1 ++ cube_face 2 (-1) ++ cube_face 0 1 ++ cube_face 0 (-1)
    ++ cube_face 1 1 ++ cube_face 1 (-1);
  TEX_COORDS := [mk_vec2 F32.zero F32.zero; mk_vec2 F32.one F32.zero;
                 mk_vec2 F32.one F32.one; mk_vec2 F32.zero F32.one];
  sizeof_Texture := 4
|}.

(** The same configuration with four texture slots. *)
Definition wide : RendererH := {|
  MAX_VERTEX_COUNT := 27;
  MAX_INDEX_COUNT := 42;
  MAX_TEXTURE_SLOTS := 4;
  MAX_DRAW_COMMANDS := 4;
  RenderFlags_PolygonMode := 1;
  RenderFlags_TopLeftCornerPos := 2;
  QUAD_POSITIONS := QUAD_POSITIONS;
  TRIANGLE_POSITIONS := TRIANGLE_POSITIONS;
  CUBE_POSITIONS := CUBE_POSITIONS;
  TEX_COORDS := TEX_COORDS;
  sizeof_Texture := 4
|}.

(** The same configuration with a [Texture] object of eight bytes. *)
Definition large_texture : RendererH := {|
  MAX_VERTEX_COUNT := 27;
  MAX_INDEX_COUNT := 42;
  MAX_TEXTURE_SLOTS := 2;
  MAX_DRAW_COMMANDS := 4;
  RenderFlags_PolygonMode := 1;
  RenderFlags_TopLeftCornerPos := 2;
  QUAD_POSITIONS := QUAD_POSITIONS;
  TRIANGLE_POSITIONS := TRIANGLE_POSITIONS;
  CUBE_POSITIONS := CUBE_POSITIONS;
  TEX_COORDS := TEX_COORDS;
  sizeof_Texture := 8
|}.

(** Stand-ins for the C library and the texture atlas: the scenes evaluated
    below draw unrotated shapes and no text. *)
#[export] Instance collaborators : Collaborators := {|
  cosf := fun _ => F32.one;
  sinf := fun _ => F32.zero;
  atan2f := fun _ _ => F32.zero;
  CalculateSpriteCoordinate := fun v _ _ => v
|}.

Definition cam : Camera := {| GetProjection := identity; GetView := identity |}.
Definition white : vec4 := mk_vec4 F32.one F32.one F32.one F32.one.
Definition origin : vec3 := mk_vec3 F32.zero F32.zero F32.zero.
Definition unit_size : vec2 := mk_vec2 F32.one F32.one.

Definition quad : Call := CDrawQuad_color origin unit_size white.

Definition textured_quad (id : Z) : Call :=
  CDrawQuad_texture_id origin unit_size id white.

Definition triangle : Call := CDrawTriangle origin unit_size white.

(** A font whose glyphs are all one pixel wide and high, on the atlas
    texture with handle 9. *)
Definition font9 : Font :=
  {| glyphs := fun _ =>
       {| glyph_size_x := 1; glyph_size_y := 1;
          glyph_bearing_x := 0; glyph_bearing_y := 0;
          glyph_advance_x := 64;
          glyph_offset := F32.zero |};
     font_width := 1;
     font_height := 1;
     font_size := 1;
     font_texture := {| GetTextureId := 9 |} |}.

Definition letter_A : Call :=
  CRenderText font9 "A" (mk_vec2 F32.zero F32.zero) unit_size white.

(** The first scene after [Init], up to but not including [EndScene]. *)
Definition first_scene (cs : list Call) : World :=
  run cs (BeginScene cam 0 (Init 7)).

End Sample.


(** * Vocabulary of the properties

    The shapes the emitters reduce to, and the predicates the theorems are
    stated with. *)

Section Vocabulary.
Context `{RendererH} `{Collaborators}.

(** The data after a loop that wrote the [k] vertices [mk 0 .. mk (k-1)]. *)
Definition written (k : nat) (mk : nat -> Vertex) (d : RendererData) : RendererData :=
  set_num_of_vertices_in_batch
    (Nat.iter k (fun z => add32 z 1) (num_of_vertices_in_batch d))
    (set_vertices (vertices d ++ map mk (seq 0 k)) d).

Definition quad_vertex (translation : mat4) (col : vec4) (tex : float)
    (tex_coords : list vec2) (i : nat) (mat : Z) : Vertex :=
  {| position := xyz (mul_vec translation (QUAD_POSITIONS !!! i));
     color := col;
     texture_coordinates := tex_coords !!! i;
     texture_id := tex;
     material_id := F32.of_Z mat |}.

Definition triangle_vertex (translation : mat4) (col : vec4) (i : nat)
    (mat : Z) : Vertex :=
  {| position := xyz (mul_vec translation (TRIANGLE_POSITIONS !!! i));
     color := col;
     texture_coordinates := mk_vec2 F32.zero F32.zero;
     texture_id := F32.neg_one;
     material_id := F32.of_Z mat |}.

Definition cube_vertex (translation : mat4) (col : vec4) (tex : float)
    (tex_coords : list vec2) (i : nat) (mat : Z) : Vertex :=
  let p := CUBE_POSITIONS !!! i in
  {| position := xyz (mul_vec translation (mk_vec4 (x3 p) (y3 p) (z3 p) F32.one));
     color := col;
     texture_coordinates := tex_coords !!! (i mod 4)%nat;
     texture_id := tex;
     material_id := F32.of_Z mat |}.

(** The four vertices of a glyph quad. *)
Definition glyph_vertex (pos : list vec4) (coords : list vec2) (col : vec4)
    (tex : float) (i : nat) (mat : Z) : Vertex :=
  {| position := xyz (pos !!! i);
     color := col;
     texture_coordinates := coords !!! i;
     texture_id := tex;
     material_id := F32.of_Z mat |}.

(** The state in which [RenderGlyph] starts to write its vertices. *)
Definition glyph_ready (font : Font) (w : World) : float * World :=
  CalculateTextureIndex_texture (font_texture font)
    (on_data CalculateSquareIndices (check_capacity QUAD_VERTEX_COUNT w)).

(** The corner positions and texture coordinates [RenderGlyph] computes
    for character [c] with the pen at [x]. *)
Definition glyph_positions (font : Font) (y : float) (scl : vec2) (c : ascii)
    (x : float) : list vec4 :=
  let character := glyphs font c in
  let xpos := (x + F32.of_Z (glyph_bearing_x character) * x2 scl)%f32 in
  let ypos :=
    (y - F32.of_Z (glyph_size_y character - glyph_bearing_y character)
         * y2 scl)%f32 in
  let gw := (F32.of_Z (glyph_size_x character) * x2 scl)%f32 in
  let gh := (F32.of_Z (glyph_size_y character) * y2 scl)%f32 in
  [ mk_vec4 xpos ypos F32.zero F32.one;
    mk_vec4 (xpos + gw)%f32 ypos F32.zero F32.one;
    mk_vec4 (xpos + gw)%f32 (ypos + gh)%f32 F32.zero F32.one;
    mk_vec4 xpos (ypos + gh)%f32 F32.zero F32.one ].

Definition glyph_coords (font : Font) (c : ascii) : list vec2 :=
  let character := glyphs font c in
  let normalized_width :=
    (x2 (CalculateSpriteCoordinate
           (mk_vec2 (F32.of_Z (glyph_size_x character)) F32.zero)
           (font_width font) (font_height font))
     - F32.lit_0_00002 * F32.of_Z (font_size font))%f32 in
  let clean := (F32.lit_0_00001 * F32.of_Z (font_size font))%f32 in
  let off := glyph_offset character in
  [ mk_vec2 (off + clean)%f32 F32.one;
    mk_vec2 (off + normalized_width + clean)%f32 F32.one;
    mk_vec2 (off + normalized_width + clean)%f32 F32.zero;
    mk_vec2 (off + clean)%f32 F32.zero ].

Definition glyph_next_x (font : Font) (scl : vec2) (c : ascii) (x : float)
  : float :=
  (x + F32.of_Z (Z.shiftr (glyph_advance_x (glyphs font c)) 6) * x2 scl)%f32.

(** The states in which the quad, triangle and cube emitters start to write
    their vertices (for a glyph it is [glyph_ready] above). *)
Definition quad_ready (w : World) : World :=
  on_data CalculateSquareIndices (check_capacity QUAD_VERTEX_COUNT w).

Definition triangle_ready (w : World) : World :=
  on_data CalculateTriangleIndices (check_capacity QUAD_VERTEX_COUNT w).

Definition cube_ready (w : World) : World :=
  for_loop CUBE_FACES (fun _ w => on_data CalculateSquareIndices w)
    (check_capacity CUBE_VERTEX_COUNT w).

(** What the vertex loop of an emitter and the statement after it do: [k]
    vertices are written, all stamped with the current material id, and
    [n] is added to the size of the current draw command. *)
Definition emit (k : nat) (n : Z) (mk : nat -> Z -> Vertex) (w : World) : World :=
  on_data (fun d =>
    add_to_command_size n
      (written k (fun i => mk i (current_material_id d)) d)) w.

Definition pos_10_20_0 : vec3 := mk_vec3 (F32.of_Z 10) (F32.of_Z 20) F32.zero.

Definition size_4_6 : vec2 := mk_vec2 (F32.of_Z 4) (F32.of_Z 6).

(** The model matrix [DrawRotatedQuad] builds for a plain-colour quad, and
    the one it builds for a textured quad under the flags [fl]. *)
Definition rotated_model_color (pos : vec3) (rotation : float) (axis : vec3)
    (size : vec2) : mat4 :=
  mul (mul (translate identity (mk_vec3 (x3 pos) (y3 pos) F32.zero))
           (rotate cosf sinf identity (radians rotation) axis))
      (scale identity (mk_vec3 (x2 size) (y2 size) F32.one)).

Definition rotated_model_texture (fl : Z) (pos : vec3) (rotation : float)
    (axis : vec3) (size : vec2) : mat4 :=
  rotate cosf sinf (GetModelMatrix fl pos size) (radians rotation) axis.

(** The limit leaves room for the largest primitive, and the 32-bit sum of
    the capacity test cannot wrap. *)
Definition header_ok : Prop :=
  CUBE_VERTEX_COUNT <= MAX_VERTEX_COUNT
  /\ MAX_VERTEX_COUNT + CUBE_VERTEX_COUNT < U32.

Definition within_capacity (w : World) : Prop :=
  0 <= num_of_vertices_in_batch (data w) <= MAX_VERTEX_COUNT.

(** [(float)0xFFFFFFFF]: the 32-bit pattern of [-1], converted to binary32,
    rounds to [2^32 = 4294967296.0f]. *)
Definition unset_material_stamp : float := S754_finite false 8388608 9.

Definition sets_material (c : Call) : bool :=
  match c with
  | CSetMaterialId _ => true
  | _ => false
  end.

Definition stamped_unset (v : Vertex) : Prop :=
  material_id v = unset_material_stamp.

(** No material is active, and every vertex staged, or uploaded by a draw
    call after the first [n0] ones, carries the stamp. *)
Definition unset_everywhere (n0 : nat) (w : World) : Prop :=
  current_material_id (data w) = wrap32 (-1)
  /\ Forall stamped_unset (vertices (data w))
  /\ Forall (fun c => Forall stamped_unset (call_vertex_data c))
       (drop n0 (draw_calls (gl w)))
  /\ (n0 <= length (draw_calls (gl w)))%nat.

(** The scan of the slot table at the head of [CalculateTextureIndex]. *)
Definition scan_slots (id : Z) (d : RendererData) : float :=
  for_loop (texture_slot_index d)
    (fun i t => if (textures d !!! i) =? id then F32.of_Z (Z.of_nat i) else t)
    F32.neg_one.

(** The handle is in the occupied part of the table. *)
Definition has_slot (id : Z) (d : RendererData) : bool :=
  negb (F32.eqb (scan_slots id d) F32.neg_one).

(** The table can take one more handle without becoming full. *)
Definition room_for_one (d : RendererData) : Prop :=
  0 <= texture_slot_index d
  /\ texture_slot_index d + 1 < MAX_TEXTURE_SLOTS
  /\ MAX_TEXTURE_SLOTS <= U32
  /\ (Z.to_nat (texture_slot_index d) < length (textures d))%nat.

(** The request cannot end the batch: the handle has a slot already, or the
    table has room for it. *)
Definition stays_in_batch (id : Z) (d : RendererData) : Prop :=
  has_slot id d = true \/ room_for_one d.

(** [K] requests for the same handle, one after the other: the slots
    returned, and the final state. *)
Definition allocate_repeatedly (K : nat) (id : Z) (w : World)
  : list float * World :=
  Nat.iter K
    (fun '(slots, w) =>
       let '(t, w') := CalculateTextureIndex id w in (slots ++ [t], w'))
    ([], w).

(** Textured quads drawn one after the other with the same handle. *)
Definition draw_textured (id : Z) (quads : list (vec3 * vec2 * vec4))
    (w : World) : World :=
  fold_left (fun w '(pos, size, col) => DrawQuad_texture_id pos size id col w)
    quads w.

(** The updates of the renderer data that the calls of a scene are made
    of, besides [NewBatch]. *)
Inductive data_step : (RendererData -> RendererData) -> Prop :=
| step_square_indices : data_step CalculateSquareIndices
| step_triangle_indices : data_step CalculateTriangleIndices
| step_emit k n mk :
    data_step (fun d =>
      add_to_command_size n
        (written k (fun i => mk i (current_material_id d)) d))
| step_slot id :
    data_step (fun d =>
      set_texture_slot_index (add32 (texture_slot_index d) 1)
        (set_textures (<[Z.to_nat (texture_slot_index d) := id]> (textures d))
           d))
| step_shader shader : data_step (set_current_shader shader)
| step_default_shader :
    data_step (fun d => set_current_shader (default_shader d) d)
| step_material id : data_step (set_current_material_id id).

(** The command count is 0, the table is [table], and every draw call
    after the first [n0] submitted one descriptor and uploaded [table]. *)
Definition commands_untouched (n0 : nat) (table : list DrawElementsCommand)
    (w : World) : Prop :=
  draw_count (data w) = 0
  /\ draw_commands (data w) = table
  /\ (n0 <= length (draw_calls (gl w)))%nat
  /\ Forall (fun c => call_count c = 1 /\ call_commands c = table)
       (drop n0 (draw_calls (gl w))).

(** The state [CalculateTextureIndex] flushes when the handle it appended
    filled the table. *)
Definition appended (id : Z) (w : World) : World :=
  on_data (fun d =>
    set_texture_slot_index (add32 (texture_slot_index d) 1)
      (set_textures (<[Z.to_nat (texture_slot_index d) := id]> (textures d)) d))
    w.

(** Number of indices the descriptors executed by a draw call cover. *)
Definition indices_drawn (c : DrawCall) : Z :=
  fold_left (fun n cmd => n + (if instance_count cmd =? 0 then 0 else vertex_count cmd))
    (take (Z.to_nat (call_count c)) (call_commands c)) 0.

End Vocabulary.

(** * Vocabulary of the batch properties

    What a scene uploads, and the invariants its calls keep. *)

Section Batches.
Context `{RendererH} `{Collaborators}.

Definition is_text (c : Call) : bool :=
  match c with
  | CRenderText _ _ _ _ _ => true
  | _ => false
  end.

Definition sets_shader (c : Call) : bool :=
  match c with
  | CSetShader _ => true
  | _ => false
  end.

(** Number of vertices a call emits. *)
Definition vertices_of (c : Call) : nat :=
  match c with
  | CDrawTriangle _ _ _ | CDrawTriangle_rotated _ _ _ _ _ => 3
  | CDrawCube_mat _ _ _ _ | CDrawCube_color _ _ _
  | CDrawCube_texture _ _ _ _ => 24
  | CRenderText _ text _ _ _ => 4 * String.length text
  | CSetShader _ | CSetShaderToDefualt | CSetMaterialId _ => 0
  | _ => 4
  end.

(** The draw calls issued after the first [n0] ones, the vertices they
    uploaded, in order, and those followed by the vertices still staged. *)
Definition calls_since (n0 : nat) (w : World) : list DrawCall :=
  drop n0 (draw_calls (gl w)).

Definition uploaded_vertices (n0 : nat) (w : World) : list Vertex :=
  concat (map call_vertex_data (calls_since n0 w)).

Definition vertex_stream (n0 : nat) (w : World) : list Vertex :=
  uploaded_vertices n0 w ++ vertices (data w).

(** From [w] to [w'] the stream grew by [k] vertices at its end. *)
Definition extends (n0 k : nat) (w w' : World) : Prop :=
  (n0 <= length (draw_calls (gl w')))%nat
  /\ exists vs, vertex_stream n0 w' = vertex_stream n0 w ++ vs /\ length vs = k.

(** The calls that emit quads, triangles or cubes: all but [RenderText] and
    the three setters. *)
Definition is_draw (c : Call) : bool :=
  match c with
  | CRenderText _ _ _ _ _ | CSetShader _ | CSetShaderToDefualt
  | CSetMaterialId _ => false
  | _ => true
  end.

(** A vertex constructor that stamps the material id it is given, converted
    to [float], as every emitter does. *)
Definition stamps (mk : nat -> Z -> Vertex) : Prop :=
  forall i m, material_id (mk i m) = F32.of_Z m.

(** The polygon mode in force for the flushes of a scene begun with flags
    [fl] from state [w0]: line mode if the flags ask for it, or if it was
    on already. *)
Definition line_mode_of (fl : Z) (w0 : World) : bool :=
  polygon_mode_line (gl w0) || negb (Z.land fl RenderFlags_PolygonMode =? 0).

Definition polygon_inv (fl : Z) (w0 : World) (w : World) : Prop :=
  flags (data w) = fl
  /\ (length (draw_calls (gl w0)) <= length (draw_calls (gl w)))%nat
  /\ Forall (fun c => call_polygon_line c = line_mode_of fl w0)
       (calls_since (length (draw_calls (gl w0))) w)
  /\ (polygon_mode_line (gl w) = line_mode_of fl w0
      \/ polygon_mode_line (gl w) = polygon_mode_line (gl w0)).

(** The calls that can change the current shader. *)
Definition changes_shader (c : Call) : bool :=
  match c with
  | CSetShader _ | CSetShaderToDefualt => true
  | _ => false
  end.

(** The calls that leave [s] the current shader when [s0] is the default
    one. *)
Definition keeps_shader (s s0 : Z) (c : Call) : bool :=
  match c with
  | CSetShader _ => false
  | CSetShaderToDefualt => s =? s0
  | _ => true
  end.

(** Shader [s] is current, [s0] is the default one, and every draw call
    after the first [n0] bound [s]. *)
Definition shader_inv (s s0 : Z) (n0 : nat) (w : World) : Prop :=
  current_shader (data w) = s
  /\ default_shader (data w) = s0
  /\ (n0 <= length (draw_calls (gl w)))%nat
  /\ Forall (fun c => call_shader c = s) (calls_since n0 w).

Definition stamped (m : Z) (v : Vertex) : Prop := material_id v = F32.of_Z m.

(** Material [m] is active, and the vertex stream is [base] followed by
    vertices stamped with [m]. *)
Definition material_inv (m : Z) (n0 : nat) (base : list Vertex) (w : World)
  : Prop :=
  current_material_id (data w) = m
  /\ (n0 <= length (draw_calls (gl w)))%nat
  /\ exists vs, vertex_stream n0 w = base ++ vs /\ Forall (stamped m) vs.

(** The slot table is sound: the next free slot lies inside the table, the
    table has its declared size, and no handle occupies two slots. *)
Definition table_ok (w : World) : Prop :=
  0 <= texture_slot_index (data w) < MAX_TEXTURE_SLOTS
  /\ length (textures (data w)) = Z.to_nat MAX_TEXTURE_SLOTS
  /\ NoDup (take (Z.to_nat (texture_slot_index (data w))) (textures (data w))).

(** The [memset] of [StartBatch], called in state [d], ends inside the slot
    table: the [texture_slot_index * sizeof(Texture)] bytes it clears are no
    more than the bytes of [textures], an array of 32-bit handles. *)
Definition memset_within (d : RendererData) : Prop :=
  texture_slot_index d * sizeof_Texture <= 4 * Z.of_nat (length (textures d)).

(** What a request for a slot may answer in state [w]: the index [i] of a
    slot of the table, not beyond the next free one. *)
Definition slot_answer (w : World) (t : float) (i : Z) : Prop :=
  0 <= i < MAX_TEXTURE_SLOTS
  /\ i <= texture_slot_index (data w)
  /\ t = F32.of_Z i.

(** What unit [i] is bound to after the flush of the batch [d], given what
    it was bound to before: the handle in slot [i] if that slot is occupied
    by a non-zero handle, the earlier binding otherwise. *)
Definition bound_after (d : RendererData) (units : list Z) (i : nat) : Z :=
  if (Z.of_nat i <? texture_slot_index d) && negb (textures d !!! i =? 0)
  then textures d !!! i
  else units !!! i.

(** The staging arrays are consistent with the counters: the vertex count
    is within the limit and equals the number of vertices staged, there are
    at most three indices for every two vertices, and every draw call after
    the first [n0] uploaded no more than a full batch. *)
Definition staged_ok (n0 : nat) (w : World) : Prop :=
  within_capacity w
  /\ Z.of_nat (length (vertices (data w))) = num_of_vertices_in_batch (data w)
  /\ (2 * length (indices (data w)) <= 3 * length (vertices (data w)))%nat
  /\ (n0 <= length (draw_calls (gl w)))%nat
  /\ Forall (fun c =>
               Z.of_nat (length (call_vertex_data c)) <= MAX_VERTEX_COUNT
               /\ 2 * Z.of_nat (length (call_index_data c))
                  <= 3 * MAX_VERTEX_COUNT)
       (calls_since n0 w).

(** An update of the renderer data that appends [j] indices and leaves the
    staged vertices and their count alone. *)
Definition adds_indices (j : nat) (f : RendererData -> RendererData) : Prop :=
  forall d,
    vertices (f d) = vertices d
    /\ num_of_vertices_in_batch (f d) = num_of_vertices_in_batch d
    /\ length (indices (f d)) = (length (indices d) + j)%nat.

(** The index array is large enough for the indices of a full batch of
    vertices. *)
Definition index_room : Prop :=
  3 * MAX_VERTEX_COUNT <= 2 * MAX_INDEX_COUNT /\ MAX_INDEX_COUNT < U32.

(** An index generator: while the running offset does not wrap it advances
    the offset by [k], appends [j] indices, all between the old offset and
    the new one, and changes nothing else of what is staged. *)
Definition generates (j : nat) (k : Z) (f : RendererData -> RendererData)
  : Prop :=
  forall d, 0 <= index_offset d -> index_offset d + k < U32 ->
    index_offset (f d) = index_offset d + k
    /\ (exists l,
          indices (f d) = indices d ++ l
          /\ length l = j
          /\ Forall (fun i => index_offset d <= i < index_offset d + k) l)
    /\ vertices (f d) = vertices d
    /\ num_of_vertices_in_batch (f d) = num_of_vertices_in_batch d
    /\ current_draw_command_vertex_size (f d)
       = current_draw_command_vertex_size d
    /\ base_vert (f d) = base_vert d.

(** Every index refers to one of the [n] vertices it comes with. *)
Definition indices_within (n : Z) (l : list Z) : Prop :=
  Forall (fun i => 0 <= i < n) l.

(** Indices and vertices are aligned: the running index offset is the vertex
    count, every index staged refers to a vertex staged, the size of the
    current draw command is the number of indices staged, the base vertex
    is 0, and every draw call after the first [n0] uploaded indices that
    refer to the vertices it uploaded. *)
Definition aligned (n0 : nat) (w : World) : Prop :=
  staged_ok n0 w
  /\ index_offset (data w) = num_of_vertices_in_batch (data w)
  /\ indices_within (num_of_vertices_in_batch (data w)) (indices (data w))
  /\ current_draw_command_vertex_size (data w)
     = Z.of_nat (length (indices (data w)))
  /\ base_vert (data w) = 0
  /\ Forall (fun c =>
               indices_within (Z.of_nat (length (call_vertex_data c)))
                 (call_index_data c))
       (calls_since n0 w).

(** The descriptor [MakeCommand] writes at the end of a scene whose last
    batch holds [n] indices. *)
Definition final_command (n : nat) : DrawElementsCommand :=
  {| vertex_count := Z.of_nat n;
     instance_count := 1;
     first_index := 0;
     base_vertex := 0;
     base_instance := 0 |}.

(** Where the pen stands after the glyphs of [text], starting at [x]. *)
Definition pen_after (font : Font) (scl : vec2) (text : string) (x : float)
  : float :=
  fold_left (fun x c => glyph_next_x font scl c x) (list_ascii_of_string text) x.

(** The indices of the six faces of a cube whose first vertex has index
    [o]: each face is a quad on its own four vertices. *)
Definition cube_indices (o : Z) : list Z :=
  flat_map (fun face => map (Z.add (o + 4 * Z.of_nat face)) [0; 1; 2; 2; 3; 0])
    (seq 0 6).

(** The projection-view matrix [M] is the one in use, and every draw call
    after the first [n0] uploaded it. *)
Definition proj_view_inv (M : mat4) (n0 : nat) (w : World) : Prop :=
  proj_view (data w) = M
  /\ (n0 <= length (draw_calls (gl w)))%nat
  /\ Forall (fun c => call_proj_view c = M) (calls_since n0 w).

(** What the texture index of a vertex stands for: the value the caller
    passed, or the slot of a texture handle. *)
Inductive Expect :=
| as_given (tex : float)
| as_texture (id : Z).

Definition expect_of (c : Call) : Expect :=
  match c with
  | CDrawQuad_mat _ _ tex _ | CDrawCube_mat _ _ tex _ => as_given tex
  | CDrawQuad_texture _ _ t _ | CDrawQuad_texture_coords _ _ t _ _
  | CDrawRotatedQuad_texture _ _ _ _ t _
  | CDrawRotatedQuad_coords_texture _ _ _ _ _ t _
  | CDrawCube_texture _ _ t _ => as_texture (GetTextureId t)
  | CDrawQuad_texture_id _ _ id _ => as_texture id
  | CRenderText font _ _ _ _ => as_texture (GetTextureId (font_texture font))
  | _ => as_given F32.neg_one
  end.

(** The call asks for no texture slot: it draws untextured, or with the
    texture index it is given. *)
Definition asks_no_slot (c : Call) : bool :=
  match expect_of c with
  | as_given _ => true
  | as_texture _ => false
  end.

(** No restart of a batch during the calls [cs] can make [StartBatch]
    clear more than the slot table: a [Texture] object has at most four
    bytes, so that even a full table is cleared within its bounds, or no
    call asks for a slot, so that none is occupied when a batch restarts. *)
Definition restarts_within (cs : list Call) : Prop :=
  sizeof_Texture <= 4 \/ Forall (fun c => asks_no_slot c = true) cs.

(** One expectation for every vertex the call emits. *)
Definition expected (c : Call) : list Expect :=
  replicate (vertices_of c) (expect_of c).

(** Handle 0 is never bound by a flush. *)
Definition bindable (e : Expect) : Prop :=
  match e with
  | as_texture id => id <> 0
  | as_given _ => True
  end.

(** The texture index [tex] meets the expectation in batch [d]: it is the
    value given, or the index of an occupied slot that holds the handle. *)
Definition slotted (d : RendererData) (e : Expect) (tex : float) : Prop :=
  match e with
  | as_given t => tex = t
  | as_texture id =>
      id <> 0
      /\ exists i : nat,
           Z.of_nat i < texture_slot_index d
           /\ tex = F32.of_Z (Z.of_nat i)
           /\ textures d !!! i = id
  end.

(** The vertex is drawn as expected under the unit bindings [units]: its
    texture index is the value given, or the number of a unit bound to the
    handle. *)
Definition drawn_with (units : list Z) (v : Vertex) (e : Expect) : Prop :=
  match e with
  | as_given t => texture_id v = t
  | as_texture id =>
      exists i : nat,
        texture_id v = F32.of_Z (Z.of_nat i) /\ units !!! i = id
  end.

(** The batch has not been flushed since the OpenGL state was [g0], its
    slot table is sound, and the staged vertices meet the expectations
    [es], one by one. *)
Definition one_batch (g0 : GLState) (es : list Expect) (w : World) : Prop :=
  gl w = g0
  /\ table_ok w
  /\ Forall2 (fun v e => slotted (data w) e (texture_id v))
       (vertices (data w)) es.

(** Nothing was flushed on the way from [w] to [w'], or a draw call was
    added. *)
Definition same_or_flushed (w w' : World) : Prop :=
  gl w' = gl w
  \/ (length (draw_calls (gl w)) < length (draw_calls (gl w')))%nat.

End Batches.

(** * Properties *)

(** Simplification of projections applied to field updates, and nothing else. *)
Ltac proj :=
  lazy beta iota zeta delta [data gl on_data
       current_shader default_shader index_offset texture_slot_index textures
       proj_view camera num_of_vertices_in_batch draw_commands base_vert
       draw_count current_draw_command_vertex_size vertices indices
       current_material_id flags
       set_current_shader set_index_offset set_texture_slot_index set_textures
       set_proj_view set_camera set_num_of_vertices_in_batch set_draw_commands
       set_base_vert set_draw_count set_current_draw_command_vertex_size
       set_vertices set_indices set_current_material_id set_flags
       polygon_mode_line texture_units draw_calls] in *.

Lemma data_on_data f w : data (on_data f w) = f (data w).
Proof. reflexivity. Qed.

Lemma gl_on_data f w : gl (on_data f w) = gl w.
Proof. reflexivity. Qed.

Lemma add32_small a b : 0 <= a + b < U32 -> add32 a b = a + b.
Proof. intros Hr. unfold add32, wrap32. apply Z.mod_small. exact Hr. Qed.

Lemma for_loop_0 {S : Type} (body : nat -> S -> S) (s : S) :
  for_loop 0 body s = s.
Proof. reflexivity. Qed.

Lemma for_loop_succ {S : Type} (k : nat) (body : nat -> S -> S) (s : S) :
  for_loop (Z.of_nat (Datatypes.S k)) body s
  = body k (for_loop (Z.of_nat k) body s).
Proof.
  unfold for_loop. rewrite !Nat2Z.id.
  rewrite seq_S, fold_left_app. reflexivity.
Qed.

(** ** Normal forms of the emitters

    Every emitter is: an optional flush, then an update of the renderer data
    that appends indices and vertices. *)

Section NormalForms.
Context `{RendererH} `{Collaborators}.

Lemma write_loop (k : nat) (mk : nat -> Z -> Vertex) (w : World) :
  for_loop (Z.of_nat k)
    (fun i w => on_data (write_vertex (mk i (current_material_id (data w)))) w) w
  = on_data (written k (fun i => mk i (current_material_id (data w)))) w.
Proof.
  induction k as [|k IH].
  - rewrite for_loop_0. destruct w as [d g]. destruct d.
    unfold on_data, written. proj. cbn [Nat.iter seq map].
    rewrite app_nil_r. reflexivity.
  - rewrite for_loop_succ, IH.
    unfold on_data, written, write_vertex. proj.
    rewrite seq_S, map_app, app_assoc. reflexivity.
Qed.

Lemma check_capacity_cases (count : Z) (w : World) :
  (add32 (num_of_vertices_in_batch (data w)) count <= MAX_VERTEX_COUNT
   /\ check_capacity count w = w)
  \/ (MAX_VERTEX_COUNT < add32 (num_of_vertices_in_batch (data w)) count
      /\ check_capacity count w = NewBatch w).
Proof.
  unfold check_capacity.
  destruct (Z.gtb_spec (add32 (num_of_vertices_in_batch (data w)) count)
              MAX_VERTEX_COUNT) as [Hgt|Hle].
  - right. split; [lia | reflexivity].
  - left. split; [lia | reflexivity].
Qed.

Lemma DrawQuad_mat_eq translation col tex tc w :
  DrawQuad_mat translation col tex tc w
  = on_data (fun d =>
      add_to_command_size 6
        (written 4 (fun i => quad_vertex translation col tex tc i
                               (current_material_id d))
           (CalculateSquareIndices d)))
      (check_capacity QUAD_VERTEX_COUNT w).
Proof.
  unfold DrawQuad_mat.
  change QUAD_VERTEX_COUNT with (Z.of_nat 4).
  exact (f_equal (on_data (add_to_command_size 6))
           (write_loop 4 (quad_vertex translation col tex tc)
              (on_data CalculateSquareIndices
                 (check_capacity (Z.of_nat 4) w)))).
Qed.

Lemma triangle_body_eq translation col w :
  triangle_body translation col w
  = on_data (fun d =>
      add_to_command_size 3
        (written 3 (fun i => triangle_vertex translation col i
                               (current_material_id d)) d)) w.
Proof.
  unfold triangle_body.
  change TRIANGLE_VERTEX_COUNT with (Z.of_nat 3).
  exact (f_equal (on_data (add_to_command_size 3))
           (write_loop 3 (triangle_vertex translation col) w)).
Qed.

Lemma DrawCube_mat_eq translation col tex tc w :
  DrawCube_mat translation col tex tc w
  = on_data (fun d =>
      add_to_command_size 36
        (written 24 (fun i => cube_vertex translation col tex tc i
                                (current_material_id d))
           (Nat.iter 6 CalculateSquareIndices d)))
      (check_capacity CUBE_VERTEX_COUNT w).
Proof.
  unfold DrawCube_mat.
  change CUBE_VERTEX_COUNT with (Z.of_nat 24).
  exact (f_equal (on_data (add_to_command_size 36))
           (write_loop 24 (cube_vertex translation col tex tc)
              (for_loop CUBE_FACES
                 (fun _ w => on_data CalculateSquareIndices w)
                 (check_capacity (Z.of_nat 24) w)))).
Qed.

Lemma RenderGlyph_eq font y scl col c x w :
  RenderGlyph font y scl col c (x, w)
  = (glyph_next_x font scl c x,
     on_data (fun d =>
       add_to_command_size 6
         (written 4 (fun i => glyph_vertex (glyph_positions font y scl c x)
                                (glyph_coords font c) col
                                (fst (glyph_ready font w)) i
                                (current_material_id d)) d))
       (snd (glyph_ready font w))).
Proof.
  unfold RenderGlyph, glyph_ready.
  destruct (CalculateTextureIndex_texture (font_texture font)
              (on_data CalculateSquareIndices
                 (check_capacity QUAD_VERTEX_COUNT w))) as [tex w1].
  cbn [fst snd]. unfold glyph_next_x. f_equal.
  change (on_data (fun d : RendererData =>
            add_to_command_size 6
              (written 4 (fun i => glyph_vertex (glyph_positions font y scl c x)
                                     (glyph_coords font c) col tex i
                                     (current_material_id d)) d)) w1)
    with (on_data (add_to_command_size 6)
            (on_data (written 4
               (fun i => glyph_vertex (glyph_positions font y scl c x)
                           (glyph_coords font c) col tex i
                           (current_material_id (data w1)))) w1)).
  f_equal.
  exact (write_loop 4 (glyph_vertex (glyph_positions font y scl c x)
                         (glyph_coords font c) col tex) w1).
Qed.

Lemma DrawQuad_mat_emit translation col tex tc w :
  DrawQuad_mat translation col tex tc w
  = emit 4 6 (quad_vertex translation col tex tc) (quad_ready w).
Proof. rewrite DrawQuad_mat_eq. reflexivity. Qed.

Lemma DrawCube_mat_emit translation col tex tc w :
  DrawCube_mat translation col tex tc w
  = emit 24 36 (cube_vertex translation col tex tc) (cube_ready w).
Proof. rewrite DrawCube_mat_eq. reflexivity. Qed.

Lemma DrawTriangle_emit pos size col w :
  DrawTriangle pos size col w
  = emit 3 3 (triangle_vertex (GetModelMatrix (flags (data w)) pos size) col)
      (triangle_ready w).
Proof.
  unfold DrawTriangle. rewrite triangle_body_eq. unfold emit, triangle_ready.
  unfold check_capacity.
  destruct (add32 (num_of_vertices_in_batch (data w)) QUAD_VERTEX_COUNT
            >? MAX_VERTEX_COUNT); reflexivity.
Qed.

Lemma DrawTriangle_rotated_emit pos rot axis size col w :
  DrawTriangle_rotated pos rot axis size col w
  = emit 3 3
      (triangle_vertex
         (rotate cosf sinf (GetModelMatrix (flags (data w)) pos size)
            (radians rot) axis) col)
      (triangle_ready w).
Proof.
  unfold DrawTriangle_rotated. rewrite triangle_body_eq. reflexivity.
Qed.

Lemma RenderGlyph_emit font y scl col c x w :
  RenderGlyph font y scl col c (x, w)
  = (glyph_next_x font scl c x,
     emit 4 6 (glyph_vertex (glyph_positions font y scl c x)
                 (glyph_coords font c) col (fst (glyph_ready font w)))
       (snd (glyph_ready font w))).
Proof. rewrite RenderGlyph_eq. reflexivity. Qed.

End NormalForms.

(** ** Quads and their indices *)

Section QuadIndices.
Context `{RendererH} `{Collaborators}.

Lemma CalculateSquareIndices_spec d :
  0 <= index_offset d -> index_offset d + 4 < U32 ->
  indices (CalculateSquareIndices d)
    = indices d ++ map (Z.add (index_offset d)) [0; 1; 2; 2; 3; 0]
  /\ index_offset (CalculateSquareIndices d) = index_offset d + 4.
Proof.
  intros Hlo Hhi. unfold CalculateSquareIndices, push_index. proj.
  rewrite !add32_small by lia.
  rewrite <- !app_assoc. cbn [map app].
  rewrite Z.add_0_r, !(Z.add_comm (index_offset d)).
  split; [reflexivity | lia].
Qed.

(** C6.  A quad appends exactly the six indices [0,1,2,2,3,0], each offset
    by the running index offset of the batch it is emitted into, and the
    running offset then advances by four.  This holds for the index
    generator every quad-shaped emitter calls, and for [DrawQuad], whose
    batch is the one at hand after the capacity test (the current one, or
    the fresh one if the test flushed).  The offset is a 32-bit counter
    below [2^32 - 4]. *)
Theorem C6_quad_indices d :
  0 <= index_offset d -> index_offset d + 4 < U32 ->
  let appended_indices := map (Z.add (index_offset d)) [0; 1; 2; 2; 3; 0] in
  (indices (CalculateSquareIndices d) = indices d ++ appended_indices
   /\ index_offset (CalculateSquareIndices d) = index_offset d + 4)
  /\ (forall translation col tex tc w,
        data (check_capacity QUAD_VERTEX_COUNT w) = d ->
        indices (data (DrawQuad_mat translation col tex tc w))
          = indices d ++ appended_indices
        /\ length (indices (data (DrawQuad_mat translation col tex tc w)))
           = (length (indices d) + 6)%nat
        /\ index_offset (data (DrawQuad_mat translation col tex tc w))
           = index_offset d + 4).
Proof.
  intros Hlo Hhi appended_indices.
  destruct (CalculateSquareIndices_spec d Hlo Hhi) as [Hi Ho].
  split; [split; assumption|].
  intros translation col tex tc w Hd.
  rewrite DrawQuad_mat_eq.
  unfold add_to_command_size, written. rewrite data_on_data, Hd. proj.
  fold appended_indices in Hi.
  rewrite Hi, Ho. split; [reflexivity|]. split; [|reflexivity].
  rewrite length_app. reflexivity.
Qed.

End QuadIndices.

(** ** Triangles test the capacity a quad needs *)

Section Triangles.
Context `{RendererH} `{Collaborators}.

(** C9.  Both [DrawTriangle] variants test the batch against the four
    vertices of a quad, not against the three they append: with fewer than
    four free vertex slots the batch is flushed and restarted, also when
    exactly three are free and the triangle would fit; with four or more
    free slots nothing is flushed. *)
Theorem C9_triangle_capacity_check pos rot axis size col w :
  let n := num_of_vertices_in_batch (data w) in
  let after := DrawTriangle pos size col w in
  let after_rot := DrawTriangle_rotated pos rot axis size col w in
  0 <= n <= MAX_VERTEX_COUNT -> MAX_VERTEX_COUNT + 4 < U32 ->
  (MAX_VERTEX_COUNT - n < 4 ->
     gl after = gl (NewBatch w) /\ gl after_rot = gl (NewBatch w)
     /\ length (draw_calls (gl after)) = S (length (draw_calls (gl w)))
     /\ length (vertices (data after)) = 3%nat
     /\ length (vertices (data after_rot)) = 3%nat)
  /\ (4 <= MAX_VERTEX_COUNT - n ->
     gl after = gl w /\ gl after_rot = gl w
     /\ length (vertices (data after)) = (length (vertices (data w)) + 3)%nat
     /\ length (vertices (data after_rot))
        = (length (vertices (data w)) + 3)%nat).
Proof.
  intros n after after_rot Hn Hmax.
  assert (Hadd : add32 n QUAD_VERTEX_COUNT = n + 4).
  { apply add32_small. unfold QUAD_VERTEX_COUNT. lia. }
  subst after after_rot. unfold DrawTriangle, DrawTriangle_rotated.
  rewrite !triangle_body_eq.
  destruct (check_capacity_cases QUAD_VERTEX_COUNT w) as [[Hle ->]|[Hgt ->]];
    fold n in Hle || fold n in Hgt; rewrite Hadd in *.
  - split; [lia|]. intros _.
    unfold add_to_command_size, written, CalculateTriangleIndices, push_index.
    proj. rewrite !length_app. cbn [length map seq]. auto.
  - split; [|lia]. intros _.
    unfold add_to_command_size, written, CalculateTriangleIndices, push_index,
      NewBatch, StartBatch.
    proj. unfold Render. proj. rewrite length_app. cbn [length map seq app].
    repeat split; lia.
Qed.

End Triangles.

(** ** Model matrices and the origin convention *)

Section ModelMatrix.
Context `{RendererH} `{Collaborators}.

Lemma GetModelMatrix_10_20 fl :
  xyz (col3 (GetModelMatrix fl pos_10_20_0 size_4_6))
  = if Z.land fl RenderFlags_TopLeftCornerPos =? 0
    then mk_vec3 (F32.of_Z 10) (F32.of_Z 20) F32.zero
    else mk_vec3 (F32.of_Z 12) (F32.of_Z 23) F32.zero.
Proof.
  unfold GetModelMatrix.
  destruct (Z.land fl RenderFlags_TopLeftCornerPos =? 0); vm_compute; reflexivity.
Qed.

(** C7.  After [BeginScene camera flags], [DrawQuad] with position
    (10,20,0) and size (4,6) emits the quad under the model matrix
    [GetModelMatrix flags position size], whose translation is (10,20,0)
    when the top-left-corner bit of [flags] is clear (the centre
    convention) and (12,23,0) when it is set. *)
Theorem C7_quad_translation cam fl col w :
  let w1 := BeginScene cam fl w in
  let model := GetModelMatrix fl pos_10_20_0 size_4_6 in
  flags (data w1) = fl
  /\ DrawQuad_color pos_10_20_0 size_4_6 col w1
     = DrawQuad_mat model col F32.neg_one TEX_COORDS w1
  /\ xyz (col3 model)
     = if Z.land fl RenderFlags_TopLeftCornerPos =? 0
       then mk_vec3 (F32.of_Z 10) (F32.of_Z 20) F32.zero
       else mk_vec3 (F32.of_Z 12) (F32.of_Z 23) F32.zero.
Proof.
  intros w1 model. split; [reflexivity|]. split; [reflexivity|].
  apply GetModelMatrix_10_20.
Qed.

End ModelMatrix.

(** ** Rotated quads *)

Section RotatedQuads.
Context `{RendererH} `{Collaborators}.

Lemma DrawQuad_mat_set_flags translation col tex tc fl w :
  data (DrawQuad_mat translation col tex tc (on_data (set_flags fl) w))
  = set_flags fl (data (DrawQuad_mat translation col tex tc w)).
Proof.
  rewrite !DrawQuad_mat_eq. unfold check_capacity. proj.
  destruct (add32 (num_of_vertices_in_batch (data w)) QUAD_VERTEX_COUNT
            >? MAX_VERTEX_COUNT); reflexivity.
Qed.

(** C10.  The plain-colour [DrawRotatedQuad] translates by the given
    position with Z forced to 0 and never reads the flags: whatever the
    flags are, it emits the same vertices and indices.  The textured
    [DrawRotatedQuad] rotates [GetModelMatrix flags position size], so its
    translation column is the one the origin convention selects: for
    position (10,20,0) and size (4,6) it is (12,23,0) with the
    top-left-corner bit set and (10,20,0) with the bit clear. *)
Theorem C10_rotated_quad_origin pos rot axis size t col fl fl' w :
  DrawRotatedQuad_color pos rot axis size col w
    = DrawQuad_mat (rotated_model_color pos rot axis size) col F32.neg_one
        TEX_COORDS w
  /\ vertices (data (DrawRotatedQuad_color pos rot axis size col
                       (on_data (set_flags fl) w)))
     = vertices (data (DrawRotatedQuad_color pos rot axis size col
                         (on_data (set_flags fl') w)))
  /\ indices (data (DrawRotatedQuad_color pos rot axis size col
                      (on_data (set_flags fl) w)))
     = indices (data (DrawRotatedQuad_color pos rot axis size col
                        (on_data (set_flags fl') w)))
  /\ DrawRotatedQuad_texture pos rot axis size t col (on_data (set_flags fl) w)
     = (let '(tex, w1) :=
          CalculateTextureIndex_texture t (on_data (set_flags fl) w) in
        DrawQuad_mat (rotated_model_texture fl pos rot axis size) col tex
          TEX_COORDS w1)
  /\ col3 (rotated_model_texture fl pos rot axis size)
     = col3 (GetModelMatrix fl pos size)
  /\ xyz (col3 (rotated_model_texture fl pos_10_20_0 rot axis size_4_6))
     = if Z.land fl RenderFlags_TopLeftCornerPos =? 0
       then mk_vec3 (F32.of_Z 10) (F32.of_Z 20) F32.zero
       else mk_vec3 (F32.of_Z 12) (F32.of_Z 23) F32.zero.
Proof.
  split; [reflexivity|].
  unfold DrawRotatedQuad_color. rewrite !DrawQuad_mat_set_flags.
  split; [reflexivity|]. split; [reflexivity|]. split; [reflexivity|].
  split; [reflexivity|].
  change (col3 (rotated_model_texture fl pos_10_20_0 rot axis size_4_6))
    with (col3 (GetModelMatrix fl pos_10_20_0 size_4_6)).
  apply GetModelMatrix_10_20.
Qed.

End RotatedQuads.

(** ** Vertex capacity *)

Section Capacity.
Context `{RendererH} `{Collaborators}.

Lemma iter_add32 (k : nat) (n : Z) :
  0 <= n -> n + Z.of_nat k < U32 ->
  Nat.iter k (fun z => add32 z 1) n = n + Z.of_nat k.
Proof.
  induction k as [|k IH]; intros Hn Hk.
  - cbn [Nat.iter nat_rect]. lia.
  - rewrite Nat.iter_succ, IH by lia. rewrite add32_small by lia. lia.
Qed.

Lemma num_emit k n mk w :
  0 <= num_of_vertices_in_batch (data w) ->
  num_of_vertices_in_batch (data w) + Z.of_nat k < U32 ->
  num_of_vertices_in_batch (data (emit k n mk w))
  = num_of_vertices_in_batch (data w) + Z.of_nat k.
Proof.
  intros Hlo Hhi. unfold emit, add_to_command_size, written. proj.
  apply iter_add32; assumption.
Qed.

Lemma num_NewBatch w : num_of_vertices_in_batch (data (NewBatch w)) = 0.
Proof. reflexivity. Qed.

Lemma num_check_capacity k w :
  header_ok -> 0 <= k <= CUBE_VERTEX_COUNT -> within_capacity w ->
  0 <= num_of_vertices_in_batch (data (check_capacity k w))
  /\ num_of_vertices_in_batch (data (check_capacity k w)) + k
     <= MAX_VERTEX_COUNT.
Proof.
  intros [Hc Hm] Hk Hw. unfold within_capacity in Hw.
  destruct (check_capacity_cases k w) as [[Hle ->]|[Hgt ->]].
  - rewrite add32_small in Hle by lia. lia.
  - rewrite num_NewBatch. lia.
Qed.

Lemma num_CalculateTriangleIndices d :
  num_of_vertices_in_batch (CalculateTriangleIndices d)
  = num_of_vertices_in_batch d.
Proof. reflexivity. Qed.

Lemma num_CalculateTextureIndex id w :
  num_of_vertices_in_batch (data (snd (CalculateTextureIndex id w)))
    = num_of_vertices_in_batch (data w)
  \/ num_of_vertices_in_batch (data (snd (CalculateTextureIndex id w))) = 0.
Proof.
  unfold CalculateTextureIndex.
  destruct (F32.eqb _ F32.neg_one); [|left; reflexivity].
  proj.
  destruct (add32 (texture_slot_index (data w)) 1 =? MAX_TEXTURE_SLOTS);
    [right|left]; reflexivity.
Qed.

Lemma quad_ready_bound w :
  header_ok -> within_capacity w ->
  0 <= num_of_vertices_in_batch (data (quad_ready w))
  /\ num_of_vertices_in_batch (data (quad_ready w)) + QUAD_VERTEX_COUNT
     <= MAX_VERTEX_COUNT.
Proof.
  intros Hh Hw. unfold quad_ready.
  apply (num_check_capacity QUAD_VERTEX_COUNT w Hh); [|exact Hw].
  unfold QUAD_VERTEX_COUNT, CUBE_VERTEX_COUNT. lia.
Qed.

Lemma triangle_ready_bound w :
  header_ok -> within_capacity w ->
  0 <= num_of_vertices_in_batch (data (triangle_ready w))
  /\ num_of_vertices_in_batch (data (triangle_ready w)) + TRIANGLE_VERTEX_COUNT
     <= MAX_VERTEX_COUNT.
Proof.
  intros Hh Hw. unfold triangle_ready.
  destruct (num_check_capacity QUAD_VERTEX_COUNT w Hh) as [Hlo Hhi];
    [unfold QUAD_VERTEX_COUNT, CUBE_VERTEX_COUNT; lia | exact Hw |].
  proj. rewrite num_CalculateTriangleIndices.
  unfold QUAD_VERTEX_COUNT, TRIANGLE_VERTEX_COUNT in *. proj. lia.
Qed.

Lemma cube_ready_bound w :
  header_ok -> within_capacity w ->
  0 <= num_of_vertices_in_batch (data (cube_ready w))
  /\ num_of_vertices_in_batch (data (cube_ready w)) + CUBE_VERTEX_COUNT
     <= MAX_VERTEX_COUNT.
Proof.
  intros Hh Hw. unfold cube_ready.
  destruct (num_check_capacity CUBE_VERTEX_COUNT w Hh) as [Hlo Hhi];
    [unfold CUBE_VERTEX_COUNT; lia | exact Hw |].
  change (num_of_vertices_in_batch
            (data (for_loop CUBE_FACES
                     (fun _ w => on_data CalculateSquareIndices w)
                     (check_capacity CUBE_VERTEX_COUNT w))))
    with (num_of_vertices_in_batch (data (check_capacity CUBE_VERTEX_COUNT w))).
  lia.
Qed.

Lemma glyph_ready_bound font w :
  header_ok -> within_capacity w ->
  0 <= num_of_vertices_in_batch (data (snd (glyph_ready font w)))
  /\ num_of_vertices_in_batch (data (snd (glyph_ready font w)))
       + QUAD_VERTEX_COUNT <= MAX_VERTEX_COUNT.
Proof.
  intros Hh Hw. unfold glyph_ready, CalculateTextureIndex_texture.
  destruct (quad_ready_bound w Hh Hw) as [Hlo Hhi]. fold (quad_ready w).
  destruct (num_CalculateTextureIndex (GetTextureId (font_texture font))
              (quad_ready w)) as [-> | ->].
  - lia.
  - destruct Hh as [Hc Hm]. unfold QUAD_VERTEX_COUNT, CUBE_VERTEX_COUNT in *. lia.
Qed.

Lemma within_emit k n mk w :
  header_ok ->
  0 <= num_of_vertices_in_batch (data w) ->
  num_of_vertices_in_batch (data w) + Z.of_nat k <= MAX_VERTEX_COUNT ->
  within_capacity (emit k n mk w).
Proof.
  intros [Hc Hm] Hlo Hhi. unfold within_capacity.
  unfold CUBE_VERTEX_COUNT in *.
  rewrite num_emit by lia. lia.
Qed.

Lemma within_NewBatch w : header_ok -> within_capacity (NewBatch w).
Proof.
  intros [Hc Hm]. unfold within_capacity. rewrite num_NewBatch.
  unfold CUBE_VERTEX_COUNT in *. lia.
Qed.

Lemma within_CalculateTextureIndex id w :
  header_ok -> within_capacity w ->
  within_capacity (snd (CalculateTextureIndex id w)).
Proof.
  intros [Hc Hm] Hw. unfold within_capacity in *.
  unfold CUBE_VERTEX_COUNT in *.
  destruct (num_CalculateTextureIndex id w) as [-> | ->]; lia.
Qed.

Lemma within_DrawQuad_mat translation col tex tc w :
  header_ok -> within_capacity w ->
  within_capacity (DrawQuad_mat translation col tex tc w).
Proof.
  intros Hh Hw. rewrite DrawQuad_mat_emit.
  destruct (quad_ready_bound w Hh Hw) as [Hlo Hhi].
  apply within_emit; [exact Hh | exact Hlo | exact Hhi].
Qed.

Lemma within_DrawCube_mat translation col tex tc w :
  header_ok -> within_capacity w ->
  within_capacity (DrawCube_mat translation col tex tc w).
Proof.
  intros Hh Hw. rewrite DrawCube_mat_emit.
  destruct (cube_ready_bound w Hh Hw) as [Hlo Hhi].
  apply within_emit; [exact Hh | exact Hlo | exact Hhi].
Qed.

Lemma within_DrawTriangle pos size col w :
  header_ok -> within_capacity w ->
  within_capacity (DrawTriangle pos size col w).
Proof.
  intros Hh Hw. rewrite DrawTriangle_emit.
  destruct (triangle_ready_bound w Hh Hw) as [Hlo Hhi].
  apply within_emit; [exact Hh | exact Hlo | exact Hhi].
Qed.

Lemma within_DrawTriangle_rotated pos rot axis size col w :
  header_ok -> within_capacity w ->
  within_capacity (DrawTriangle_rotated pos rot axis size col w).
Proof.
  intros Hh Hw. rewrite DrawTriangle_rotated_emit.
  destruct (triangle_ready_bound w Hh Hw) as [Hlo Hhi].
  apply within_emit; [exact Hh | exact Hlo | exact Hhi].
Qed.

Lemma within_RenderGlyph font y scl col c x w :
  header_ok -> within_capacity w ->
  within_capacity (snd (RenderGlyph font y scl col c (x, w))).
Proof.
  intros Hh Hw. rewrite RenderGlyph_emit. cbn [snd].
  destruct (glyph_ready_bound font w Hh Hw) as [Hlo Hhi].
  apply within_emit; [exact Hh | exact Hlo | exact Hhi].
Qed.

Lemma within_RenderText font text pos scl col w :
  header_ok -> within_capacity w ->
  within_capacity (RenderText font text pos scl col w).
Proof.
  intros Hh. unfold RenderText.
  generalize (x2 pos) as x. revert w.
  induction (list_ascii_of_string text) as [|c cs IH]; intros w x Hw.
  - exact Hw.
  - cbn [fold_left].
    destruct (RenderGlyph font (y2 pos) scl col c (x, w)) as [x1 w1] eqn:E.
    apply IH.
    change w1 with (snd (x1, w1)). rewrite <- E.
    apply within_RenderGlyph; assumption.
Qed.

Lemma within_exec c w :
  header_ok -> within_capacity w -> within_capacity (exec c w).
Proof.
  intros Hh Hw.
  destruct c; cbn [exec];
    unfold DrawQuad_color, DrawQuad_texture, DrawQuad_texture_id,
      DrawQuad_coords, DrawQuad_texture_coords, DrawRotatedQuad_color,
      DrawRotatedQuad_texture, DrawRotatedQuad_coords,
      DrawRotatedQuad_coords_texture, DrawLine, DrawCube_color,
      DrawCube_texture, CalculateTextureIndex_texture;
    try match goal with
        | |- context [CalculateTextureIndex ?id ?w0] =>
            pose proof (within_CalculateTextureIndex id w0 Hh Hw);
            destruct (CalculateTextureIndex id w0) as [tex w1]; cbn [snd] in *
        end;
    lazymatch goal with
    | |- within_capacity (DrawQuad_mat _ _ _ _ _) =>
        apply within_DrawQuad_mat; assumption
    | |- within_capacity (DrawCube_mat _ _ _ _ _) =>
        apply within_DrawCube_mat; assumption
    | |- within_capacity (DrawTriangle _ _ _ _) =>
        apply within_DrawTriangle; assumption
    | |- within_capacity (DrawTriangle_rotated _ _ _ _ _ _) =>
        apply within_DrawTriangle_rotated; assumption
    | |- within_capacity (RenderText _ _ _ _ _ _) =>
        apply within_RenderText; assumption
    | |- _ => exact Hw
    end.
Qed.

Lemma within_BeginScene cam fl w :
  header_ok -> within_capacity (BeginScene cam fl w).
Proof.
  intros [Hc Hm]. unfold within_capacity, BeginScene, StartBatch. proj.
  unfold CUBE_VERTEX_COUNT in *. lia.
Qed.

Lemma within_run cs w :
  header_ok -> within_capacity w -> within_capacity (run cs w).
Proof.
  intros Hh. revert w. unfold run.
  induction cs as [|c cs IH]; intros w Hw; cbn [fold_left].
  - exact Hw.
  - apply IH. apply within_exec; assumption.
Qed.

(** C4.  With a vertex limit that leaves room for the largest primitive,
    [num_of_vertices_in_batch] never exceeds [MAX_VERTEX_COUNT] between the
    calls of a scene, and in the state in which an emitter starts to write
    its vertices (after its capacity test, which flushes and restarts when
    the primitive would not fit) the count plus the number of vertices of
    the primitive is at most [MAX_VERTEX_COUNT]: 4 for a quad, a line and
    a glyph, 3 for a triangle, 24 for a cube. *)
Theorem C4_vertex_capacity_invariant :
  header_ok ->
  (forall cam fl cs w, within_capacity (run cs (BeginScene cam fl w)))
  /\ (forall c w, within_capacity w -> within_capacity (exec c w))
  /\ (forall id w, within_capacity w ->
        within_capacity (snd (CalculateTextureIndex id w)))
  /\ (forall font y scl col c x w, within_capacity w ->
        within_capacity (snd (RenderGlyph font y scl col c (x, w))))
  /\ (forall k w, within_capacity w -> 0 <= k <= CUBE_VERTEX_COUNT ->
        check_capacity k w
        = if num_of_vertices_in_batch (data w) + k >? MAX_VERTEX_COUNT
          then NewBatch w else w)
  /\ (forall w, within_capacity w ->
        num_of_vertices_in_batch (data (quad_ready w)) + QUAD_VERTEX_COUNT
          <= MAX_VERTEX_COUNT
        /\ num_of_vertices_in_batch (data (triangle_ready w))
             + TRIANGLE_VERTEX_COUNT <= MAX_VERTEX_COUNT
        /\ num_of_vertices_in_batch (data (cube_ready w)) + CUBE_VERTEX_COUNT
             <= MAX_VERTEX_COUNT
        /\ (forall font,
              num_of_vertices_in_batch (data (snd (glyph_ready font w)))
                + QUAD_VERTEX_COUNT <= MAX_VERTEX_COUNT))
  /\ (forall translation col tex tc pos rot axis size font y scl c x w,
        DrawQuad_mat translation col tex tc w
          = emit 4 6 (quad_vertex translation col tex tc) (quad_ready w)
        /\ DrawTriangle pos size col w
           = emit 3 3
               (triangle_vertex (GetModelMatrix (flags (data w)) pos size) col)
               (triangle_ready w)
        /\ DrawTriangle_rotated pos rot axis size col w
           = emit 3 3
               (triangle_vertex
                  (rotate cosf sinf (GetModelMatrix (flags (data w)) pos size)
                     (radians rot) axis) col)
               (triangle_ready w)
        /\ DrawCube_mat translation col tex tc w
           = emit 24 36 (cube_vertex translation col tex tc) (cube_ready w)
        /\ snd (RenderGlyph font y scl col c (x, w))
           = emit 4 6 (glyph_vertex (glyph_positions font y scl c x)
                         (glyph_coords font c) col (fst (glyph_ready font w)))
               (snd (glyph_ready font w))).
Proof.
  intros Hh.
  split; [intros cam fl cs w; apply within_run;
          [exact Hh | apply within_BeginScene; exact Hh]|].
  split; [intros c w; apply within_exec; exact Hh|].
  split; [intros id w; apply within_CalculateTextureIndex; exact Hh|].
  split; [intros font y scl col c x w; apply within_RenderGlyph; exact Hh|].
  split.
  { intros k w Hw Hk. unfold check_capacity.
    destruct Hh as [Hc Hm]. unfold within_capacity in Hw.
    rewrite add32_small by lia. reflexivity. }
  split.
  - intros w Hw.
    split; [apply quad_ready_bound; assumption|].
    split; [apply triangle_ready_bound; assumption|].
    split; [apply cube_ready_bound; assumption|].
    intros font. apply glyph_ready_bound; assumption.
  - intros translation col tex tc pos rot axis size font y scl c x w.
    split; [apply DrawQuad_mat_emit|].
    split; [apply DrawTriangle_emit|].
    split; [apply DrawTriangle_rotated_emit|].
    split; [apply DrawCube_mat_emit|].
    rewrite RenderGlyph_emit. reflexivity.
Qed.

End Capacity.

(** ** The material id stamped on vertices *)

Lemma unset_material_stamp_eq : F32.of_Z (wrap32 (-1)) = unset_material_stamp.
Proof. vm_compute. reflexivity. Qed.

Section Material.
Context `{RendererH} `{Collaborators}.

Lemma Forall_map_seq {A : Type} (P : A -> Prop) (f : nat -> A) (a k : nat) :
  (forall i, P (f i)) -> Forall P (map f (seq a k)).
Proof.
  intros Hf. revert a. induction k as [|k IH]; intros a; cbn [seq map].
  - constructor.
  - constructor; [apply Hf | apply IH].
Qed.

Lemma unset_on_data n0 f w :
  current_material_id (f (data w)) = current_material_id (data w) ->
  vertices (f (data w)) = vertices (data w) ->
  unset_everywhere n0 w -> unset_everywhere n0 (on_data f w).
Proof.
  intros Hm Hv (Hc & Hs & Hd & Hn). unfold unset_everywhere. proj.
  rewrite Hm, Hv. auto.
Qed.

Lemma unset_Render n0 w : unset_everywhere n0 w -> unset_everywhere n0 (Render w).
Proof.
  intros (Hc & Hs & Hd & Hn). unfold unset_everywhere, Render. proj.
  split; [exact Hc|]. split; [exact Hs|].
  rewrite drop_app_le by exact Hn. rewrite length_app. split; [|lia].
  apply Forall_app. split; [exact Hd|].
  constructor; [exact Hs | constructor].
Qed.

Lemma unset_NewBatch n0 w :
  unset_everywhere n0 w -> unset_everywhere n0 (NewBatch w).
Proof.
  intros Hw. apply unset_Render in Hw. destruct Hw as (Hc & Hs & Hd & Hn).
  unfold unset_everywhere, NewBatch, StartBatch. proj.
  split; [exact Hc|]. split; [constructor|]. split; assumption.
Qed.

Lemma unset_check_capacity n0 k w :
  unset_everywhere n0 w -> unset_everywhere n0 (check_capacity k w).
Proof.
  intros Hw.
  destruct (check_capacity_cases k w) as [[_ ->]|[_ ->]];
    [exact Hw | apply unset_NewBatch; exact Hw].
Qed.

Lemma unset_emit n0 k n mk w :
  (forall i m, material_id (mk i m) = F32.of_Z m) ->
  unset_everywhere n0 w -> unset_everywhere n0 (emit k n mk w).
Proof.
  intros Hmk (Hc & Hs & Hd & Hn).
  unfold unset_everywhere, emit, add_to_command_size, written. proj.
  split; [exact Hc|]. split; [|split; assumption].
  apply Forall_app. split; [exact Hs|].
  apply Forall_map_seq. intros i. unfold stamped_unset.
  rewrite Hmk, Hc. apply unset_material_stamp_eq.
Qed.

Lemma unset_CalculateTextureIndex n0 id w :
  unset_everywhere n0 w ->
  unset_everywhere n0 (snd (CalculateTextureIndex id w)).
Proof.
  intros Hw. unfold CalculateTextureIndex.
  destruct (F32.eqb _ F32.neg_one); [|exact Hw].
  cbn [snd]. proj.
  set (w2 := {| data := _; gl := gl w |}).
  assert (Hw2 : unset_everywhere n0 w2).
  { destruct Hw as (Hc & Hs & Hd & Hn). unfold unset_everywhere, w2. proj.
    auto. }
  destruct (add32 (texture_slot_index (data w)) 1 =? MAX_TEXTURE_SLOTS);
    [apply unset_NewBatch; exact Hw2 | exact Hw2].
Qed.

Lemma unset_quad_ready n0 w :
  unset_everywhere n0 w -> unset_everywhere n0 (quad_ready w).
Proof.
  intros Hw. unfold quad_ready.
  apply unset_on_data; [reflexivity | reflexivity |].
  apply unset_check_capacity; exact Hw.
Qed.

Lemma unset_triangle_ready n0 w :
  unset_everywhere n0 w -> unset_everywhere n0 (triangle_ready w).
Proof.
  intros Hw. unfold triangle_ready.
  apply unset_on_data; [reflexivity | reflexivity |].
  apply unset_check_capacity; exact Hw.
Qed.

Lemma unset_cube_ready n0 w :
  unset_everywhere n0 w -> unset_everywhere n0 (cube_ready w).
Proof.
  intros Hw. unfold cube_ready.
  change (for_loop CUBE_FACES (fun _ w => on_data CalculateSquareIndices w)
            (check_capacity CUBE_VERTEX_COUNT w))
    with (on_data (fun d => Nat.iter 6 CalculateSquareIndices d)
            (check_capacity CUBE_VERTEX_COUNT w)).
  apply unset_on_data; [reflexivity | reflexivity |].
  apply unset_check_capacity; exact Hw.
Qed.

Lemma unset_glyph_ready n0 font w :
  unset_everywhere n0 w -> unset_everywhere n0 (snd (glyph_ready font w)).
Proof.
  intros Hw. unfold glyph_ready, CalculateTextureIndex_texture.
  apply unset_CalculateTextureIndex. fold (quad_ready w).
  apply unset_quad_ready; exact Hw.
Qed.

Lemma unset_DrawQuad_mat n0 translation col tex tc w :
  unset_everywhere n0 w ->
  unset_everywhere n0 (DrawQuad_mat translation col tex tc w).
Proof.
  intros Hw. rewrite DrawQuad_mat_emit.
  apply unset_emit; [reflexivity | apply unset_quad_ready; exact Hw].
Qed.

Lemma unset_DrawCube_mat n0 translation col tex tc w :
  unset_everywhere n0 w ->
  unset_everywhere n0 (DrawCube_mat translation col tex tc w).
Proof.
  intros Hw. rewrite DrawCube_mat_emit.
  apply unset_emit; [reflexivity | apply unset_cube_ready; exact Hw].
Qed.

Lemma unset_DrawTriangle n0 pos size col w :
  unset_everywhere n0 w -> unset_everywhere n0 (DrawTriangle pos size col w).
Proof.
  intros Hw. rewrite DrawTriangle_emit.
  apply unset_emit; [reflexivity | apply unset_triangle_ready; exact Hw].
Qed.

Lemma unset_DrawTriangle_rotated n0 pos rot axis size col w :
  unset_everywhere n0 w ->
  unset_everywhere n0 (DrawTriangle_rotated pos rot axis size col w).
Proof.
  intros Hw. rewrite DrawTriangle_rotated_emit.
  apply unset_emit; [reflexivity | apply unset_triangle_ready; exact Hw].
Qed.

Lemma unset_RenderText n0 font text pos scl col w :
  unset_everywhere n0 w ->
  unset_everywhere n0 (RenderText font text pos scl col w).
Proof.
  unfold RenderText. generalize (x2 pos) as x. revert w.
  induction (list_ascii_of_string text) as [|c cs IH]; intros w x Hw.
  - exact Hw.
  - cbn [fold_left]. rewrite RenderGlyph_emit. apply IH.
    apply unset_emit; [reflexivity | apply unset_glyph_ready; exact Hw].
Qed.

Lemma unset_exec n0 c w :
  sets_material c = false ->
  unset_everywhere n0 w -> unset_everywhere n0 (exec c w).
Proof.
  intros Hc Hw.
  destruct c; cbn [exec]; try discriminate Hc;
    unfold DrawQuad_color, DrawQuad_texture, DrawQuad_texture_id,
      DrawQuad_coords, DrawQuad_texture_coords, DrawRotatedQuad_color,
      DrawRotatedQuad_texture, DrawRotatedQuad_coords,
      DrawRotatedQuad_coords_texture, DrawLine, DrawCube_color,
      DrawCube_texture, CalculateTextureIndex_texture;
    try match goal with
        | |- context [CalculateTextureIndex ?id ?w0] =>
            pose proof (unset_CalculateTextureIndex n0 id w0 Hw);
            destruct (CalculateTextureIndex id w0) as [tex w1]; cbn [snd] in *
        end;
    lazymatch goal with
    | |- unset_everywhere _ (DrawQuad_mat _ _ _ _ _) =>
        apply unset_DrawQuad_mat; assumption
    | |- unset_everywhere _ (DrawCube_mat _ _ _ _ _) =>
        apply unset_DrawCube_mat; assumption
    | |- unset_everywhere _ (DrawTriangle _ _ _ _) =>
        apply unset_DrawTriangle; assumption
    | |- unset_everywhere _ (DrawTriangle_rotated _ _ _ _ _ _) =>
        apply unset_DrawTriangle_rotated; assumption
    | |- unset_everywhere _ (RenderText _ _ _ _ _ _) =>
        apply unset_RenderText; assumption
    | |- unset_everywhere _ (SetShader _ _) =>
        apply unset_on_data; [reflexivity | reflexivity | exact Hw]
    | |- unset_everywhere _ (SetShaderToDefualt _) =>
        apply unset_on_data; [reflexivity | reflexivity | exact Hw]
    end.
Qed.

Lemma unset_run n0 cs w :
  Forall (fun c => sets_material c = false) cs ->
  unset_everywhere n0 w -> unset_everywhere n0 (run cs w).
Proof.
  intros Hcs. revert w. unfold run.
  induction Hcs as [|c cs Hc Hcs IH]; intros w Hw; cbn [fold_left].
  - exact Hw.
  - apply IH. apply unset_exec; assumption.
Qed.

Lemma unset_BeginScene cam fl w :
  unset_everywhere (length (draw_calls (gl w))) (BeginScene cam fl w).
Proof.
  unfold unset_everywhere, BeginScene, StartBatch. proj.
  rewrite drop_all. repeat split; constructor.
Qed.

Lemma unset_EndScene n0 w :
  unset_everywhere n0 w -> unset_everywhere n0 (EndScene w).
Proof.
  intros Hw. unfold EndScene. apply unset_Render.
  apply unset_on_data; [reflexivity | reflexivity |].
  apply unset_on_data; [reflexivity | reflexivity | exact Hw].
Qed.

(** C8 (as the code has it).  The active material id is a [uint32_t]:
    [BeginScene] stores [-1] in it, that is [0xFFFFFFFF = 4294967295], and
    every emitter stamps [(float)current_material_id].  So in a scene that
    never calls [SetMaterialId], every vertex staged and every vertex
    uploaded by a flush of the scene carries the material id
    [4294967296.0f] (the unsigned sentinel rounded to binary32), which is
    not [-1.0f]. *)
Theorem C8_unset_material_stamp cam fl cs w0 :
  Forall (fun c => sets_material c = false) cs ->
  let w := scene cam fl cs w0 in
  current_material_id (data (BeginScene cam fl w0)) = 4294967295
  /\ Forall stamped_unset (vertices (data (run cs (BeginScene cam fl w0))))
  /\ Forall (fun c => Forall stamped_unset (call_vertex_data c))
       (drop (length (draw_calls (gl w0))) (draw_calls (gl w)))
  /\ unset_material_stamp = F32.of_Z 4294967295
  /\ unset_material_stamp = F32.of_scaled 1 32
  /\ F32.eqb unset_material_stamp F32.neg_one = false.
Proof.
  intros Hcs w.
  pose proof (unset_run _ cs _ Hcs (unset_BeginScene cam fl w0)) as Hrun.
  pose proof (unset_EndScene _ _ Hrun) as Hend.
  split; [reflexivity|].
  split; [apply Hrun|].
  split; [apply Hend|].
  vm_compute. repeat split.
Qed.

End Material.

(** ** The texture slot allocator *)

(** A non-negative integer converted to [float] never compares equal to
    [-1.0f]: rounding keeps the sign. *)
Lemma of_Z_nonneg_not_neg_one (z : Z) :
  0 <= z -> F32.eqb (F32.of_Z z) F32.neg_one = false.
Proof.
  intros Hz. unfold F32.of_Z, binary_normalize.
  destruct z as [|p|p]; [reflexivity | | lia].
  unfold binary_round.
  destruct (shl_align p 0 _) as [mz ez].
  unfold binary_round_aux.
  destruct (shr_fexp F32.prec F32.emax (Z.pos mz) ez loc_Exact) as [mrs' e'].
  destruct (shr_fexp F32.prec F32.emax _ e' loc_Exact) as [mrs'' e''].
  destruct (shr_m mrs'') as [|m|m]; [reflexivity | | reflexivity].
  destruct (e'' <=? F32.emax - F32.prec); reflexivity.
Qed.

Section Allocator.
Context `{RendererH} `{Collaborators}.

Lemma CalculateTextureIndex_present id w :
  has_slot id (data w) = true ->
  CalculateTextureIndex id w = (scan_slots id (data w), w).
Proof.
  unfold has_slot, CalculateTextureIndex. fold (scan_slots id (data w)).
  destruct (F32.eqb (scan_slots id (data w)) F32.neg_one);
    [discriminate | reflexivity].
Qed.

Lemma stays_absent id d :
  stays_in_batch id d -> has_slot id d = false -> room_for_one d.
Proof. intros [Hs|Hr] E; [congruence | exact Hr]. Qed.

Lemma CalculateTextureIndex_absent id w :
  room_for_one (data w) -> has_slot id (data w) = false ->
  CalculateTextureIndex id w
  = (F32.of_Z (texture_slot_index (data w)), appended id w).
Proof.
  intros (Hlo & Hhi & Hmax & Hlen) Hno.
  unfold has_slot in Hno. apply negb_false_iff in Hno.
  unfold CalculateTextureIndex. fold (scan_slots id (data w)). rewrite Hno.
  proj.
  match goal with
  | |- context [?a =? MAX_TEXTURE_SLOTS] =>
      replace (a =? MAX_TEXTURE_SLOTS) with false
        by (symmetry; apply Z.eqb_neq; rewrite add32_small; lia)
  end.
  reflexivity.
Qed.

Lemma slots_appended id w :
  0 <= texture_slot_index (data w) ->
  texture_slot_index (data w) + 1 < U32 ->
  texture_slot_index (data (appended id w)) = texture_slot_index (data w) + 1.
Proof.
  intros Hlo Hhi. unfold appended. rewrite data_on_data. proj.
  apply add32_small. lia.
Qed.

Lemma scan_after_insert id w :
  0 <= texture_slot_index (data w) ->
  texture_slot_index (data w) + 1 < U32 ->
  (Z.to_nat (texture_slot_index (data w)) < length (textures (data w)))%nat ->
  scan_slots id (data (appended id w)) = F32.of_Z (texture_slot_index (data w)).
Proof.
  intros Hlo Hhi Hlen.
  assert (E : texture_slot_index (data (appended id w))
              = Z.of_nat (S (Z.to_nat (texture_slot_index (data w))))).
  { rewrite slots_appended by assumption. lia. }
  unfold scan_slots. rewrite E, for_loop_succ.
  unfold appended at 1. rewrite data_on_data. proj.
  rewrite list_lookup_total_insert_eq by exact Hlen.
  rewrite Z.eqb_refl. rewrite Z2Nat.id by exact Hlo. reflexivity.
Qed.

(** A second request for the same handle changes nothing and returns the
    same slot. *)
Lemma CalculateTextureIndex_again id w :
  stays_in_batch id (data w) ->
  CalculateTextureIndex id (snd (CalculateTextureIndex id w))
  = CalculateTextureIndex id w.
Proof.
  intros Hstay. destruct (has_slot id (data w)) eqn:E.
  - rewrite (CalculateTextureIndex_present id w E). cbn [snd].
    apply CalculateTextureIndex_present. exact E.
  - pose proof (stays_absent id _ Hstay E) as Hroom.
    rewrite (CalculateTextureIndex_absent id w Hroom E). cbn [snd].
    destruct Hroom as (Hlo & Hhi & Hmax & Hlen).
        rewrite CalculateTextureIndex_present.
    + rewrite scan_after_insert by (assumption || lia). reflexivity.
    + unfold has_slot. rewrite scan_after_insert by (assumption || lia).
      rewrite of_Z_nonneg_not_neg_one by exact Hlo. reflexivity.
Qed.

Lemma allocate_repeatedly_spec K id w :
  stays_in_batch id (data w) ->
  allocate_repeatedly (S K) id w
  = (replicate (S K) (fst (CalculateTextureIndex id w)),
     snd (CalculateTextureIndex id w)).
Proof.
  intros Hroom. unfold allocate_repeatedly.
  induction K as [|K IH].
  - cbn [Nat.iter nat_rect app replicate].
    destruct (CalculateTextureIndex id w); reflexivity.
  - rewrite Nat.iter_succ, IH.
    rewrite (CalculateTextureIndex_again id w Hroom).
    destruct (CalculateTextureIndex id w) as [t w'].
    cbn [fst snd]. rewrite <- replicate_S_end. reflexivity.
Qed.

Lemma has_slot_after id w :
  stays_in_batch id (data w) ->
  has_slot id (data (snd (CalculateTextureIndex id w))) = true
  /\ scan_slots id (data (snd (CalculateTextureIndex id w)))
     = fst (CalculateTextureIndex id w).
Proof.
  intros Hstay. destruct (has_slot id (data w)) eqn:E.
  - rewrite (CalculateTextureIndex_present id w E). cbn [fst snd]. auto.
  - pose proof (stays_absent id _ Hstay E) as Hroom.
    rewrite (CalculateTextureIndex_absent id w Hroom E). cbn [fst snd].
    destruct Hroom as (Hlo & Hhi & Hmax & Hlen).
        unfold has_slot. rewrite scan_after_insert by (assumption || lia).
    rewrite of_Z_nonneg_not_neg_one by exact Hlo. auto.
Qed.

Lemma DrawQuad_mat_fits translation col tex tc w :
  0 <= num_of_vertices_in_batch (data w) ->
  num_of_vertices_in_batch (data w) + 4 <= MAX_VERTEX_COUNT ->
  MAX_VERTEX_COUNT + 4 < U32 ->
  DrawQuad_mat translation col tex tc w
  = emit 4 6 (quad_vertex translation col tex tc)
      (on_data CalculateSquareIndices w).
Proof.
  intros Hlo Hhi Hmax. rewrite DrawQuad_mat_emit. unfold quad_ready.
  destruct (check_capacity_cases QUAD_VERTEX_COUNT w) as [[_ ->]|[Hgt _]];
    [reflexivity|].
  unfold QUAD_VERTEX_COUNT in Hgt. rewrite add32_small in Hgt by lia. lia.
Qed.

Lemma draw_textured_cons id pos size col quads w :
  draw_textured id ((pos, size, col) :: quads) w
  = draw_textured id quads (DrawQuad_texture_id pos size id col w).
Proof. reflexivity. Qed.

Lemma DrawQuad_texture_id_present pos size id col w :
  has_slot id (data w) = true ->
  0 <= num_of_vertices_in_batch (data w) ->
  num_of_vertices_in_batch (data w) + 4 <= MAX_VERTEX_COUNT ->
  MAX_VERTEX_COUNT + 4 < U32 ->
  DrawQuad_texture_id pos size id col w
  = emit 4 6
      (quad_vertex (GetModelMatrix (flags (data w)) pos size) col
         (scan_slots id (data w)) TEX_COORDS)
      (on_data CalculateSquareIndices w).
Proof.
  intros Hs Hlo Hhi Hmax. unfold DrawQuad_texture_id.
  rewrite (CalculateTextureIndex_present id w Hs).
  apply DrawQuad_mat_fits; assumption.
Qed.

Lemma draw_textured_present id quads w :
  has_slot id (data w) = true ->
  0 <= num_of_vertices_in_batch (data w) ->
  num_of_vertices_in_batch (data w) + 4 * Z.of_nat (length quads)
    <= MAX_VERTEX_COUNT ->
  MAX_VERTEX_COUNT + 4 < U32 ->
  let w' := draw_textured id quads w in
  gl w' = gl w
  /\ texture_slot_index (data w') = texture_slot_index (data w)
  /\ textures (data w') = textures (data w)
  /\ exists vs,
       vertices (data w') = vertices (data w) ++ vs
       /\ length vs = (4 * length quads)%nat
       /\ Forall (fun v => texture_id v = scan_slots id (data w)) vs.
Proof.
  revert w. induction quads as [|[[pos size] col] quads IH];
    intros w Hs Hlo Hhi Hmax w'; subst w'.
  - repeat split. exists []. rewrite app_nil_r. repeat split. constructor.
  - rewrite draw_textured_cons.
    rewrite DrawQuad_texture_id_present
      by first [assumption | cbn [length] in Hhi; lia].
    set (w1 := emit 4 6 _ _).
    assert (Hsc : scan_slots id (data w1) = scan_slots id (data w))
      by reflexivity.
    assert (Hn : num_of_vertices_in_batch (data w1)
                 = num_of_vertices_in_batch (data w) + 4).
    { unfold w1. rewrite num_emit.
      - reflexivity.
      - exact Hlo.
      - change (num_of_vertices_in_batch
                  (data (on_data CalculateSquareIndices w)))
          with (num_of_vertices_in_batch (data w)).
        cbn [Z.of_nat Pos.of_succ_nat Pos.succ]. lia. }
    destruct (IH w1) as (Hg & Ht & Hx & vs & Hv & Hl & Hf).
    + unfold has_slot. rewrite Hsc. exact Hs.
    + lia.
    + cbn [length] in Hhi. lia.
    + exact Hmax.
    + split; [rewrite Hg; reflexivity|].
      split; [rewrite Ht; reflexivity|].
      split; [rewrite Hx; reflexivity|].
      exists (map (fun i => quad_vertex
                      (GetModelMatrix (flags (data w)) pos size) col
                      (scan_slots id (data w)) TEX_COORDS i
                      (current_material_id (data w))) (seq 0 4) ++ vs).
      split; [rewrite Hv, app_assoc; reflexivity|].
      split; [rewrite length_app, Hl; cbn [length map seq]; lia|].
      apply Forall_app. split.
      * repeat constructor.
      * rewrite <- Hsc. exact Hf.
Qed.

(** C5.  Within one batch, that is when the handle has a slot already or
    the table can take it without filling up, [K >= 1] requests for one
    texture handle all return the same slot; only the first one can change
    the renderer (it appends the handle if the table does not hold it yet,
    raising the slot count by one), the others leave it as it is, and
    nothing is flushed.  In a fresh batch the requests leave exactly one
    slot occupied, slot 0.  The same holds for [K] textured quads that fit
    into the batch: the slot table after them is the one after the first
    request, and all their vertices carry the one slot index. *)
Theorem C5_same_texture_one_slot (K : nat) id quads w :
  (1 <= K)%nat -> stays_in_batch id (data w) ->
  length quads = K ->
  0 <= num_of_vertices_in_batch (data w) ->
  num_of_vertices_in_batch (data w) + 4 * Z.of_nat K <= MAX_VERTEX_COUNT ->
  MAX_VERTEX_COUNT + 4 < U32 ->
    let first := CalculateTextureIndex id w in
  allocate_repeatedly K id w = (replicate K (fst first), snd first)
  /\ snd first = (if has_slot id (data w) then w else appended id w)
  /\ texture_slot_index (data (snd first))
     = (if has_slot id (data w) then texture_slot_index (data w)
        else texture_slot_index (data w) + 1)
  /\ has_slot id (data (snd first)) = true
  /\ (texture_slot_index (data w) = 0 ->
      texture_slot_index (data (snd first)) = 1 /\ fst first = F32.zero)
  /\ (let w' := draw_textured id quads w in
      gl w' = gl w
      /\ texture_slot_index (data w') = texture_slot_index (data (snd first))
      /\ textures (data w') = textures (data (snd first))
      /\ exists vs,
           vertices (data w') = vertices (data w) ++ vs
           /\ length vs = (4 * K)%nat
           /\ Forall (fun v => texture_id v = fst first) vs).
Proof.
    intros HK Hroom Hlen Hlo Hhi Hmax first.
  split.
  { destruct K as [|K]; [lia|]. apply allocate_repeatedly_spec. exact Hroom. }
  destruct (has_slot_after id w Hroom) as [Hafter Hscan].
  fold first in Hafter, Hscan.
    assert (Hfirst : snd first
                   = (if has_slot id (data w) then w else appended id w)
                   /\ texture_slot_index (data (snd first))
                      = (if has_slot id (data w) then texture_slot_index (data w)
                         else texture_slot_index (data w) + 1)
                   /\ gl (snd first) = gl w
                   /\ vertices (data (snd first)) = vertices (data w)
                   /\ num_of_vertices_in_batch (data (snd first))
                      = num_of_vertices_in_batch (data w)
                   /\ flags (data (snd first)) = flags (data w)).
  { subst first. destruct (has_slot id (data w)) eqn:E.
        - rewrite (CalculateTextureIndex_present id w E). cbn [snd].
      repeat split.
    - pose proof (stays_absent id _ Hroom E) as (Hl0 & Hl1 & Hl2 & Hl3).
      rewrite (CalculateTextureIndex_absent id w
                 (stays_absent id _ Hroom E) E). cbn [snd].
      split; [reflexivity|].
      split; [apply slots_appended; lia|]. repeat split. }
  destruct Hfirst as (Hst & Htsi & Hgl & Hvs & Hnum & Hfl).
  split; [exact Hst|]. split; [exact Htsi|]. split; [exact Hafter|].
  split.
  { intros Hzero. subst first. destruct (has_slot id (data w)) eqn:E.
    - exfalso. unfold has_slot, scan_slots in E. rewrite Hzero in E.
      rewrite for_loop_0 in E. discriminate E.
          - rewrite (CalculateTextureIndex_absent id w
                 (stays_absent id _ Hroom E) E). cbn [fst snd].
      unfold appended. rewrite data_on_data. proj. rewrite Hzero.
      split; reflexivity. }
  intros w'.
  assert (Hsame : w' = draw_textured id quads (snd first)).
  { subst w'. destruct quads as [|[[pos size] col] quads];
      [cbn [length] in Hlen; lia|].
    cbn [draw_textured fold_left]. f_equal.
    unfold DrawQuad_texture_id. rewrite Hfl.
    subst first. rewrite (CalculateTextureIndex_again id w Hroom).
    reflexivity. }
  destruct (draw_textured_present id quads (snd first) Hafter)
    as (Hg & Ht & Hx & vs & Hv & Hl & Hf).
  - rewrite Hnum. exact Hlo.
  - rewrite Hnum, Hlen. exact Hhi.
  - exact Hmax.
  - rewrite Hsame. split; [rewrite Hg; exact Hgl|].
    split; [exact Ht|]. split; [exact Hx|].
    exists vs. rewrite Hv, Hvs, Hl, Hlen, <- Hscan. auto.
Qed.

End Allocator.

(** ** Every call is a sequence of flushes and data updates *)

Section Steps.
Context `{RendererH} `{Collaborators}.

Section Invariant.
Variable P : World -> Prop.
Hypothesis P_NewBatch : forall w, P w -> P (NewBatch w).
Hypothesis P_step : forall f w, data_step f -> P w -> P (on_data f w).

Lemma inv_check_capacity k w : P w -> P (check_capacity k w).
Proof.
  intros Hw.
  destruct (check_capacity_cases k w) as [[_ ->]|[_ ->]]; auto.
Qed.

Lemma inv_CalculateTextureIndex id w :
  P w -> P (snd (CalculateTextureIndex id w)).
Proof.
  intros Hw. unfold CalculateTextureIndex.
  destruct (F32.eqb _ F32.neg_one); [|exact Hw].
  cbn [snd].
  match goal with
  | |- P (if ?b then NewBatch ?w2 else _) =>
      assert (Hw2 : P w2) by exact (P_step _ w (step_slot id) Hw);
      destruct b; [apply P_NewBatch; exact Hw2 | exact Hw2]
  end.
Qed.

Lemma inv_emit k n mk w : P w -> P (emit k n mk w).
Proof. intros Hw. exact (P_step _ w (step_emit k n mk) Hw). Qed.

Lemma inv_quad_ready w : P w -> P (quad_ready w).
Proof.
  intros Hw. apply P_step; [constructor | apply inv_check_capacity; exact Hw].
Qed.

Lemma inv_triangle_ready w : P w -> P (triangle_ready w).
Proof.
  intros Hw. apply P_step; [constructor | apply inv_check_capacity; exact Hw].
Qed.

Lemma inv_cube_ready w : P w -> P (cube_ready w).
Proof.
  intros Hw. unfold cube_ready.
  change (for_loop CUBE_FACES (fun _ w => on_data CalculateSquareIndices w)
            (check_capacity CUBE_VERTEX_COUNT w))
    with (Nat.iter 6 (on_data CalculateSquareIndices)
            (check_capacity CUBE_VERTEX_COUNT w)).
  cbn [Nat.iter nat_rect].
  do 6 (apply P_step; [constructor|]).
  apply inv_check_capacity; exact Hw.
Qed.

Lemma inv_DrawQuad_mat translation col tex tc w :
  P w -> P (DrawQuad_mat translation col tex tc w).
Proof.
  intros Hw. rewrite DrawQuad_mat_emit.
  apply inv_emit, inv_quad_ready, Hw.
Qed.

Lemma inv_DrawCube_mat translation col tex tc w :
  P w -> P (DrawCube_mat translation col tex tc w).
Proof.
  intros Hw. rewrite DrawCube_mat_emit.
  apply inv_emit, inv_cube_ready, Hw.
Qed.

Lemma inv_DrawTriangle pos size col w : P w -> P (DrawTriangle pos size col w).
Proof.
  intros Hw. rewrite DrawTriangle_emit.
  apply inv_emit, inv_triangle_ready, Hw.
Qed.

Lemma inv_DrawTriangle_rotated pos rot axis size col w :
  P w -> P (DrawTriangle_rotated pos rot axis size col w).
Proof.
  intros Hw. rewrite DrawTriangle_rotated_emit.
  apply inv_emit, inv_triangle_ready, Hw.
Qed.

Lemma inv_RenderText font text pos scl col w :
  P w -> P (RenderText font text pos scl col w).
Proof.
  unfold RenderText. generalize (x2 pos) as x. revert w.
  induction (list_ascii_of_string text) as [|c cs IH]; intros w x Hw.
  - exact Hw.
  - cbn [fold_left]. rewrite RenderGlyph_emit. apply IH.
    apply inv_emit. unfold glyph_ready, CalculateTextureIndex_texture.
    apply inv_CalculateTextureIndex. fold (quad_ready w).
    apply inv_quad_ready, Hw.
Qed.

Lemma inv_exec c w : P w -> P (exec c w).
Proof.
  intros Hw.
  destruct c; cbn [exec];
    unfold DrawQuad_color, DrawQuad_texture, DrawQuad_texture_id,
      DrawQuad_coords, DrawQuad_texture_coords, DrawRotatedQuad_color,
      DrawRotatedQuad_texture, DrawRotatedQuad_coords,
      DrawRotatedQuad_coords_texture, DrawLine, DrawCube_color,
      DrawCube_texture, CalculateTextureIndex_texture;
    try match goal with
        | |- context [CalculateTextureIndex ?id ?w0] =>
            pose proof (inv_CalculateTextureIndex id w0 Hw);
            destruct (CalculateTextureIndex id w0) as [tex w1];
            cbn [snd] in *
        end;
    lazymatch goal with
    | |- P (DrawQuad_mat _ _ _ _ _) => apply inv_DrawQuad_mat; assumption
    | |- P (DrawCube_mat _ _ _ _ _) => apply inv_DrawCube_mat; assumption
    | |- P (DrawTriangle _ _ _ _) => apply inv_DrawTriangle; assumption
    | |- P (DrawTriangle_rotated _ _ _ _ _ _) =>
        apply inv_DrawTriangle_rotated; assumption
    | |- P (RenderText _ _ _ _ _ _) => apply inv_RenderText; assumption
    | |- P (SetShader _ _) => apply P_step; [constructor | exact Hw]
    | |- P (SetShaderToDefualt _) => apply P_step; [constructor | exact Hw]
    | |- P (SetMaterialId _ _) => apply P_step; [constructor | exact Hw]
    end.
Qed.

Lemma inv_run cs w : P w -> P (run cs w).
Proof.
  revert w. unfold run.
  induction cs as [|c cs IH]; intros w Hw; cbn [fold_left].
  - exact Hw.
  - apply IH, inv_exec, Hw.
Qed.

End Invariant.

(** *** Draw commands during a scene

    Between [BeginScene] and [EndScene] nothing writes the draw-command
    table or advances the command count: [MakeCommand] and
    [GoToNextDrawCommand] are called by [EndScene] only. *)

Lemma commands_untouched_NewBatch n0 table w :
  commands_untouched n0 table w -> commands_untouched n0 table (NewBatch w).
Proof.
  intros (Hc & Ht & Hn & Hd).
  unfold commands_untouched, NewBatch, StartBatch, Render. proj.
  split; [reflexivity|]. split; [exact Ht|].
  rewrite length_app. split; [lia|].
  rewrite drop_app_le by exact Hn. apply Forall_app. split; [exact Hd|].
  constructor; [|constructor]. proj. rewrite Hc. split; [reflexivity | exact Ht].
Qed.

Lemma commands_untouched_step n0 table f w :
  data_step f ->
  commands_untouched n0 table w -> commands_untouched n0 table (on_data f w).
Proof.
  intros Hf (Hc & Ht & Hn & Hd). unfold commands_untouched.
  rewrite gl_on_data, data_on_data.
  destruct Hf; (split; [exact Hc|]; split; [exact Ht|]; split; assumption).
Qed.

Lemma commands_untouched_BeginScene cam fl w :
  commands_untouched (length (draw_calls (gl w))) (draw_commands (data w))
    (BeginScene cam fl w).
Proof.
  unfold commands_untouched, BeginScene, StartBatch. proj.
  rewrite drop_all. repeat split; constructor.
Qed.

Lemma commands_untouched_scene cam fl cs w :
  commands_untouched (length (draw_calls (gl w))) (draw_commands (data w))
    (run cs (BeginScene cam fl w)).
Proof.
  apply inv_run.
  - apply commands_untouched_NewBatch.
  - intros f w1. apply commands_untouched_step.
  - apply commands_untouched_BeginScene.
Qed.

End Steps.

(** ** What a flush submits *)

Section Flush.
Context `{RendererH} `{Collaborators}.

Lemma Render_one_call w :
  exists c,
    draw_calls (gl (Render w)) = draw_calls (gl w) ++ [c]
    /\ call_count c = add32 (draw_count (data w)) 1
    /\ call_commands c = draw_commands (data w)
    /\ call_vertex_data c = vertices (data w)
    /\ call_index_data c = indices (data w).
Proof. eexists. split; [reflexivity|]. repeat split. Qed.

(** C2 (as the code has it).  Every flush issues exactly one indirect
    multi-draw call, and the descriptor count it passes is
    [draw_count + 1] (in 32-bit arithmetic), one more than the number of
    commands finalized in the batch.  During a scene the count of
    finalized commands stays 0 and every implicit flush submits one
    descriptor; [EndScene] finalizes one command and its flush submits
    two. *)
Theorem C2_flush_submits_count_plus_one cam fl cs w0 w :
  (exists c,
      draw_calls (gl (Render w)) = draw_calls (gl w) ++ [c]
      /\ call_count c = add32 (draw_count (data w)) 1)
  /\ (let ws := run cs (BeginScene cam fl w0) in
      draw_count (data ws) = 0
      /\ Forall (fun c => call_count c = 1)
           (drop (length (draw_calls (gl w0))) (draw_calls (gl ws)))
      /\ exists c,
           draw_calls (gl (EndScene ws)) = draw_calls (gl ws) ++ [c]
           /\ draw_count (data (EndScene ws)) = 1
           /\ call_count c = 2).
Proof.
  split.
  { destruct (Render_one_call w) as (c & Hc & Hn & _). exists c. auto. }
  intros ws.
  destruct (commands_untouched_scene cam fl cs w0) as (Hc & Ht & Hn & Hd).
  fold ws in Hc, Ht, Hn, Hd.
  split; [exact Hc|]. split.
  { eapply Forall_impl; [exact Hd|]. intros c [Hcount _]. exact Hcount. }
  unfold EndScene.
  destruct (Render_one_call
              (on_data GoToNextDrawCommand (on_data MakeCommand ws)))
    as (c & Hcalls & Hcount & _).
  exists c. split; [exact Hcalls|].
  assert (Hdc : draw_count
                  (data (on_data GoToNextDrawCommand (on_data MakeCommand ws)))
                = 1).
  { unfold GoToNextDrawCommand, MakeCommand. proj. rewrite Hc. reflexivity. }
  split; [exact Hdc|]. rewrite Hcount, Hdc. reflexivity.
Qed.

(** C1 (what the code does at the split).  Between [BeginScene] and
    [EndScene] the draw-command table is never written: every implicit
    flush-and-restart of a scene submits one descriptor, read from the
    table as it was before the scene began, whatever geometry the flush
    uploaded.  In the first scene after [Init] that descriptor is all
    zeros.  The geometry itself is split correctly: a quad that does not
    fit makes the flush upload the staged vertices and indices as they
    are, and is then written at the start of the new batch. *)
Theorem C1_flush_submits_unfinalized_table cam fl cs w0 shader :
  (let ws := run cs (BeginScene cam fl w0) in
   draw_commands (data ws) = draw_commands (data w0)
   /\ Forall (fun c => call_count c = 1
                      /\ call_commands c = draw_commands (data w0))
        (drop (length (draw_calls (gl w0))) (draw_calls (gl ws))))
  /\ Forall (fun c => call_count c = 1
                     /\ call_commands c !!! 0%nat = zero_command)
       (draw_calls (gl (run cs (BeginScene cam fl (Init shader)))))
  /\ (forall translation col tex tc w,
        MAX_VERTEX_COUNT
          < add32 (num_of_vertices_in_batch (data w)) QUAD_VERTEX_COUNT ->
        exists c,
          draw_calls (gl (DrawQuad_mat translation col tex tc w))
            = draw_calls (gl w) ++ [c]
          /\ call_vertex_data c = vertices (data w)
          /\ call_index_data c = indices (data w)
          /\ call_commands c = draw_commands (data w)
          /\ indices (data (DrawQuad_mat translation col tex tc w))
             = [0; 1; 2; 2; 3; 0]
          /\ length (vertices (data (DrawQuad_mat translation col tex tc w)))
             = 4%nat).
Proof.
  split.
  { intros ws.
    destruct (commands_untouched_scene cam fl cs w0) as (_ & Ht & _ & Hd).
    split; assumption. }
  split.
  { destruct (commands_untouched_scene cam fl cs (Init shader))
      as (_ & _ & _ & Hd).
    cbn [Init gl data draw_calls length drop] in Hd. unfold drop in Hd.
    eapply Forall_impl; [exact Hd|]. intros c [Hcount Htable].
    split; [exact Hcount|]. rewrite Htable.
    destruct (Z.to_nat MAX_DRAW_COMMANDS); reflexivity. }
  intros translation col tex tc w Hfull.
  assert (Hflush : check_capacity QUAD_VERTEX_COUNT w = NewBatch w).
  { destruct (check_capacity_cases QUAD_VERTEX_COUNT w) as [[Hle _]|[_ E]];
      [lia | exact E]. }
  rewrite DrawQuad_mat_emit. unfold quad_ready. rewrite Hflush.
  destruct (Render_one_call w) as (c & Hcalls & _ & Hcmd & Hv & Hi).
  exists c. split; [exact Hcalls|]. repeat split; assumption.
Qed.

End Flush.

(** ** A slot table that fills up *)

Section FullTable.
Context `{RendererH} `{Collaborators}.

Lemma bind_loop_length (d : RendererData) (k : nat) (units : list Z) :
  length
    (for_loop (Z.of_nat k)
       (fun i units =>
          if (textures d !!! i) =? 0 then units
          else <[i := textures d !!! i]> units)
       units)
  = length units.
Proof.
  induction k as [|k IH].
  - reflexivity.
  - rewrite for_loop_succ.
    destruct (textures d !!! k =? 0); [exact IH|].
    rewrite length_insert. exact IH.
Qed.

(** The flush binds the handle in the last occupied slot to its unit. *)
Lemma bind_textures_last (d : RendererData) (k : nat) (units : list Z) :
  texture_slot_index d = Z.of_nat (S k) ->
  textures d !!! k <> 0 ->
  (k < length units)%nat ->
  bind_textures d units !!! k = textures d !!! k.
Proof.
  intros Hn Hid Hk. unfold bind_textures. rewrite Hn, for_loop_succ.
  destruct (Z.eqb_spec (textures d !!! k) 0) as [E|_]; [contradiction|].
  apply list_lookup_total_insert_eq. rewrite bind_loop_length. exact Hk.
Qed.

Lemma CalculateTextureIndex_fills id w :
  0 <= texture_slot_index (data w) ->
  texture_slot_index (data w) + 1 = MAX_TEXTURE_SLOTS ->
  MAX_TEXTURE_SLOTS < U32 ->
  has_slot id (data w) = false ->
  CalculateTextureIndex id w
  = (F32.of_Z (texture_slot_index (data w)), NewBatch (appended id w)).
Proof.
  intros Hlo Hfull Hmax Hno.
  unfold has_slot in Hno. apply negb_false_iff in Hno.
  unfold CalculateTextureIndex. fold (scan_slots id (data w)). rewrite Hno.
  proj.
  match goal with
  | |- context [?a =? MAX_TEXTURE_SLOTS] =>
      replace (a =? MAX_TEXTURE_SLOTS) with true
        by (symmetry; apply Z.eqb_eq; rewrite add32_small; lia)
  end.
  reflexivity.
Qed.

Lemma CalculateTextureIndex_empty id w :
  texture_slot_index (data w) = 0 ->
  fst (CalculateTextureIndex id w) = F32.zero
  /\ has_slot id (data w) = false.
Proof.
  intros E. unfold has_slot, scan_slots, CalculateTextureIndex.
  rewrite E, for_loop_0.
  change (F32.eqb F32.neg_one F32.neg_one) with true.
  cbv iota. cbn [fst negb]. split; [|reflexivity].
  change (texture_slot_index
            (set_textures (<[Z.to_nat 0 := id]> (textures (data w))) (data w)))
    with (texture_slot_index (data w)).
  rewrite E. reflexivity.
Qed.

(** C3 (what the code does when the table fills up).  When the handle a
    request appends brings the slot count to [MAX_TEXTURE_SLOTS], the
    batch is flushed right after the assignment (that flush binds the
    handle to its unit) and a new batch starts with an empty table, so the
    next handle requested gets slot 0.  The request still returns the
    index of the slot it filled, and the quad it was made for is written
    into the new batch with that index, although the slot table of the new
    batch holds no handle at all. *)
Theorem C3_full_table_flush pos size col id id' w :
  0 <= texture_slot_index (data w) ->
  texture_slot_index (data w) + 1 = MAX_TEXTURE_SLOTS ->
  MAX_TEXTURE_SLOTS < U32 ->
  (Z.to_nat (texture_slot_index (data w)) < length (textures (data w)))%nat ->
  (Z.to_nat (texture_slot_index (data w)) < length (texture_units (gl w)))%nat ->
  has_slot id (data w) = false ->
  id <> 0 ->
  4 <= MAX_VERTEX_COUNT -> MAX_VERTEX_COUNT + 4 < U32 ->
  let n := texture_slot_index (data w) in
  let result := CalculateTextureIndex id w in
  let quad := DrawQuad_texture_id pos size id col w in
  fst result = F32.of_Z n
  /\ (exists c,
        draw_calls (gl (snd result)) = draw_calls (gl w) ++ [c]
        /\ call_texture_units c !!! Z.to_nat n = id
        /\ call_vertex_data c = vertices (data w))
  /\ texture_slot_index (data (snd result)) = 0
  /\ vertices (data (snd result)) = []
  /\ fst (CalculateTextureIndex id' (snd result)) = F32.zero
  /\ gl quad = gl (snd result)
  /\ length (vertices (data quad)) = 4%nat
  /\ Forall (fun v => texture_id v = F32.of_Z n) (vertices (data quad))
  /\ texture_slot_index (data quad) = 0
  /\ has_slot id (data quad) = false.
Proof.
  intros Hlo Hfull Hmax Hlen Hunits Hno Hid Hv Hv4 n result quad.
  assert (Hres : result = (F32.of_Z n, NewBatch (appended id w)))
    by (apply CalculateTextureIndex_fills; assumption).
  assert (Hquad : quad
            = emit 4 6
                (quad_vertex (GetModelMatrix (flags (data w)) pos size) col
                   (F32.of_Z n) TEX_COORDS)
                (on_data CalculateSquareIndices (NewBatch (appended id w)))).
  { subst quad. unfold DrawQuad_texture_id. fold result. rewrite Hres.
    apply DrawQuad_mat_fits.
    - rewrite num_NewBatch. lia.
    - rewrite num_NewBatch. lia.
    - exact Hv4. }
  rewrite Hres. cbn [fst snd].
  split; [reflexivity|].
  split.
  { eexists. split; [reflexivity|]. split; [|reflexivity].
    cbn [call_texture_units].
    assert (Htsi : texture_slot_index (data (appended id w))
                   = Z.of_nat (S (Z.to_nat n))).
    { unfold appended. rewrite data_on_data. proj.
      rewrite add32_small by (subst n; proj; lia). subst n. proj. lia. }
    assert (Htex : textures (data (appended id w)) !!! Z.to_nat n = id).
    { unfold appended. rewrite data_on_data. proj.
      apply list_lookup_total_insert_eq. exact Hlen. }
    transitivity (textures (data (appended id w)) !!! Z.to_nat n);
      [|exact Htex].
    apply bind_textures_last; [exact Htsi | rewrite Htex; exact Hid | exact Hunits]. }
  split; [reflexivity|]. split; [reflexivity|].
  split; [apply CalculateTextureIndex_empty; reflexivity|].
  rewrite Hquad.
  split; [reflexivity|]. split; [reflexivity|].
  split; [repeat constructor|]. split; [reflexivity|].
  apply (CalculateTextureIndex_empty id). reflexivity.
Qed.

End FullTable.

(** ** What a scene uploads *)

Section Stream.
Context `{RendererH} `{Collaborators}.

Lemma extends_refl n0 w :
  (n0 <= length (draw_calls (gl w)))%nat -> extends n0 0 w w.
Proof.
  intros Hn. split; [exact Hn|]. exists []. rewrite app_nil_r. auto.
Qed.

Lemma extends_trans n0 a b w w1 w2 :
  extends n0 a w w1 -> extends n0 b w1 w2 -> extends n0 (a + b) w w2.
Proof.
  intros (_ & vs1 & E1 & L1) (Hn & vs2 & E2 & L2).
  split; [exact Hn|]. exists (vs1 ++ vs2).
  rewrite E2, E1, <- app_assoc, length_app, L1, L2. auto.
Qed.

Lemma extends_on_data n0 f w :
  vertices (f (data w)) = vertices (data w) ->
  (n0 <= length (draw_calls (gl w)))%nat -> extends n0 0 w (on_data f w).
Proof.
  intros Hv Hn. split; [exact Hn|]. exists [].
  unfold vertex_stream, uploaded_vertices, calls_since.
  rewrite gl_on_data, data_on_data, Hv, app_nil_r. split; reflexivity.
Qed.

Lemma extends_NewBatch n0 w :
  (n0 <= length (draw_calls (gl w)))%nat -> extends n0 0 w (NewBatch w).
Proof.
  intros Hn. split.
  - unfold NewBatch, Render. proj. rewrite length_app. lia.
  - exists []. unfold vertex_stream, uploaded_vertices, calls_since.
    unfold NewBatch, StartBatch, Render. proj.
    rewrite drop_app_le by exact Hn.
    rewrite map_app, concat_app. cbn [map concat call_vertex_data].
    rewrite !app_nil_r. split; reflexivity.
Qed.

Lemma extends_emit n0 k n mk w :
  (n0 <= length (draw_calls (gl w)))%nat -> extends n0 k w (emit k n mk w).
Proof.
  intros Hn. split; [exact Hn|].
  exists (map (fun i => mk i (current_material_id (data w))) (seq 0 k)).
  split; [|rewrite length_map, length_seq; reflexivity].
  unfold vertex_stream, uploaded_vertices, calls_since, emit,
    add_to_command_size, written. proj.
  rewrite app_assoc. reflexivity.
Qed.


Lemma extends_step n0 k w w1 w2 :
  extends n0 0 w w1 -> extends n0 k w1 w2 -> extends n0 k w w2.
Proof. intros H1 H2. exact (extends_trans n0 0 k w w1 w2 H1 H2). Qed.

Lemma extends_calls n0 k w w' :
  extends n0 k w w' -> (n0 <= length (draw_calls (gl w')))%nat.
Proof. intros [Hn _]. exact Hn. Qed.

Lemma extends_check_capacity n0 k w :
  (n0 <= length (draw_calls (gl w)))%nat ->
  extends n0 0 w (check_capacity k w).
Proof.
  intros Hn. destruct (check_capacity_cases k w) as [[_ ->]|[_ ->]];
    [apply extends_refl | apply extends_NewBatch]; exact Hn.
Qed.

Lemma CalculateTextureIndex_cases id w :
  (has_slot id (data w) = true
   /\ CalculateTextureIndex id w = (scan_slots id (data w), w))
  \/ (has_slot id (data w) = false
      /\ add32 (texture_slot_index (data w)) 1 <> MAX_TEXTURE_SLOTS
      /\ CalculateTextureIndex id w
         = (F32.of_Z (texture_slot_index (data w)), appended id w))
  \/ (has_slot id (data w) = false
      /\ add32 (texture_slot_index (data w)) 1 = MAX_TEXTURE_SLOTS
      /\ CalculateTextureIndex id w
         = (F32.of_Z (texture_slot_index (data w)), NewBatch (appended id w))).
Proof.
  destruct (has_slot id (data w)) eqn:E.
  - left. split; [reflexivity|]. apply CalculateTextureIndex_present. exact E.
  - right. unfold has_slot in E. apply negb_false_iff in E.
    unfold CalculateTextureIndex. fold (scan_slots id (data w)). rewrite E.
    proj.
    match goal with
    | |- context [?a =? MAX_TEXTURE_SLOTS] =>
        destruct (Z.eqb_spec a MAX_TEXTURE_SLOTS) as [Hfull|Hroom]
    end;
      [right | left]; (split; [reflexivity|]);
      (split; [first [exact Hfull | exact Hroom]|]); reflexivity.
Qed.

Lemma extends_CalculateTextureIndex n0 id w :
  (n0 <= length (draw_calls (gl w)))%nat ->
  extends n0 0 w (snd (CalculateTextureIndex id w)).
Proof.
  intros Hn.
  destruct (CalculateTextureIndex_cases id w)
    as [[_ ->]|[(_ & _ & ->)|(_ & _ & ->)]]; cbn [snd].
  - apply extends_refl; exact Hn.
  - apply extends_on_data; [reflexivity | exact Hn].
  - apply (extends_step n0 0 w (appended id w)).
    + apply extends_on_data; [reflexivity | exact Hn].
    + apply extends_NewBatch. exact Hn.
Qed.

Lemma extends_ready n0 k f w :
  (forall d, vertices (f d) = vertices d) ->
  (n0 <= length (draw_calls (gl w)))%nat ->
  extends n0 0 w (on_data f (check_capacity k w)).
Proof.
  intros Hf Hn.
  apply (extends_step n0 0 w (check_capacity k w)).
  - apply extends_check_capacity; exact Hn.
  - apply extends_on_data; [apply Hf|].
    exact (extends_calls _ _ _ _ (extends_check_capacity n0 k w Hn)).
Qed.

Lemma extends_emit_after n0 k n mk w w1 :
  extends n0 0 w w1 -> extends n0 k w (emit k n mk w1).
Proof.
  intros Hw1. apply (extends_step n0 k w w1 _ Hw1).
  apply extends_emit. exact (extends_calls _ _ _ _ Hw1).
Qed.

Lemma extends_DrawQuad_mat n0 translation col tex tc w :
  (n0 <= length (draw_calls (gl w)))%nat ->
  extends n0 4 w (DrawQuad_mat translation col tex tc w).
Proof.
  intros Hn. rewrite DrawQuad_mat_emit. apply extends_emit_after.
  apply extends_ready; [reflexivity | exact Hn].
Qed.

Lemma extends_DrawCube_mat n0 translation col tex tc w :
  (n0 <= length (draw_calls (gl w)))%nat ->
  extends n0 24 w (DrawCube_mat translation col tex tc w).
Proof.
  intros Hn. rewrite DrawCube_mat_emit. apply extends_emit_after.
  exact (extends_ready n0 CUBE_VERTEX_COUNT
           (Nat.iter 6 CalculateSquareIndices) w (fun d => eq_refl) Hn).
Qed.

Lemma extends_DrawTriangle n0 pos size col w :
  (n0 <= length (draw_calls (gl w)))%nat ->
  extends n0 3 w (DrawTriangle pos size col w).
Proof.
  intros Hn. rewrite DrawTriangle_emit. apply extends_emit_after.
  apply extends_ready; [reflexivity | exact Hn].
Qed.

Lemma extends_DrawTriangle_rotated n0 pos rot axis size col w :
  (n0 <= length (draw_calls (gl w)))%nat ->
  extends n0 3 w (DrawTriangle_rotated pos rot axis size col w).
Proof.
  intros Hn. rewrite DrawTriangle_rotated_emit. apply extends_emit_after.
  apply extends_ready; [reflexivity | exact Hn].
Qed.

Lemma extends_RenderGlyph n0 font y scl col c x w :
  (n0 <= length (draw_calls (gl w)))%nat ->
  extends n0 4 w (snd (RenderGlyph font y scl col c (x, w))).
Proof.
  intros Hn. rewrite RenderGlyph_emit. cbn [snd]. apply extends_emit_after.
  unfold glyph_ready, CalculateTextureIndex_texture. fold (quad_ready w).
  assert (Hq : extends n0 0 w (quad_ready w))
    by (apply extends_ready; [reflexivity | exact Hn]).
  apply (extends_step n0 0 w (quad_ready w) _ Hq).
  apply extends_CalculateTextureIndex. exact (extends_calls _ _ _ _ Hq).
Qed.

Lemma length_list_ascii_of_string (s : string) :
  length (list_ascii_of_string s) = String.length s.
Proof. induction s as [|a s IH]; cbn; [reflexivity | rewrite IH; reflexivity]. Qed.

Lemma extends_glyphs n0 font y scl col cs x w :
  (n0 <= length (draw_calls (gl w)))%nat ->
  extends n0 (4 * length cs) w
    (snd (fold_left (fun xw c => RenderGlyph font y scl col c xw) cs (x, w))).
Proof.
  revert x w. induction cs as [|c cs IH]; intros x w Hn.
  - apply extends_refl. exact Hn.
  - cbn [fold_left].
    pose proof (extends_RenderGlyph n0 font y scl col c x w Hn) as Hg.
    destruct (RenderGlyph font y scl col c (x, w)) as [x1 w1].
    cbn [snd] in Hg.
    replace (4 * length (c :: cs))%nat with (4 + 4 * length cs)%nat
      by (cbn [length]; lia).
    apply (extends_trans n0 4 _ w w1 _ Hg).
    apply IH. exact (extends_calls _ _ _ _ Hg).
Qed.

Lemma extends_exec n0 c w :
  (n0 <= length (draw_calls (gl w)))%nat ->
  extends n0 (vertices_of c) w (exec c w).
Proof.
  intros Hn.
  destruct c; cbn [exec vertices_of];
    unfold DrawQuad_color, DrawQuad_texture, DrawQuad_texture_id,
      DrawQuad_coords, DrawQuad_texture_coords, DrawRotatedQuad_color,
      DrawRotatedQuad_texture, DrawRotatedQuad_coords,
      DrawRotatedQuad_coords_texture, DrawLine, DrawCube_color,
      DrawCube_texture, CalculateTextureIndex_texture;
    try match goal with
        | |- context [CalculateTextureIndex ?id ?w0] =>
            pose proof (extends_CalculateTextureIndex n0 id w0 Hn) as Ha;
            destruct (CalculateTextureIndex id w0) as [tex w1];
            cbn [snd] in Ha;
            apply (extends_step n0 _ w w1 _ Ha);
            apply extends_calls in Ha
        end;
    lazymatch goal with
    | |- extends _ _ _ (DrawQuad_mat _ _ _ _ _) =>
        apply extends_DrawQuad_mat; assumption
    | |- extends _ _ _ (DrawCube_mat _ _ _ _ _) =>
        apply extends_DrawCube_mat; assumption
    | |- extends _ _ _ (DrawTriangle _ _ _ _) =>
        apply extends_DrawTriangle; assumption
    | |- extends _ _ _ (DrawTriangle_rotated _ _ _ _ _ _) =>
        apply extends_DrawTriangle_rotated; assumption
    | |- extends _ _ _ (RenderText _ _ _ _ _ _) =>
        rewrite <- length_list_ascii_of_string;
        apply extends_glyphs; assumption
    | |- _ => apply extends_on_data; [reflexivity | assumption]
    end.
Qed.

Lemma extends_run n0 cs w :
  (n0 <= length (draw_calls (gl w)))%nat ->
  extends n0 (list_sum (map vertices_of cs)) w (run cs w).
Proof.
  revert w. unfold run. induction cs as [|c cs IH]; intros w Hn.
  - apply extends_refl. exact Hn.
  - cbn [fold_left map list_sum].
    pose proof (extends_exec n0 c w Hn) as Hc.
    apply (extends_trans n0 _ _ w (exec c w) _ Hc).
    apply IH. exact (extends_calls _ _ _ _ Hc).
Qed.


Lemma uploaded_EndScene n0 w :
  (n0 <= length (draw_calls (gl w)))%nat ->
  uploaded_vertices n0 (EndScene w) = vertex_stream n0 w.
Proof.
  intros Hn. unfold uploaded_vertices, vertex_stream, uploaded_vertices,
    calls_since, EndScene, Render. proj.
  rewrite drop_app_le by exact Hn.
  rewrite map_app, concat_app. cbn [map concat call_vertex_data].
  rewrite app_nil_r. reflexivity.
Qed.


Lemma calls_BeginScene cam fl w0 :
  draw_calls (gl (BeginScene cam fl w0)) = draw_calls (gl w0).
Proof. reflexivity. Qed.

Lemma run_app cs1 cs2 w : run (cs1 ++ cs2) w = run cs2 (run cs1 w).
Proof. unfold run. apply fold_left_app. Qed.


End Stream.

(** ** Invariants of a scene, call by call *)

Section Dispatch.
Context `{RendererH} `{Collaborators}.
Variable P : World -> Prop.
Variable allowed : Call -> bool.
Hypothesis P_quad :
  forall mk w, stamps mk -> P w -> P (emit 4 6 mk (quad_ready w)).
Hypothesis P_triangle :
  forall mk w, stamps mk -> P w -> P (emit 3 3 mk (triangle_ready w)).
Hypothesis P_cube :
  forall mk w, stamps mk -> P w -> P (emit 24 36 mk (cube_ready w)).
Hypothesis P_alloc : forall id w, P w -> P (snd (CalculateTextureIndex id w)).
Hypothesis P_other :
  forall c w, is_draw c = false -> allowed c = true -> P w -> P (exec c w).

Lemma dispatch_DrawQuad_mat translation col tex tc w :
  P w -> P (DrawQuad_mat translation col tex tc w).
Proof.
  intros Hw. rewrite DrawQuad_mat_emit. apply P_quad; [|exact Hw].
  intros i m. reflexivity.
Qed.

Lemma dispatch_DrawCube_mat translation col tex tc w :
  P w -> P (DrawCube_mat translation col tex tc w).
Proof.
  intros Hw. rewrite DrawCube_mat_emit. apply P_cube; [|exact Hw].
  intros i m. reflexivity.
Qed.

Lemma dispatch_DrawTriangle pos size col w :
  P w -> P (DrawTriangle pos size col w).
Proof.
  intros Hw. rewrite DrawTriangle_emit. apply P_triangle; [|exact Hw].
  intros i m. reflexivity.
Qed.

Lemma dispatch_DrawTriangle_rotated pos rot axis size col w :
  P w -> P (DrawTriangle_rotated pos rot axis size col w).
Proof.
  intros Hw. rewrite DrawTriangle_rotated_emit. apply P_triangle; [|exact Hw].
  intros i m. reflexivity.
Qed.

Lemma dispatch_exec c w : allowed c = true -> P w -> P (exec c w).
Proof.
  intros Hc Hw.
  destruct (is_draw c) eqn:Hd; [|apply P_other; assumption].
  clear Hc.
  destruct c; try discriminate Hd; cbn [exec];
    unfold DrawQuad_color, DrawQuad_texture, DrawQuad_texture_id,
      DrawQuad_coords, DrawQuad_texture_coords, DrawRotatedQuad_color,
      DrawRotatedQuad_texture, DrawRotatedQuad_coords,
      DrawRotatedQuad_coords_texture, DrawLine, DrawCube_color,
      DrawCube_texture, CalculateTextureIndex_texture;
    try match goal with
        | |- context [CalculateTextureIndex ?id ?w0] =>
            pose proof (P_alloc id w0 Hw);
            destruct (CalculateTextureIndex id w0) as [tex w1];
            cbn [snd] in *
        end;
    lazymatch goal with
    | |- P (DrawQuad_mat _ _ _ _ _) => apply dispatch_DrawQuad_mat; assumption
    | |- P (DrawCube_mat _ _ _ _ _) => apply dispatch_DrawCube_mat; assumption
    | |- P (DrawTriangle _ _ _ _) => apply dispatch_DrawTriangle; assumption
    | |- P (DrawTriangle_rotated _ _ _ _ _ _) =>
        apply dispatch_DrawTriangle_rotated; assumption
    end.
Qed.

Lemma dispatch_run cs w :
  Forall (fun c => allowed c = true) cs -> P w -> P (run cs w).
Proof.
  intros Hcs. revert w. unfold run.
  induction Hcs as [|c cs Hc Hcs IH]; intros w Hw; cbn [fold_left].
  - exact Hw.
  - apply IH, dispatch_exec; assumption.
Qed.

End Dispatch.

Section Glyphs.
Context `{RendererH} `{Collaborators}.
Variable P : World -> Prop.
Hypothesis P_glyph :
  forall font mk w, stamps mk -> P w ->
    P (emit 4 6 mk (snd (glyph_ready font w))).

Lemma glyphs_RenderText font text pos scl col w :
  P w -> P (RenderText font text pos scl col w).
Proof.
  unfold RenderText. generalize (x2 pos) as x. revert w.
  induction (list_ascii_of_string text) as [|c cs IH]; intros w x Hw.
  - exact Hw.
  - cbn [fold_left]. rewrite RenderGlyph_emit. apply IH.
    apply P_glyph; [|exact Hw]. intros i m. reflexivity.
Qed.

End Glyphs.

(** Invariants that every flush and every single update keeps. *)
Section Stepwise.
Context `{RendererH} `{Collaborators}.
Variable Q : World -> Prop.
Variable allowed : Call -> bool.
Hypothesis Q_NewBatch : forall w, Q w -> Q (NewBatch w).
Hypothesis Q_square : forall w, Q w -> Q (on_data CalculateSquareIndices w).
Hypothesis Q_triangle :
  forall w, Q w -> Q (on_data CalculateTriangleIndices w).
Hypothesis Q_slot : forall id w, Q w -> Q (snd (CalculateTextureIndex id w)).
Hypothesis Q_emit : forall k n mk w, stamps mk -> Q w -> Q (emit k n mk w).
Hypothesis Q_setter :
  forall c w, is_draw c = false -> is_text c = false -> allowed c = true ->
    Q w -> Q (exec c w).

Lemma stepwise_check_capacity k w : Q w -> Q (check_capacity k w).
Proof.
  intros Hw. destruct (check_capacity_cases k w) as [[_ ->]|[_ ->]]; auto.
Qed.

Lemma stepwise_quad_ready w : Q w -> Q (quad_ready w).
Proof. intros Hw. apply Q_square, stepwise_check_capacity, Hw. Qed.

Lemma stepwise_cube_ready w : Q w -> Q (cube_ready w).
Proof.
  intros Hw. unfold cube_ready.
  change (for_loop CUBE_FACES (fun _ w => on_data CalculateSquareIndices w)
            (check_capacity CUBE_VERTEX_COUNT w))
    with (Nat.iter 6 (on_data CalculateSquareIndices)
            (check_capacity CUBE_VERTEX_COUNT w)).
  cbn [Nat.iter nat_rect].
  do 6 apply Q_square. apply stepwise_check_capacity, Hw.
Qed.

Lemma stepwise_exec c w : allowed c = true -> Q w -> Q (exec c w).
Proof.
  apply (dispatch_exec Q allowed).
  - intros mk w0 Hmk Hw. apply Q_emit; [exact Hmk|].
    apply stepwise_quad_ready, Hw.
  - intros mk w0 Hmk Hw. apply Q_emit; [exact Hmk|].
    apply Q_triangle, stepwise_check_capacity, Hw.
  - intros mk w0 Hmk Hw. apply Q_emit; [exact Hmk|].
    apply stepwise_cube_ready, Hw.
  - exact Q_slot.
  - intros c0 w0 Hd Ha Hw. destruct (is_text c0) eqn:Ht.
    + destruct c0; try discriminate Ht. cbn [exec].
      apply (glyphs_RenderText Q); [|exact Hw].
      intros font0 mk w1 Hmk Hw1. apply Q_emit; [exact Hmk|].
      unfold glyph_ready, CalculateTextureIndex_texture.
      apply Q_slot. fold (quad_ready w1). apply stepwise_quad_ready, Hw1.
    + apply Q_setter; assumption.
Qed.

Lemma stepwise_run cs w :
  Forall (fun c => allowed c = true) cs -> Q w -> Q (run cs w).
Proof.
  intros Hcs. revert w. unfold run.
  induction Hcs as [|c cs Hc Hcs IH]; intros w Hw; cbn [fold_left].
  - exact Hw.
  - apply IH, stepwise_exec; assumption.
Qed.

End Stepwise.

(** ** The polygon mode *)

Section PolygonMode.
Context `{RendererH} `{Collaborators}.

Lemma polygon_Render fl w0 w :
  polygon_inv fl w0 w ->
  polygon_inv fl w0 (Render w)
  /\ polygon_mode_line (gl (Render w)) = line_mode_of fl w0.
Proof.
  intros (Hf & Hn & Hc & Hm).
  assert (Hline : (if Z.land (flags (data w)) RenderFlags_PolygonMode =? 0
                   then polygon_mode_line (gl w) else true)
                  = line_mode_of fl w0).
  { rewrite Hf. unfold line_mode_of in *.
    destruct (Z.land fl RenderFlags_PolygonMode =? 0); cbn [negb] in *.
    - rewrite orb_false_r in *. destruct Hm as [-> | ->]; reflexivity.
    - rewrite orb_true_r. reflexivity. }
  split; [|exact Hline].
  unfold polygon_inv, calls_since, Render. proj.
  split; [exact Hf|]. rewrite length_app. split; [lia|].
  rewrite drop_app_le by exact Hn. split.
  - apply Forall_app. split; [exact Hc|].
    constructor; [exact Hline | constructor].
  - left. exact Hline.
Qed.

Lemma polygon_on_data fl w0 f w :
  flags (f (data w)) = flags (data w) ->
  polygon_inv fl w0 w -> polygon_inv fl w0 (on_data f w).
Proof.
  intros Hfl (Hf & Hn & Hc & Hm). unfold polygon_inv, calls_since.
  rewrite gl_on_data, data_on_data, Hfl. auto.
Qed.

Lemma polygon_NewBatch fl w0 w :
  polygon_inv fl w0 w -> polygon_inv fl w0 (NewBatch w).
Proof.
  intros Hw. apply (polygon_on_data fl w0 StartBatch (Render w));
    [reflexivity|]. apply polygon_Render, Hw.
Qed.

Lemma polygon_run fl w0 cs w :
  polygon_inv fl w0 w -> polygon_inv fl w0 (run cs w).
Proof.
  apply (stepwise_run (polygon_inv fl w0) (fun _ => true)).
  - apply polygon_NewBatch.
  - intros w1. apply polygon_on_data. reflexivity.
  - intros w1. apply polygon_on_data. reflexivity.
  - intros id w1 Hw1.
    destruct (CalculateTextureIndex_cases id w1)
      as [[_ ->]|[(_ & _ & ->)|(_ & _ & ->)]]; cbn [snd].
    + exact Hw1.
    + apply polygon_on_data; [reflexivity | exact Hw1].
    + apply polygon_NewBatch, polygon_on_data; [reflexivity | exact Hw1].
  - intros k n mk w1 _. apply polygon_on_data. reflexivity.
  - intros c w1 Hd Ht _ Hw1.
    destruct c; try discriminate Hd; try discriminate Ht; cbn [exec];
      (apply polygon_on_data; [reflexivity | exact Hw1]).
  - apply Forall_forall. intros; reflexivity.
Qed.

Lemma polygon_BeginScene cam fl w0 : polygon_inv fl w0 (BeginScene cam fl w0).
Proof.
  unfold polygon_inv, calls_since, BeginScene, StartBatch. proj.
  split; [reflexivity|]. split; [lia|]. rewrite drop_all.
  split; [constructor | right; reflexivity].
Qed.

Lemma polygon_scene cam fl cs w0 :
  Forall (fun c => call_polygon_line c = line_mode_of fl w0)
    (calls_since (length (draw_calls (gl w0))) (scene cam fl cs w0))
  /\ polygon_mode_line (gl (scene cam fl cs w0)) = line_mode_of fl w0.
Proof.
  pose proof (polygon_run fl w0 cs _ (polygon_BeginScene cam fl w0)) as Hrun.
  unfold scene, EndScene.
  destruct (polygon_Render fl w0
              (on_data GoToNextDrawCommand
                 (on_data MakeCommand (run cs (BeginScene cam fl w0)))))
    as [(_ & _ & Hc & _) Hm].
  - apply polygon_on_data; [reflexivity|].
    apply polygon_on_data; [reflexivity | exact Hrun].
  - split; assumption.
Qed.

(** X8.  The flushes of a scene all run in one polygon mode: line mode if
    the scene's flags have the [PolygonMode] bit set or if line mode was on
    when the scene began, fill mode otherwise.  The renderer never switches
    line mode off: once a scene has used it, every flush of every later
    scene is in line mode too, whatever that scene's flags are. *)
Theorem polygon_mode_is_never_reset cam fl cs w0 :
  let w := scene cam fl cs w0 in
  (Forall (fun c => call_polygon_line c = line_mode_of fl w0)
     (calls_since (length (draw_calls (gl w0))) w)
   /\ polygon_mode_line (gl w) = line_mode_of fl w0)
  /\ (line_mode_of fl w0 = true ->
      forall cam' fl' cs',
        Forall (fun c => call_polygon_line c = true)
          (calls_since (length (draw_calls (gl w))) (scene cam' fl' cs' w))
        /\ polygon_mode_line (gl (scene cam' fl' cs' w)) = true).
Proof.
  intros w. pose proof (polygon_scene cam fl cs w0) as Hscene.
  split; [exact Hscene|].
  intros Hline cam' fl' cs'. destruct Hscene as [_ Hmode]. fold w in Hmode.
  assert (Hnext : line_mode_of fl' w = true).
  { unfold line_mode_of at 1. rewrite Hmode, Hline. reflexivity. }
  pose proof (polygon_scene cam' fl' cs' w) as Hscene'.
  rewrite Hnext in Hscene'. exact Hscene'.
Qed.

End PolygonMode.

(** ** The shader a flush binds *)

Section Shaders.
Context `{RendererH} `{Collaborators}.

Lemma shader_on_data s s0 n0 f w :
  current_shader (f (data w)) = current_shader (data w) ->
  default_shader (f (data w)) = default_shader (data w) ->
  shader_inv s s0 n0 w -> shader_inv s s0 n0 (on_data f w).
Proof.
  intros Hc Hd (Hs & Hdef & Hn & Hcalls). unfold shader_inv, calls_since.
  rewrite gl_on_data, data_on_data, Hc, Hd. auto.
Qed.

Lemma shader_Render s s0 n0 w :
  shader_inv s s0 n0 w -> shader_inv s s0 n0 (Render w).
Proof.
  intros (Hs & Hdef & Hn & Hcalls). unfold shader_inv, calls_since, Render.
  proj. split; [exact Hs|]. split; [exact Hdef|].
  rewrite length_app. split; [lia|].
  rewrite drop_app_le by exact Hn. apply Forall_app. split; [exact Hcalls|].
  constructor; [exact Hs | constructor].
Qed.

Lemma shader_NewBatch s s0 n0 w :
  shader_inv s s0 n0 w -> shader_inv s s0 n0 (NewBatch w).
Proof.
  intros Hw. apply (shader_on_data s s0 n0 StartBatch (Render w));
    [reflexivity | reflexivity |]. apply shader_Render, Hw.
Qed.

Lemma shader_run s s0 n0 cs w :
  Forall (fun c => keeps_shader s s0 c = true) cs ->
  shader_inv s s0 n0 w -> shader_inv s s0 n0 (run cs w).
Proof.
  apply (stepwise_run (shader_inv s s0 n0) (keeps_shader s s0)).
  - apply shader_NewBatch.
  - intros w1. apply shader_on_data; reflexivity.
  - intros w1. apply shader_on_data; reflexivity.
  - intros id w1 Hw1.
    destruct (CalculateTextureIndex_cases id w1)
      as [[_ ->]|[(_ & _ & ->)|(_ & _ & ->)]]; cbn [snd].
    + exact Hw1.
    + apply shader_on_data; [reflexivity | reflexivity | exact Hw1].
    + apply shader_NewBatch, shader_on_data;
        [reflexivity | reflexivity | exact Hw1].
  - intros k n mk w1 _. apply shader_on_data; reflexivity.
  - intros c w1 Hd Ht Ha Hw1.
    destruct c; try discriminate Hd; try discriminate Ht;
      try discriminate Ha; cbn [exec].
    + cbn [keeps_shader] in Ha. apply Z.eqb_eq in Ha.
      destruct Hw1 as (Hs & Hdef & Hn & Hcalls).
      unfold shader_inv, calls_since, SetShaderToDefualt. proj.
      rewrite Hdef. auto.
    + apply shader_on_data; [reflexivity | reflexivity | exact Hw1].
Qed.

Lemma shader_BeginScene cam fl w0 :
  shader_inv (default_shader (data w0)) (default_shader (data w0))
    (length (draw_calls (gl w0))) (BeginScene cam fl w0).
Proof.
  unfold shader_inv, calls_since, BeginScene, StartBatch. proj.
  rewrite drop_all. repeat split; constructor.
Qed.

Lemma shader_EndScene s s0 n0 w :
  shader_inv s s0 n0 w -> shader_inv s s0 n0 (EndScene w).
Proof.
  intros Hw. unfold EndScene. apply shader_Render.
  apply shader_on_data; [reflexivity | reflexivity |].
  apply shader_on_data; [reflexivity | reflexivity | exact Hw].
Qed.

(** X9.  In a scene that never calls [SetShader], every flush binds the
    default shader, whatever shader the previous scene ended with:
    [BeginScene] makes the default shader current, and no drawing call,
    flush, [SetShaderToDefualt] or [SetMaterialId] changes that.  At the end
    of the scene [GetShaderId] still reports the default shader. *)
Theorem scene_without_SetShader_binds_default cam fl cs w0 :
  Forall (fun c => sets_shader c = false) cs ->
  let w := scene cam fl cs w0 in
  Forall (fun c => call_shader c = default_shader (data w0))
    (calls_since (length (draw_calls (gl w0))) w)
  /\ GetShaderId w = default_shader (data w0)
  /\ default_shader (data w) = default_shader (data w0).
Proof.
  intros Hcs w.
  assert (Hend : shader_inv (default_shader (data w0))
                   (default_shader (data w0))
                   (length (draw_calls (gl w0))) w).
  { subst w. unfold scene. apply shader_EndScene.
    apply shader_run; [|apply shader_BeginScene].
    eapply Forall_impl; [exact Hcs|]. intros c Hc.
    destruct c; try discriminate Hc; try reflexivity.
    apply Z.eqb_refl. }
  destruct Hend as (Hs & Hdef & _ & Hcalls).
  split; [exact Hcalls|]. split; [exact Hs | exact Hdef].
Qed.

(** X10.  [SetShader] only records the shader: it flushes nothing, so the
    geometry staged before the call is drawn with the new shader.  If no
    later call of the scene changes the shader again, every draw call issued
    after [SetShader s] binds [s], and together these calls upload first the
    vertices that were staged when [SetShader] was called and then the
    vertices emitted after it.  (The vertex limit leaves room for the
    largest primitive.) *)
Theorem SetShader_applies_to_staged_geometry cam fl cs s later w0 :
  header_ok ->
  Forall (fun c => changes_shader c = false) later ->
  let before := run cs (BeginScene cam fl w0) in
  let n1 := length (draw_calls (gl before)) in
  let w := scene cam fl (cs ++ CSetShader s :: later) w0 in
  gl (SetShader s before) = gl before
  /\ Forall (fun c => call_shader c = s) (calls_since n1 w)
  /\ exists vs,
       uploaded_vertices n1 w = vertices (data before) ++ vs
       /\ length vs = list_sum (map vertices_of later).
Proof.
  intros _ Hlater before n1 w. split; [reflexivity|].
  assert (Hw : w = EndScene (run later (SetShader s before))).
  { subst w. unfold scene. rewrite run_app. reflexivity. }
  rewrite Hw. split.
  - assert (Hinv : shader_inv s (default_shader (data before)) n1
                     (SetShader s before)).
    { unfold shader_inv, calls_since, SetShader. proj.
      subst n1. rewrite drop_all. repeat split; constructor. }
    apply (shader_run s _ n1 later) in Hinv.
    + apply shader_EndScene in Hinv. apply Hinv.
    + eapply Forall_impl; [exact Hlater|]. intros c Hc.
      destruct c; try discriminate Hc; reflexivity.
  - destruct (extends_run n1 later (SetShader s before)) as (Hn & vs & E & L);
      [reflexivity|].
    exists vs. rewrite uploaded_EndScene by exact Hn. rewrite E.
    split; [|exact L]. f_equal.
    unfold vertex_stream, uploaded_vertices, calls_since, SetShader. proj.
    subst n1. rewrite drop_all. reflexivity.
Qed.

End Shaders.

(** ** The material a vertex is stamped with *)

Section Materials.
Context `{RendererH} `{Collaborators}.

Lemma stream_on_data n0 f w :
  vertices (f (data w)) = vertices (data w) ->
  vertex_stream n0 (on_data f w) = vertex_stream n0 w.
Proof.
  intros Hv. unfold vertex_stream, uploaded_vertices, calls_since.
  rewrite gl_on_data, data_on_data, Hv. reflexivity.
Qed.

Lemma stream_NewBatch n0 w :
  (n0 <= length (draw_calls (gl w)))%nat ->
  vertex_stream n0 (NewBatch w) = vertex_stream n0 w.
Proof.
  intros Hn. destruct (extends_NewBatch n0 w Hn) as (_ & vs & E & L).
  destruct vs; [|discriminate L]. rewrite app_nil_r in E. exact E.
Qed.

Lemma stream_emit n0 k n mk w :
  vertex_stream n0 (emit k n mk w)
  = vertex_stream n0 w
    ++ map (fun i => mk i (current_material_id (data w))) (seq 0 k).
Proof.
  unfold vertex_stream, uploaded_vertices, calls_since, emit,
    add_to_command_size, written. proj.
  rewrite app_assoc. reflexivity.
Qed.

Lemma material_on_data m n0 base f w :
  current_material_id (f (data w)) = current_material_id (data w) ->
  vertices (f (data w)) = vertices (data w) ->
  material_inv m n0 base w -> material_inv m n0 base (on_data f w).
Proof.
  intros Hm Hv (Hc & Hn & vs & E & Hvs). unfold material_inv.
  rewrite gl_on_data, data_on_data, Hm, (stream_on_data n0 f w Hv).
  split; [exact Hc|]. split; [exact Hn|]. exists vs. auto.
Qed.

Lemma material_NewBatch m n0 base w :
  material_inv m n0 base w -> material_inv m n0 base (NewBatch w).
Proof.
  intros (Hc & Hn & vs & E & Hvs). unfold material_inv.
  rewrite (stream_NewBatch n0 w Hn).
  split; [exact Hc|].
  split; [exact (extends_calls _ _ _ _ (extends_NewBatch n0 w Hn))|].
  exists vs. auto.
Qed.

Lemma material_emit m n0 base k n mk w :
  stamps mk ->
  material_inv m n0 base w -> material_inv m n0 base (emit k n mk w).
Proof.
  intros Hmk (Hc & Hn & vs & E & Hvs). unfold material_inv.
  rewrite stream_emit, E, Hc.
  split; [exact Hc|]. split; [exact Hn|].
  exists (vs ++ map (fun i => mk i m) (seq 0 k)).
  rewrite app_assoc. split; [reflexivity|].
  apply Forall_app. split; [exact Hvs|].
  apply Forall_map_seq. intros i. apply Hmk.
Qed.

Lemma material_run m n0 base cs w :
  Forall (fun c => negb (sets_material c) = true) cs ->
  material_inv m n0 base w -> material_inv m n0 base (run cs w).
Proof.
  apply (stepwise_run (material_inv m n0 base)
           (fun c => negb (sets_material c))).
  - apply material_NewBatch.
  - intros w1. apply material_on_data; reflexivity.
  - intros w1. apply material_on_data; reflexivity.
  - intros id w1 Hw1.
    destruct (CalculateTextureIndex_cases id w1)
      as [[_ ->]|[(_ & _ & ->)|(_ & _ & ->)]]; cbn [snd].
    + exact Hw1.
    + apply material_on_data; [reflexivity | reflexivity | exact Hw1].
    + apply material_NewBatch, material_on_data;
        [reflexivity | reflexivity | exact Hw1].
  - intros k n mk w1. apply material_emit.
  - intros c w1 Hd Ht Ha Hw1.
    destruct c; try discriminate Hd; try discriminate Ht;
      try discriminate Ha; cbn [exec];
      (apply material_on_data; [reflexivity | reflexivity | exact Hw1]).
Qed.

(** X11.  [SetMaterialId m] acts on the vertices emitted after it, and on
    them only.  When no later call of the scene sets a material again, what
    the scene uploads is what it would have uploaded had it ended before the
    [SetMaterialId] (vertices emitted earlier keep their stamp, even those
    still staged when the material changes), followed by the vertices of
    the later calls, every one of them stamped with [(float)m].  (The
    vertex limit leaves room for the largest primitive.) *)
Theorem SetMaterialId_stamps_later_vertices cam fl cs m later w0 :
  header_ok ->
  Forall (fun c => sets_material c = false) later ->
  let n0 := length (draw_calls (gl w0)) in
  exists vs,
    uploaded_vertices n0 (scene cam fl (cs ++ CSetMaterialId m :: later) w0)
      = uploaded_vertices n0 (scene cam fl cs w0) ++ vs
    /\ length vs = list_sum (map vertices_of later)
    /\ Forall (stamped m) vs.
Proof.
  intros _ Hlater n0.
  set (before := run cs (BeginScene cam fl w0)).
  assert (Hn : (n0 <= length (draw_calls (gl before)))%nat).
  { apply (extends_calls n0 (list_sum (map vertices_of cs))
             (BeginScene cam fl w0)).
    apply extends_run. rewrite calls_BeginScene. reflexivity. }
  assert (Hinv : material_inv m n0 (vertex_stream n0 before)
                   (run later (SetMaterialId m before))).
  { apply material_run.
    - eapply Forall_impl; [exact Hlater|]. intros c ->. reflexivity.
    - split; [reflexivity|]. split; [exact Hn|].
      exists []. rewrite app_nil_r. split; [reflexivity | constructor]. }
  destruct Hinv as (_ & Hn' & vs & E & Hvs).
  destruct (extends_run n0 later (SetMaterialId m before) Hn)
    as (_ & vs' & E' & L').
  assert (Hsame : vs = vs').
  { rewrite E in E'. apply app_inv_head in E'. exact E'. }
  subst vs'. exists vs.
  unfold scene. rewrite run_app. cbn [run fold_left exec]. fold before.
  fold (run later (SetMaterialId m before)).
  rewrite !uploaded_EndScene by assumption.
  split; [exact E|]. split; [exact L' | exact Hvs].
Qed.

End Materials.

(** ** The slot table stays sound *)

Section SlotTable.
Context `{RendererH} `{Collaborators}.

Lemma scan_loop_cases (d : RendererData) (id : Z) (k : nat) :
  let r := for_loop (Z.of_nat k)
             (fun i t => if (textures d !!! i) =? id
                         then F32.of_Z (Z.of_nat i) else t) F32.neg_one in
  (r = F32.neg_one /\ forall i, (i < k)%nat -> textures d !!! i <> id)
  \/ (exists i, (i < k)%nat /\ r = F32.of_Z (Z.of_nat i)
                /\ textures d !!! i = id).
Proof.
  induction k as [|k IH]; intros r.
  - left. split; [reflexivity|]. intros i Hi. lia.
  - subst r. rewrite for_loop_succ.
    destruct (Z.eqb_spec (textures d !!! k) id) as [E|E].
    + right. exists k. split; [lia|]. split; [reflexivity | exact E].
    + destruct IH as [[Hr Hno]|(i & Hi & Hr & Hid)].
      * left. split; [exact Hr|]. intros i Hi.
        destruct (Nat.eq_dec i k) as [->|Hne]; [exact E | apply Hno; lia].
      * right. exists i. split; [lia|]. split; assumption.
Qed.

Lemma has_slot_false id d :
  has_slot id d = false ->
  forall i, (i < Z.to_nat (texture_slot_index d))%nat -> textures d !!! i <> id.
Proof.
  intros Hno i Hi.
  assert (Hk : texture_slot_index d
               = Z.of_nat (Z.to_nat (texture_slot_index d))) by lia.
  unfold has_slot, scan_slots in Hno. rewrite Hk in Hno.
  destruct (scan_loop_cases d id (Z.to_nat (texture_slot_index d)))
    as [[_ Hall]|(j & Hj & Hr & _)].
  - apply Hall. exact Hi.
  - rewrite Hr in Hno.
    rewrite of_Z_nonneg_not_neg_one in Hno by lia. discriminate Hno.
Qed.

Lemma has_slot_true id d :
  has_slot id d = true ->
  exists i, (i < Z.to_nat (texture_slot_index d))%nat
            /\ scan_slots id d = F32.of_Z (Z.of_nat i)
            /\ textures d !!! i = id.
Proof.
  intros Hyes.
  assert (Hk : texture_slot_index d
               = Z.of_nat (Z.to_nat (texture_slot_index d))).
  { destruct (Z.le_gt_cases 0 (texture_slot_index d)) as [Hle|Hgt]; [lia|].
    exfalso. unfold has_slot, scan_slots, for_loop in Hyes.
    replace (Z.to_nat (texture_slot_index d)) with 0%nat in Hyes by lia.
    discriminate Hyes. }
  unfold has_slot in Hyes. unfold scan_slots in *. rewrite Hk in *.
  rewrite Nat2Z.id.
  destruct (scan_loop_cases d id (Z.to_nat (texture_slot_index d)))
    as [[Hr _]|(j & Hj & Hr & Hid)].
  - rewrite Hr in Hyes. discriminate Hyes.
  - exists j. auto.
Qed.

Lemma length_memset_zero (n : Z) (a : list Z) :
  length (memset_zero n a) = length a.
Proof.
  unfold memset_zero. rewrite length_app, length_replicate, length_drop. lia.
Qed.

Lemma table_on_data f w :
  texture_slot_index (f (data w)) = texture_slot_index (data w) ->
  textures (f (data w)) = textures (data w) ->
  table_ok w -> table_ok (on_data f w).
Proof.
  intros Hs Ht Hw. unfold table_ok. rewrite data_on_data, Hs, Ht. exact Hw.
Qed.

Lemma table_NewBatch_gen w :
  0 < MAX_TEXTURE_SLOTS ->
  length (textures (data w)) = Z.to_nat MAX_TEXTURE_SLOTS ->
  table_ok (NewBatch w).
Proof.
  intros Hmax Hlen. unfold table_ok, NewBatch, StartBatch, Render. proj.
  split; [lia|]. split; [rewrite length_memset_zero; exact Hlen|].
  constructor.
Qed.

Lemma table_NewBatch w : table_ok w -> table_ok (NewBatch w).
Proof.
  intros (Hs & Hlen & _). apply table_NewBatch_gen; [lia | exact Hlen].
Qed.

Lemma take_insert_end (a : list Z) (k : nat) (id : Z) :
  (k < length a)%nat -> take (S k) (<[k := id]> a) = take k a ++ [id].
Proof.
  revert k. induction a as [|x a IH]; intros k Hk; [cbn in Hk; lia|].
  destruct k as [|k]; [reflexivity|].
  cbn [length] in Hk. cbn. f_equal. apply IH. lia.
Qed.

Lemma table_appended id w :
  MAX_TEXTURE_SLOTS < U32 ->
  has_slot id (data w) = false ->
  add32 (texture_slot_index (data w)) 1 <> MAX_TEXTURE_SLOTS ->
  table_ok w -> table_ok (appended id w).
Proof.
  intros Hmax Hno Hroom (Hs & Hlen & Hnd).
  assert (Hadd : add32 (texture_slot_index (data w)) 1
                 = texture_slot_index (data w) + 1)
    by (apply add32_small; lia).
  rewrite Hadd in Hroom.
  unfold table_ok, appended. rewrite data_on_data. proj. rewrite Hadd.
  split; [proj; lia|]. split; [rewrite length_insert; exact Hlen|].
  match goal with
  | |- NoDup (take ?n (<[?k := _]> _)) => replace n with (S k) by (proj; lia)
  end.
  rewrite take_insert_end by (proj; lia).
  apply NoDup_app. split; [exact Hnd|]. split; [|apply NoDup_singleton].
  intros x Hx Hin. apply list_elem_of_singleton in Hin. subst x.
  apply elem_of_take in Hx. destruct Hx as (i & Hlook & Hi).
  apply (has_slot_false id (data w) Hno i); [exact Hi|].
  apply list_lookup_total_correct. exact Hlook.
Qed.

Lemma table_CalculateTextureIndex id w :
  MAX_TEXTURE_SLOTS < U32 ->
  table_ok w -> table_ok (snd (CalculateTextureIndex id w)).
Proof.
  intros Hmax Hw.
  destruct (CalculateTextureIndex_cases id w)
    as [[_ ->]|[(Hno & Hroom & ->)|(_ & _ & ->)]]; cbn [snd].
  - exact Hw.
  - apply table_appended; assumption.
  - destruct Hw as (Hs & Hlen & _). apply table_NewBatch_gen; [lia|].
    unfold appended. rewrite data_on_data. proj.
    rewrite length_insert. exact Hlen.
Qed.

Lemma table_run cs w :
  MAX_TEXTURE_SLOTS < U32 -> table_ok w -> table_ok (run cs w).
Proof.
  intros Hmax.
  apply (stepwise_run table_ok (fun _ => true)).
  - apply table_NewBatch.
  - intros w1. apply table_on_data; reflexivity.
  - intros w1. apply table_on_data; reflexivity.
  - intros id w1. apply table_CalculateTextureIndex. exact Hmax.
  - intros k n mk w1 _. apply table_on_data; reflexivity.
  - intros c w1 Hd Ht _ Hw1.
    destruct c; try discriminate Hd; try discriminate Ht; cbn [exec];
      (apply table_on_data; [reflexivity | reflexivity | exact Hw1]).
  - apply Forall_forall. intros; reflexivity.
Qed.

Lemma table_BeginScene cam fl w0 :
  0 < MAX_TEXTURE_SLOTS ->
  length (textures (data w0)) = Z.to_nat MAX_TEXTURE_SLOTS ->
  table_ok (BeginScene cam fl w0).
Proof.
  intros Hmax Hlen. unfold table_ok, BeginScene, StartBatch. proj.
  split; [lia|]. split; [rewrite length_memset_zero; exact Hlen|].
  constructor.
Qed.

Lemma slot_answer_of_request id w :
  MAX_TEXTURE_SLOTS < U32 -> table_ok w ->
  exists i,
    slot_answer w (fst (CalculateTextureIndex id w)) i
    /\ (gl (snd (CalculateTextureIndex id w)) = gl w ->
        textures (data (snd (CalculateTextureIndex id w))) !!! Z.to_nat i = id
        /\ i < texture_slot_index (data (snd (CalculateTextureIndex id w)))).
Proof.
  intros Hmax (Hs & Hlen & Hnd).
  assert (Hadd : add32 (texture_slot_index (data w)) 1
                 = texture_slot_index (data w) + 1)
    by (apply add32_small; lia).
  destruct (CalculateTextureIndex_cases id w)
    as [[Hyes ->]|[(Hno & Hroom & ->)|(Hno & Hfull & ->)]]; cbn [fst snd].
  - destruct (has_slot_true id (data w) Hyes) as (i & Hi & Hr & Hid).
    exists (Z.of_nat i). unfold slot_answer. rewrite Nat2Z.id.
    split; [split; [lia|]; split; [lia | exact Hr]|].
    intros _. split; [exact Hid | lia].
  - exists (texture_slot_index (data w)). unfold slot_answer.
    split; [split; [lia|]; split; [lia | reflexivity]|].
    intros _. unfold appended. rewrite data_on_data. proj.
    rewrite Hadd. split; [|proj; lia].
    apply list_lookup_total_insert_eq. proj. lia.
  - exists (texture_slot_index (data w)). unfold slot_answer.
    split; [split; [lia|]; split; [lia | reflexivity]|].
    intros Hgl. exfalso.
    apply (f_equal (fun g => length (draw_calls g))) in Hgl.
    unfold NewBatch, Render in Hgl. proj. rewrite length_app in Hgl.
    cbn [length] in Hgl. unfold appended in Hgl. proj. lia.
Qed.

Lemma memset_within_table d :
  sizeof_Texture <= 4 ->
  0 <= texture_slot_index d <= Z.of_nat (length (textures d)) ->
  memset_within d.
Proof. intros Hs [Hlo Hhi]. unfold memset_within. nia. Qed.

Lemma memset_within_ok w :
  sizeof_Texture <= 4 -> table_ok w -> memset_within (data w).
Proof.
  intros Hs (Hi & Hl & _). apply memset_within_table; [exact Hs|].
  rewrite Hl. lia.
Qed.

Lemma memset_within_appended id w :
  MAX_TEXTURE_SLOTS < U32 -> sizeof_Texture <= 4 -> table_ok w ->
  memset_within (data (appended id w)).
Proof.
  intros Hmax Hs (Hi & Hl & _). apply memset_within_table; [exact Hs|].
  assert (Hadd : add32 (texture_slot_index (data w)) 1
                 = texture_slot_index (data w) + 1)
    by (apply add32_small; lia).
  unfold appended. rewrite data_on_data. proj.
  rewrite length_insert, Hadd, Hl. lia.
Qed.

Lemma table_EndScene w :
  texture_slot_index (data (EndScene w)) = texture_slot_index (data w)
  /\ textures (data (EndScene w)) = textures (data w).
Proof. split; reflexivity. Qed.

(** X6.  Indexed accesses to the slot table stay in bounds; the [memset] of
    [StartBatch] does so for a small [Texture] only.  From a table of the
    declared size (as [Init] leaves it), between the calls of a scene the
    next free slot lies inside the table, so the write
    [textures[texture_slot_index] = id] of a request is in bounds, and no
    handle occupies two slots.  A request made then answers with the index
    of a slot inside the table, keeps the table sound, and, unless it
    flushed the batch, the slot it answers with holds the handle asked for.
    When a [Texture] object has at most four bytes, the bytes [StartBatch]
    would clear stay within the table in every state a batch can be
    restarted from: between the calls, after a request, in the state a
    request flushes when it has filled the table, and when the scene has
    ended.  When it has more than four bytes, a request that fills the table
    flushes in a state whose [memset] goes beyond the table. *)
Theorem texture_table_stays_in_bounds cam fl cs w0 :
  0 < MAX_TEXTURE_SLOTS < U32 ->
  length (textures (data w0)) = Z.to_nat MAX_TEXTURE_SLOTS ->
  let w := run cs (BeginScene cam fl w0) in
  table_ok w
  /\ (Z.to_nat (texture_slot_index (data w)) < length (textures (data w)))%nat
  /\ (forall id,
        let request := CalculateTextureIndex id w in
        table_ok (snd request)
        /\ exists i,
             slot_answer w (fst request) i
             /\ (gl (snd request) = gl w ->
                 textures (data (snd request)) !!! Z.to_nat i = id
                 /\ i < texture_slot_index (data (snd request))))
  /\ (sizeof_Texture <= 4 ->
      memset_within (data w)
      /\ memset_within (data (scene cam fl cs w0))
      /\ forall id,
           memset_within (data (appended id w))
           /\ memset_within (data (snd (CalculateTextureIndex id w))))
  /\ (4 < sizeof_Texture ->
      forall id,
        has_slot id (data w) = false ->
        texture_slot_index (data w) + 1 = MAX_TEXTURE_SLOTS ->
        snd (CalculateTextureIndex id w) = NewBatch (appended id w)
        /\ ~ memset_within (data (appended id w))).
Proof.
  intros [Hpos Hmax] Hlen w.
  assert (Hw : table_ok w).
  { apply table_run; [exact Hmax|]. apply table_BeginScene; assumption. }
  split; [exact Hw|]. split; [destruct Hw as (Hs & Hl & _); lia|]. split.
  { intros id request. split.
    - apply table_CalculateTextureIndex; assumption.
    - apply slot_answer_of_request; assumption. }
  split.
  - intros Hsmall. split; [apply memset_within_ok; assumption|]. split.
    + destruct Hw as (Hs & Hl & _). change (memset_within (data (EndScene w))).
      apply memset_within_table; [exact Hsmall|].
      destruct (table_EndScene w) as [E1 E2]. rewrite E1, E2, Hl. lia.
    + intros id. split.
      * apply memset_within_appended; assumption.
      * apply memset_within_ok; [exact Hsmall|].
        apply table_CalculateTextureIndex; assumption.
  - intros Hlarge id Hno Hfull.
    destruct Hw as (Hs & Hl & _).
    assert (Hadd : add32 (texture_slot_index (data w)) 1
                   = texture_slot_index (data w) + 1)
      by (apply add32_small; lia).
    split.
    + destruct (CalculateTextureIndex_cases id w)
        as [[Hyes _]|[(_ & Hroom & _)|(_ & _ & ->)]].
      * congruence.
      * rewrite Hadd in Hroom. contradiction.
      * reflexivity.
    + unfold memset_within, appended. rewrite data_on_data. proj.
      rewrite length_insert, Hadd, Hl. nia.
Qed.

End SlotTable.

(** ** What a restart leaves alone

    [StartBatch] clears the slot table and resets the counters and the
    cursors.  The members declared after [textures] that it does not reset
    keep their values as long as its [memset] ends inside the table; the
    lemmas below follow them through a scene on that condition. *)

Section Restart.
Context `{RendererH} `{Collaborators}.

Lemma StartBatch_within d :
  memset_within d ->
  proj_view (StartBatch d) = proj_view d
  /\ draw_commands (StartBatch d) = draw_commands d.
Proof. intros _. split; reflexivity. Qed.

Lemma memset_within_empty d : texture_slot_index d = 0 -> memset_within d.
Proof. intros E. unfold memset_within. rewrite E. lia. Qed.

Section Kept.
Variable R : World -> Prop.
Hypothesis R_Render : forall w, R w -> R (Render w).
Hypothesis R_on_data :
  forall f w,
    proj_view (f (data w)) = proj_view (data w) ->
    draw_commands (f (data w)) = draw_commands (data w) ->
    R w -> R (on_data f w).

Lemma kept_NewBatch w : memset_within (data w) -> R w -> R (NewBatch w).
Proof.
  intros Hin Hw. unfold NewBatch.
  destruct (StartBatch_within (data (Render w)) Hin) as [E1 E2].
  apply R_on_data; [exact E1 | exact E2 | apply R_Render, Hw].
Qed.

(** A small [Texture]: the table stays sound, so every restart clears at
    most the whole table. *)
Lemma kept_small cs w :
  sizeof_Texture <= 4 -> MAX_TEXTURE_SLOTS < U32 ->
  table_ok w /\ R w -> table_ok (run cs w) /\ R (run cs w).
Proof.
  intros Hsmall Hmax.
  apply (stepwise_run (fun w => table_ok w /\ R w) (fun _ => true)).
  - intros w1 [Ht Hr]. split; [apply table_NewBatch, Ht|].
    apply kept_NewBatch; [|exact Hr]. apply memset_within_ok; assumption.
  - intros w1 [Ht Hr].
    split; [apply table_on_data; [reflexivity | reflexivity | exact Ht]|].
    apply R_on_data; [reflexivity | reflexivity | exact Hr].
  - intros w1 [Ht Hr].
    split; [apply table_on_data; [reflexivity | reflexivity | exact Ht]|].
    apply R_on_data; [reflexivity | reflexivity | exact Hr].
  - intros id w1 [Ht Hr].
    split; [apply table_CalculateTextureIndex; assumption|].
    destruct (CalculateTextureIndex_cases id w1)
      as [[_ ->]|[(_ & _ & ->)|(_ & _ & ->)]]; cbn [snd].
    + exact Hr.
    + apply R_on_data; [reflexivity | reflexivity | exact Hr].
    + apply kept_NewBatch.
      * apply memset_within_appended; assumption.
      * apply R_on_data; [reflexivity | reflexivity | exact Hr].
  - intros k n mk w1 _ [Ht Hr].
    split; [apply table_on_data; [reflexivity | reflexivity | exact Ht]|].
    apply R_on_data; [reflexivity | reflexivity | exact Hr].
  - intros c w1 Hd Htx _ [Ht Hr].
    destruct c; try discriminate Hd; try discriminate Htx; cbn [exec];
      (split; [apply table_on_data; [reflexivity | reflexivity | exact Ht]
              | apply R_on_data; [reflexivity | reflexivity | exact Hr]]).
  - apply Forall_forall. intros; reflexivity.
Qed.

(** No slot asked for: the table stays empty, so every restart clears
    nothing. *)
Lemma kept_empty_on_data f w :
  texture_slot_index (f (data w)) = texture_slot_index (data w) ->
  proj_view (f (data w)) = proj_view (data w) ->
  draw_commands (f (data w)) = draw_commands (data w) ->
  texture_slot_index (data w) = 0 /\ R w ->
  texture_slot_index (data (on_data f w)) = 0 /\ R (on_data f w).
Proof.
  intros Es Ep Ec [E Hw]. rewrite data_on_data, Es.
  split; [exact E|]. apply R_on_data; assumption.
Qed.

Lemma kept_empty_check_capacity k w :
  texture_slot_index (data w) = 0 /\ R w ->
  texture_slot_index (data (check_capacity k w)) = 0
  /\ R (check_capacity k w).
Proof.
  intros [E Hw]. destruct (check_capacity_cases k w) as [[_ ->]|[_ ->]].
  - split; assumption.
  - split; [reflexivity|].
    apply kept_NewBatch; [apply memset_within_empty, E | exact Hw].
Qed.

Lemma kept_empty_exec c w :
  asks_no_slot c = true ->
  texture_slot_index (data w) = 0 /\ R w ->
  texture_slot_index (data (exec c w)) = 0 /\ R (exec c w).
Proof.
  intros Hc Hw.
  pose (E := fun w => texture_slot_index (data w) = 0 /\ R w).
  assert (Hquad : forall mk w1, stamps mk -> E w1 ->
                                E (emit 4 6 mk (quad_ready w1))).
  { intros mk w1 _ Hw1. unfold E in *.
    apply kept_empty_on_data; try reflexivity.
    apply kept_empty_on_data; try reflexivity.
    apply kept_empty_check_capacity, Hw1. }
  assert (Htri : forall mk w1, stamps mk -> E w1 ->
                               E (emit 3 3 mk (triangle_ready w1))).
  { intros mk w1 _ Hw1. unfold E in *.
    apply kept_empty_on_data; try reflexivity.
    apply kept_empty_on_data; try reflexivity.
    apply kept_empty_check_capacity, Hw1. }
  assert (Hcube : forall mk w1, stamps mk -> E w1 ->
                                E (emit 24 36 mk (cube_ready w1))).
  { intros mk w1 _ Hw1. unfold E in *.
    apply kept_empty_on_data; try reflexivity.
    unfold cube_ready.
    change (for_loop CUBE_FACES (fun _ w => on_data CalculateSquareIndices w)
              (check_capacity CUBE_VERTEX_COUNT w1))
      with (Nat.iter 6 (on_data CalculateSquareIndices)
              (check_capacity CUBE_VERTEX_COUNT w1)).
    cbn [Nat.iter nat_rect].
    do 6 (apply kept_empty_on_data; try reflexivity).
    apply kept_empty_check_capacity, Hw1. }
  change (E (exec c w)). change (E w) in Hw.
  destruct c; try discriminate Hc; cbn [exec];
    unfold DrawQuad_color, DrawQuad_coords, DrawRotatedQuad_color,
      DrawRotatedQuad_coords, DrawLine, DrawCube_color;
    lazymatch goal with
    | |- E (DrawQuad_mat _ _ _ _ _) =>
        apply (dispatch_DrawQuad_mat E Hquad); exact Hw
    | |- E (DrawCube_mat _ _ _ _ _) =>
        apply (dispatch_DrawCube_mat E Hcube); exact Hw
    | |- E (DrawTriangle _ _ _ _) =>
        apply (dispatch_DrawTriangle E Htri); exact Hw
    | |- E (DrawTriangle_rotated _ _ _ _ _ _) =>
        apply (dispatch_DrawTriangle_rotated E Htri); exact Hw
    | |- _ =>
        unfold E in *; apply kept_empty_on_data;
          [reflexivity | reflexivity | reflexivity | exact Hw]
    end.
Qed.

Lemma kept_empty cs w :
  Forall (fun c => asks_no_slot c = true) cs ->
  texture_slot_index (data w) = 0 /\ R w ->
  texture_slot_index (data (run cs w)) = 0 /\ R (run cs w).
Proof.
  intros Hcs. revert w. unfold run.
  induction Hcs as [|c cs Hc Hcs IH]; intros w Hw; cbn [fold_left].
  - exact Hw.
  - apply IH, kept_empty_exec; assumption.
Qed.

Lemma kept_run cs w :
  restarts_within cs -> MAX_TEXTURE_SLOTS < U32 ->
  table_ok w -> texture_slot_index (data w) = 0 -> R w -> R (run cs w).
Proof.
  intros [Hsmall|Hnone] Hmax Ht E Hw.
  - apply (kept_small cs w Hsmall Hmax). split; assumption.
  - apply (kept_empty cs w Hnone). split; assumption.
Qed.

End Kept.

Lemma commands_kept_BeginScene cam fl w0 :
  memset_within (data w0) ->
  draw_commands (data (BeginScene cam fl w0)) = draw_commands (data w0).
Proof.
  intros Hin. unfold BeginScene. rewrite data_on_data. cbv zeta.
  match goal with
  | |- draw_commands (StartBatch ?d) = _ =>
      destruct (StartBatch_within d Hin) as [_ E]
  end.
  exact E.
Qed.

Lemma commands_kept_scene cam fl cs w0 :
  memset_within (data w0) -> restarts_within cs ->
  0 < MAX_TEXTURE_SLOTS < U32 ->
  length (textures (data w0)) = Z.to_nat MAX_TEXTURE_SLOTS ->
  draw_commands (data (run cs (BeginScene cam fl w0)))
  = draw_commands (data w0).
Proof.
  intros Hin Hcs [Hpos Hmax] Hlen.
  apply (kept_run (fun w => draw_commands (data w) = draw_commands (data w0))).
  - intros w Hw. exact Hw.
  - intros f w _ Ec Hw. rewrite data_on_data, Ec. exact Hw.
  - exact Hcs.
  - exact Hmax.
  - apply table_BeginScene; assumption.
  - reflexivity.
  - apply commands_kept_BeginScene, Hin.
Qed.

End Restart.

(** ** The texture units a flush binds *)

Section Binding.
Context `{RendererH} `{Collaborators}.

Lemma bind_loop_spec (d : RendererData) (k : nat) (units : list Z) (i : nat) :
  (i < length units)%nat ->
  for_loop (Z.of_nat k)
    (fun i units =>
       if (textures d !!! i) =? 0 then units
       else <[i := textures d !!! i]> units)
    units !!! i
  = if (i <? k)%nat && negb (textures d !!! i =? 0)
    then textures d !!! i else units !!! i.
Proof.
  intros Hi. induction k as [|k IH].
  - rewrite for_loop_0. reflexivity.
  - rewrite for_loop_succ.
    destruct (Nat.eq_dec i k) as [->|Hne].
    + replace (k <? S k)%nat with true by (symmetry; apply Nat.ltb_lt; lia).
      replace (k <? k)%nat with false in IH
        by (symmetry; apply Nat.ltb_ge; lia).
      cbn [andb] in *.
      destruct (textures d !!! k =? 0); cbn [negb]; [exact IH|].
      apply list_lookup_total_insert_eq. rewrite bind_loop_length. exact Hi.
    + replace (i <? S k)%nat with (i <? k)%nat
        by (destruct (Nat.ltb_spec i k), (Nat.ltb_spec i (S k));
            first [reflexivity | lia]).
      destruct (textures d !!! k =? 0); [exact IH|].
      rewrite list_lookup_total_insert_ne by auto. exact IH.
Qed.

Lemma bind_textures_spec (d : RendererData) (units : list Z) (i : nat) :
  (i < length units)%nat ->
  bind_textures d units !!! i = bound_after d units i.
Proof.
  intros Hi. unfold bind_textures, bound_after.
  destruct (Z.le_gt_cases 0 (texture_slot_index d)) as [Hle|Hgt].
  - rewrite <- (Z2Nat.id (texture_slot_index d)) at 1 by exact Hle.
    rewrite bind_loop_spec by exact Hi.
    replace (i <? Z.to_nat (texture_slot_index d))%nat
      with (Z.of_nat i <? texture_slot_index d); [reflexivity|].
    destruct (Z.ltb_spec (Z.of_nat i) (texture_slot_index d)),
      (Nat.ltb_spec i (Z.to_nat (texture_slot_index d)));
      first [reflexivity | lia].
  - unfold for_loop.
    replace (Z.to_nat (texture_slot_index d)) with 0%nat by lia.
    replace (Z.of_nat i <? texture_slot_index d) with false
      by (symmetry; apply Z.ltb_ge; lia).
    reflexivity.
Qed.

Lemma bind_textures_length (d : RendererData) (units : list Z) :
  length (bind_textures d units) = length units.
Proof.
  unfold bind_textures.
  destruct (Z.le_gt_cases 0 (texture_slot_index d)) as [Hle|Hgt].
  - rewrite <- (Z2Nat.id (texture_slot_index d)) by exact Hle.
    apply bind_loop_length.
  - unfold for_loop.
    replace (Z.to_nat (texture_slot_index d)) with 0%nat by lia.
    reflexivity.
Qed.

(** X7.  A flush binds the handle of every occupied slot to the texture
    unit of the same number, except where the handle is 0, and touches no
    other unit: a unit whose slot is free, or holds handle 0, stays bound to
    what an earlier flush left there.  The draw call is issued under these
    bindings, the number of units does not change, and the flush leaves the
    renderer's own data as it was. *)
Theorem Render_binds_occupied_slots w i :
  (i < length (texture_units (gl w)))%nat ->
  texture_units (gl (Render w)) !!! i
    = bound_after (data w) (texture_units (gl w)) i
  /\ (exists c,
        draw_calls (gl (Render w)) = draw_calls (gl w) ++ [c]
        /\ call_texture_units c = texture_units (gl (Render w)))
  /\ length (texture_units (gl (Render w))) = length (texture_units (gl w))
  /\ data (Render w) = data w.
Proof.
  intros Hi. split; [exact (bind_textures_spec (data w) _ i Hi)|].
  split; [eexists; split; reflexivity|]. split; [|reflexivity].
  exact (bind_textures_length (data w) (texture_units (gl w))).
Qed.

End Binding.

(** ** The staging arrays never overflow *)

Section Staging.
Context `{RendererH} `{Collaborators}.

Lemma staged_flush n0 w :
  header_ok -> within_capacity w ->
  Z.of_nat (length (vertices (data w))) = num_of_vertices_in_batch (data w) ->
  2 * Z.of_nat (length (indices (data w))) <= 3 * MAX_VERTEX_COUNT ->
  (n0 <= length (draw_calls (gl w)))%nat ->
  Forall (fun c =>
            Z.of_nat (length (call_vertex_data c)) <= MAX_VERTEX_COUNT
            /\ 2 * Z.of_nat (length (call_index_data c))
               <= 3 * MAX_VERTEX_COUNT)
    (calls_since n0 w) ->
  staged_ok n0 (NewBatch w).
Proof.
  intros Hh Hw Hv Hi Hn Hc.
  split; [apply within_NewBatch; exact Hh|].
  unfold within_capacity in Hw.
  unfold calls_since, NewBatch, StartBatch, Render in *. proj.
  split; [reflexivity|]. split; [cbn [length]; lia|].
  rewrite length_app. split; [lia|].
  rewrite drop_app_le by exact Hn. apply Forall_app. split; [exact Hc|].
  constructor; [|constructor].
  cbn [call_vertex_data call_index_data]. proj. split; lia.
Qed.

Lemma staged_NewBatch n0 w :
  header_ok -> staged_ok n0 w -> staged_ok n0 (NewBatch w).
Proof.
  intros Hh (Hw & Hv & Hi & Hn & Hc).
  apply staged_flush; try assumption.
  unfold within_capacity in Hw. lia.
Qed.

Lemma staged_check_capacity n0 k w :
  header_ok -> staged_ok n0 w -> staged_ok n0 (check_capacity k w).
Proof.
  intros Hh Hw. destruct (check_capacity_cases k w) as [[_ ->]|[_ ->]];
    [exact Hw | apply staged_NewBatch; assumption].
Qed.

Lemma staged_on_data n0 f w :
  adds_indices 0 f -> staged_ok n0 w -> staged_ok n0 (on_data f w).
Proof.
  intros Hf (Hw & Hv & Hi & Hn & Hc).
  destruct (Hf (data w)) as (Ev & En & Ei).
  unfold staged_ok, within_capacity, calls_since in *.
  rewrite gl_on_data, data_on_data, Ev, En, Ei, Nat.add_0_r. auto.
Qed.

Lemma staged_prim n0 k j n mk f w :
  header_ok -> adds_indices j f -> (2 * j <= 3 * k)%nat ->
  staged_ok n0 w ->
  num_of_vertices_in_batch (data w) + Z.of_nat k <= MAX_VERTEX_COUNT ->
  staged_ok n0 (emit k n mk (on_data f w)).
Proof.
  intros [Hc24 Hu] Hf Hjk (Hw & Hv & Hi & Hn & Hc) Hfit.
  destruct (Hf (data w)) as (Ev & En & Ei).
  unfold within_capacity, CUBE_VERTEX_COUNT in *.
  assert (Hnum : num_of_vertices_in_batch (data (emit k n mk (on_data f w)))
                 = num_of_vertices_in_batch (data w) + Z.of_nat k).
  { rewrite num_emit; rewrite data_on_data, En; [reflexivity | lia | lia]. }
  unfold staged_ok, within_capacity. rewrite Hnum.
  split; [lia|].
  unfold calls_since, emit, add_to_command_size, written in *. proj.
  rewrite Ev, Ei, length_app, length_map, length_seq.
  split; [lia|]. split; [lia|]. split; assumption.
Qed.


Lemma adds_indices_square : adds_indices 6 CalculateSquareIndices.
Proof.
  intros d. unfold CalculateSquareIndices, push_index. proj.
  split; [reflexivity|]. split; [reflexivity|].
  rewrite !length_app. cbn [length]. lia.
Qed.

Lemma adds_indices_triangle : adds_indices 3 CalculateTriangleIndices.
Proof.
  intros d. unfold CalculateTriangleIndices, push_index. proj.
  split; [reflexivity|]. split; [reflexivity|].
  rewrite !length_app. cbn [length]. lia.
Qed.

Lemma adds_indices_compose a b f g :
  adds_indices a f -> adds_indices b g ->
  adds_indices (a + b) (fun d => g (f d)).
Proof.
  intros Hf Hg d. destruct (Hf d) as (Fv & Fn & Fi).
  destruct (Hg (f d)) as (Gv & Gn & Gi).
  rewrite Gv, Gn, Gi, Fv, Fn, Fi. split; [reflexivity|].
  split; [reflexivity | lia].
Qed.

Lemma adds_indices_iter k j f :
  adds_indices j f -> adds_indices (k * j) (Nat.iter k f).
Proof.
  intros Hf. induction k as [|k IH]; intros d.
  - cbn [Nat.iter nat_rect Nat.mul]. rewrite Nat.add_0_r. auto.
  - rewrite Nat.iter_succ.
    destruct (IH d) as (Iv & In & Ii).
    destruct (Hf (Nat.iter k f d)) as (Fv & Fn & Fi).
    rewrite Fv, Fn, Fi, Iv, In, Ii. split; [reflexivity|].
    split; [reflexivity | lia].
Qed.

Lemma adds_indices_cube : adds_indices 36 (Nat.iter 6 CalculateSquareIndices).
Proof. exact (adds_indices_iter 6 6 _ adds_indices_square). Qed.

Lemma adds_indices_nothing f :
  (forall d, vertices (f d) = vertices d) ->
  (forall d, num_of_vertices_in_batch (f d) = num_of_vertices_in_batch d) ->
  (forall d, indices (f d) = indices d) ->
  adds_indices 0 f.
Proof.
  intros Hv Hn Hi d. rewrite Hv, Hn, Hi, Nat.add_0_r. auto.
Qed.

Lemma staged_CalculateTextureIndex n0 id w :
  header_ok -> staged_ok n0 w ->
  staged_ok n0 (snd (CalculateTextureIndex id w)).
Proof.
  intros Hh Hw.
  assert (Ha : staged_ok n0 (appended id w)).
  { apply staged_on_data; [|exact Hw].
    apply adds_indices_nothing; reflexivity. }
  destruct (CalculateTextureIndex_cases id w)
    as [[_ ->]|[(_ & _ & ->)|(_ & _ & ->)]]; cbn [snd].
  - exact Hw.
  - exact Ha.
  - apply staged_NewBatch; assumption.
Qed.

Lemma staged_quad n0 mk w :
  header_ok -> staged_ok n0 w -> staged_ok n0 (emit 4 6 mk (quad_ready w)).
Proof.
  intros Hh Hw. unfold quad_ready.
  apply (staged_prim n0 4 6 6 mk CalculateSquareIndices); try assumption.
  - apply adds_indices_square.
  - lia.
  - apply staged_check_capacity; assumption.
  - apply (num_check_capacity QUAD_VERTEX_COUNT w Hh);
      [unfold QUAD_VERTEX_COUNT, CUBE_VERTEX_COUNT; lia | apply Hw].
Qed.

Lemma staged_triangle n0 mk w :
  header_ok -> staged_ok n0 w ->
  staged_ok n0 (emit 3 3 mk (triangle_ready w)).
Proof.
  intros Hh Hw. unfold triangle_ready.
  apply (staged_prim n0 3 3 3 mk CalculateTriangleIndices); try assumption.
  - apply adds_indices_triangle.
  - lia.
  - apply staged_check_capacity; assumption.
  - destruct (num_check_capacity QUAD_VERTEX_COUNT w Hh) as [_ Hfit];
      [unfold QUAD_VERTEX_COUNT, CUBE_VERTEX_COUNT; lia | apply Hw |].
    unfold QUAD_VERTEX_COUNT in *. proj. lia.
Qed.

Lemma staged_cube n0 mk w :
  header_ok -> staged_ok n0 w -> staged_ok n0 (emit 24 36 mk (cube_ready w)).
Proof.
  intros Hh Hw. unfold cube_ready.
  change (for_loop CUBE_FACES (fun _ w => on_data CalculateSquareIndices w)
            (check_capacity CUBE_VERTEX_COUNT w))
    with (on_data (Nat.iter 6 CalculateSquareIndices)
            (check_capacity CUBE_VERTEX_COUNT w)).
  apply (staged_prim n0 24 36 36 mk); try assumption.
  - apply adds_indices_cube.
  - lia.
  - apply staged_check_capacity; assumption.
  - apply (num_check_capacity CUBE_VERTEX_COUNT w Hh);
      [unfold CUBE_VERTEX_COUNT; lia | apply Hw].
Qed.

Lemma staged_glyph n0 font mk w :
  header_ok -> staged_ok n0 w ->
  staged_ok n0 (emit 4 6 mk (snd (glyph_ready font w))).
Proof.
  intros Hh Hw. unfold glyph_ready, CalculateTextureIndex_texture.
  set (id := GetTextureId (font_texture font)).
  set (w1 := check_capacity QUAD_VERTEX_COUNT w).
  assert (Hw1 : staged_ok n0 w1) by (apply staged_check_capacity; assumption).
  assert (Hfit : 0 <= num_of_vertices_in_batch (data w1)
                 /\ num_of_vertices_in_batch (data w1) + 4 <= MAX_VERTEX_COUNT).
  { apply (num_check_capacity QUAD_VERTEX_COUNT w Hh);
      [unfold QUAD_VERTEX_COUNT, CUBE_VERTEX_COUNT; lia | apply Hw]. }
  destruct (CalculateTextureIndex_cases id (on_data CalculateSquareIndices w1))
    as [[_ ->]|[(_ & _ & ->)|(_ & _ & ->)]]; cbn [snd].
  - apply (staged_prim n0 4 6 6 mk CalculateSquareIndices); try assumption;
      [apply adds_indices_square | lia | apply Hfit].
  - change (appended id (on_data CalculateSquareIndices w1))
      with (on_data (fun d => data (appended id
                                      {| data := CalculateSquareIndices d;
                                         gl := gl w1 |})) w1).
    apply (staged_prim n0 4 6 6 mk); try assumption; [|lia | apply Hfit].
    apply (adds_indices_compose 6 0 CalculateSquareIndices
             (fun d => data (appended id {| data := d; gl := gl w1 |}))).
    + apply adds_indices_square.
    + apply adds_indices_nothing; reflexivity.
  - destruct Hh as [Hc24 Hu]. pose proof Hw1 as (Hwi & Hv & Hi & Hn & Hc).
    destruct (adds_indices_square (data w1)) as (Ev & En & Ei).
    assert (Hflushed : staged_ok n0
              (NewBatch (appended id (on_data CalculateSquareIndices w1)))).
    { apply staged_flush.
      - split; assumption.
      - unfold within_capacity in *. unfold appended.
        rewrite !data_on_data. proj. rewrite En. exact Hwi.
      - unfold appended. rewrite !data_on_data. proj.
        rewrite Ev, En. exact Hv.
      - unfold appended. rewrite !data_on_data. proj.
        unfold within_capacity in Hwi. proj. rewrite Ei. lia.
      - exact Hn.
      - exact Hc. }
    change (NewBatch (appended id (on_data CalculateSquareIndices w1)))
      with (on_data (fun d => d)
              (NewBatch (appended id (on_data CalculateSquareIndices w1)))).
    apply (staged_prim n0 4 0 6 mk (fun d => d)); try assumption.
    + split; assumption.
    + apply adds_indices_nothing; reflexivity.
    + lia.
    + rewrite num_NewBatch. unfold CUBE_VERTEX_COUNT in Hc24. lia.
Qed.

Lemma staged_exec n0 c w :
  header_ok -> staged_ok n0 w -> staged_ok n0 (exec c w).
Proof.
  intros Hh.
  apply (dispatch_exec (staged_ok n0) (fun _ => true)); [| | | | |reflexivity].
  - intros mk w1 _. apply staged_quad. exact Hh.
  - intros mk w1 _. apply staged_triangle. exact Hh.
  - intros mk w1 _. apply staged_cube. exact Hh.
  - intros id w1. apply staged_CalculateTextureIndex. exact Hh.
  - intros c0 w1 Hd _ Hw1.
    destruct c0; try discriminate Hd; cbn [exec].
    + apply (glyphs_RenderText (staged_ok n0)); [|exact Hw1].
      intros font0 mk w2 _. apply staged_glyph. exact Hh.
    + apply staged_on_data; [|exact Hw1].
      apply adds_indices_nothing; reflexivity.
    + apply staged_on_data; [|exact Hw1].
      apply adds_indices_nothing; reflexivity.
    + apply staged_on_data; [|exact Hw1].
      apply adds_indices_nothing; reflexivity.
Qed.

Lemma staged_run n0 cs w :
  header_ok -> staged_ok n0 w -> staged_ok n0 (run cs w).
Proof.
  intros Hh. revert w. unfold run.
  induction cs as [|c cs IH]; intros w Hw; cbn [fold_left].
  - exact Hw.
  - apply IH, staged_exec; assumption.
Qed.

Lemma staged_BeginScene cam fl w0 :
  header_ok ->
  staged_ok (length (draw_calls (gl w0))) (BeginScene cam fl w0).
Proof.
  intros Hh. split; [apply within_BeginScene; exact Hh|].
  unfold calls_since, BeginScene, StartBatch. proj.
  rewrite drop_all. repeat split; constructor.
Qed.

Lemma staged_EndScene n0 w :
  staged_ok n0 w ->
  Forall (fun c =>
            Z.of_nat (length (call_vertex_data c)) <= MAX_VERTEX_COUNT
            /\ 2 * Z.of_nat (length (call_index_data c))
               <= 3 * MAX_VERTEX_COUNT)
    (calls_since n0 (EndScene w)).
Proof.
  intros (Hw & Hv & Hi & Hn & Hc).
  unfold within_capacity, calls_since, EndScene, Render,
    GoToNextDrawCommand, MakeCommand in *. proj.
  rewrite drop_app_le by exact Hn. apply Forall_app. split; [exact Hc|].
  constructor; [|constructor].
  cbn [call_vertex_data call_index_data]. proj. split; lia.
Qed.

(** X2.  The vertex array is never overrun.  With a vertex limit that leaves
    room for the largest primitive, between the calls of a scene the
    vertices staged are as many as [num_of_vertices_in_batch] counts, at
    most [MAX_VERTEX_COUNT], the size of the array [Init] allocates; and no
    flush of the scene, implicit or final, uploads more than
    [MAX_VERTEX_COUNT] vertices. *)
Theorem vertex_array_never_overrun cam fl cs w0 :
  header_ok ->
  let ws := run cs (BeginScene cam fl w0) in
  Z.of_nat (length (vertices (data ws))) = num_of_vertices_in_batch (data ws)
  /\ Z.of_nat (length (vertices (data ws))) <= MAX_VERTEX_COUNT
  /\ Forall (fun c =>
               Z.of_nat (length (call_vertex_data c)) <= MAX_VERTEX_COUNT)
       (calls_since (length (draw_calls (gl w0))) (scene cam fl cs w0)).
Proof.
  intros Hh ws.
  assert (Hws : staged_ok (length (draw_calls (gl w0))) ws)
    by (apply staged_run; [|apply staged_BeginScene]; exact Hh).
  pose proof (staged_EndScene _ _ Hws) as Hend.
  destruct Hws as (Hw & Hv & _). unfold within_capacity in Hw.
  split; [exact Hv|]. split; [lia|].
  eapply Forall_impl; [exact Hend|]. intros c [Hc _]. exact Hc.
Qed.

(** X3.  The index array is never overrun, although no call tests it.
    Between the calls of a scene there are at most three indices staged for
    every two vertices staged (a quad brings 6 for 4, a triangle 3 for 3, a
    cube 36 for 24), and no flush uploads more than three indices for every
    two vertices of a full batch.  So when the index array holds at least
    [3/2 * MAX_VERTEX_COUNT] indices, the indices staged and the indices any
    flush uploads fit into it. *)
Theorem index_array_never_overrun cam fl cs w0 :
  header_ok -> 3 * MAX_VERTEX_COUNT <= 2 * MAX_INDEX_COUNT ->
  let ws := run cs (BeginScene cam fl w0) in
  (2 * length (indices (data ws)) <= 3 * length (vertices (data ws)))%nat
  /\ Z.of_nat (length (indices (data ws))) <= MAX_INDEX_COUNT
  /\ Forall (fun c =>
               Z.of_nat (length (call_index_data c)) <= MAX_INDEX_COUNT)
       (calls_since (length (draw_calls (gl w0))) (scene cam fl cs w0)).
Proof.
  intros Hh Hroom ws.
  assert (Hws : staged_ok (length (draw_calls (gl w0))) ws)
    by (apply staged_run; [|apply staged_BeginScene]; exact Hh).
  pose proof (staged_EndScene _ _ Hws) as Hend.
  destruct Hws as (Hw & Hv & Hi & _). unfold within_capacity in Hw.
  split; [exact Hi|]. split; [lia|].
  eapply Forall_impl; [exact Hend|]. intros c [_ Hc]. lia.
Qed.

End Staging.

(** ** Indices and the vertices they refer to *)

Section Alignment.
Context `{RendererH} `{Collaborators}.

Lemma generates_square : generates 6 4 CalculateSquareIndices.
Proof.
  intros d Hlo Hhi.
  destruct (CalculateSquareIndices_spec d Hlo Hhi) as [Hi Ho].
  split; [exact Ho|]. split; [|repeat split].
  exists (map (Z.add (index_offset d)) [0; 1; 2; 2; 3; 0]).
  split; [exact Hi|]. split; [reflexivity|].
  cbn [map]. repeat constructor; lia.
Qed.

Lemma generates_triangle : generates 3 3 CalculateTriangleIndices.
Proof.
  intros d Hlo Hhi.
  unfold CalculateTriangleIndices, push_index. proj.
  rewrite !add32_small by lia.
  split; [reflexivity|]. split; [|repeat split].
  exists [index_offset d; 1 + index_offset d; 2 + index_offset d].
  rewrite <- !app_assoc. split; [reflexivity|]. split; [reflexivity|].
  proj. repeat constructor; lia.
Qed.

Lemma generates_iter n j k f :
  0 <= k -> generates j k f ->
  generates (n * j) (Z.of_nat n * k) (Nat.iter n f).
Proof.
  intros Hk Hf. induction n as [|n IH]; intros d Hlo Hhi.
  - cbn [Nat.iter nat_rect Nat.mul]. split; [lia|]. split; [|repeat split].
    exists []. rewrite app_nil_r. repeat split. constructor.
  - rewrite Nat.iter_succ.
    destruct (IH d Hlo ltac:(nia)) as (Io & (l1 & Ii & Il & If) & Iv & In & Ic & Ib).
    destruct (Hf (Nat.iter n f d) ltac:(nia) ltac:(nia))
      as (Fo & (l2 & Fi & Fl & Ff) & Fv & Fn & Fc & Fb).
    rewrite Fo, Fi, Fv, Fn, Fc, Fb, Io, Ii, Iv, In, Ic, Ib.
    split; [lia|]. split; [|repeat split].
    exists (l1 ++ l2). rewrite app_assoc. split; [reflexivity|].
    split; [rewrite length_app; lia|].
    apply Forall_app. split.
    + eapply Forall_impl; [exact If|]. intros i Hi. cbv beta in *. nia.
    + eapply Forall_impl; [exact Ff|]. intros i Hi. cbv beta in *.
      rewrite Io in Hi. nia.
Qed.

Lemma generates_cube : generates 36 24 (Nat.iter 6 CalculateSquareIndices).
Proof. exact (generates_iter 6 6 4 _ ltac:(lia) generates_square). Qed.

Lemma aligned_on_data n0 f w :
  (forall d, vertices (f d) = vertices d) ->
  (forall d, num_of_vertices_in_batch (f d) = num_of_vertices_in_batch d) ->
  (forall d, indices (f d) = indices d) ->
  (forall d, index_offset (f d) = index_offset d) ->
  (forall d, current_draw_command_vertex_size (f d)
             = current_draw_command_vertex_size d) ->
  (forall d, base_vert (f d) = base_vert d) ->
  aligned n0 w -> aligned n0 (on_data f w).
Proof.
  intros Hv Hn Hi Ho Hc Hb (Hs & Eo & Hin & Ec & Eb & Hcalls).
  split; [apply staged_on_data;
          [apply adds_indices_nothing; assumption | exact Hs]|].
  unfold calls_since in *.
  rewrite gl_on_data, data_on_data, Hn, Hi, Ho, Hc, Hb. auto.
Qed.

Lemma aligned_NewBatch n0 w :
  header_ok -> aligned n0 w -> aligned n0 (NewBatch w).
Proof.
  intros Hh (Hs & Eo & Hin & Ec & Eb & Hcalls).
  split; [apply staged_NewBatch; assumption|].
  destruct Hs as (_ & Hv & _ & Hn & _).
  unfold indices_within, calls_since, NewBatch, StartBatch, Render in *. proj.
  split; [reflexivity|]. split; [constructor|]. split; [reflexivity|].
  split; [reflexivity|].
  rewrite drop_app_le by exact Hn. apply Forall_app. split; [exact Hcalls|].
  constructor; [|constructor].
  cbn [call_vertex_data call_index_data]. proj. rewrite Hv. exact Hin.
Qed.

Lemma aligned_check_capacity n0 k w :
  header_ok -> aligned n0 w -> aligned n0 (check_capacity k w).
Proof.
  intros Hh Hw. destruct (check_capacity_cases k w) as [[_ ->]|[_ ->]];
    [exact Hw | apply aligned_NewBatch; assumption].
Qed.

Lemma aligned_prim n0 k j mk f w :
  header_ok -> index_room ->
  adds_indices j f -> generates j (Z.of_nat k) f -> (2 * j <= 3 * k)%nat ->
  aligned n0 w ->
  num_of_vertices_in_batch (data w) + Z.of_nat k <= MAX_VERTEX_COUNT ->
  aligned n0 (emit k (Z.of_nat j) mk (on_data f w)).
Proof.
  intros Hh [Hroom Hu32] Ha Hg Hjk (Hs & Eo & Hin & Ec & Eb & Hcalls) Hfit.
  pose proof (staged_prim n0 k j (Z.of_nat j) mk f w Hh Ha Hjk Hs Hfit)
    as Hs'.
  split; [exact Hs'|].
  destruct Hs' as (Hw' & Hv' & Hi' & _).
  destruct Hs as (Hw & Hv & Hi & Hn & _).
  destruct Hh as [Hc24 Hu]. unfold within_capacity, CUBE_VERTEX_COUNT in *.
  destruct (Hg (data w)) as (Go & (l & Gi & Gl & Gf) & Gv & Gn & Gc & Gb);
    [lia | lia |].
  assert (Hnum : num_of_vertices_in_batch (data (emit k (Z.of_nat j) mk (on_data f w)))
                 = num_of_vertices_in_batch (data w) + Z.of_nat k).
  { rewrite num_emit; rewrite data_on_data, Gn; [reflexivity | lia | lia]. }
  rewrite Hnum in *.
  unfold indices_within, calls_since, emit, add_to_command_size, written in *.
  proj. rewrite Go, Gi, Gc, Gb, Ec, Eb, Eo in *.
  rewrite length_app, length_map, length_seq, Gv in Hv'.
  rewrite length_app, Gl in Hi'. rewrite length_app, length_map, length_seq, Gv in Hi'.
  split; [reflexivity|]. split.
  { apply Forall_app. split.
    - eapply Forall_impl; [exact Hin|]. intros i Hi0. cbv beta in *. lia.
    - eapply Forall_impl; [exact Gf|]. intros i Hi0. cbv beta in *. lia. }
  split; [|split; [reflexivity | exact Hcalls]].
  rewrite length_app, Gl. rewrite add32_small; lia.
Qed.


Lemma aligned_quad n0 mk w :
  header_ok -> index_room -> aligned n0 w ->
  aligned n0 (emit 4 6 mk (quad_ready w)).
Proof.
  intros Hh Hr Hw. unfold quad_ready.
  apply (aligned_prim n0 4 6 mk CalculateSquareIndices); try assumption.
  - apply adds_indices_square.
  - apply generates_square.
  - lia.
  - apply aligned_check_capacity; assumption.
  - apply (num_check_capacity QUAD_VERTEX_COUNT w Hh);
      [unfold QUAD_VERTEX_COUNT, CUBE_VERTEX_COUNT; lia | apply Hw].
Qed.

Lemma aligned_triangle n0 mk w :
  header_ok -> index_room -> aligned n0 w ->
  aligned n0 (emit 3 3 mk (triangle_ready w)).
Proof.
  intros Hh Hr Hw. unfold triangle_ready.
  apply (aligned_prim n0 3 3 mk CalculateTriangleIndices); try assumption.
  - apply adds_indices_triangle.
  - apply generates_triangle.
  - lia.
  - apply aligned_check_capacity; assumption.
  - destruct (num_check_capacity QUAD_VERTEX_COUNT w Hh) as [_ Hfit];
      [unfold QUAD_VERTEX_COUNT, CUBE_VERTEX_COUNT; lia | apply Hw |].
    unfold QUAD_VERTEX_COUNT in *. proj. lia.
Qed.

Lemma aligned_cube n0 mk w :
  header_ok -> index_room -> aligned n0 w ->
  aligned n0 (emit 24 36 mk (cube_ready w)).
Proof.
  intros Hh Hr Hw. unfold cube_ready.
  change (for_loop CUBE_FACES (fun _ w => on_data CalculateSquareIndices w)
            (check_capacity CUBE_VERTEX_COUNT w))
    with (on_data (Nat.iter 6 CalculateSquareIndices)
            (check_capacity CUBE_VERTEX_COUNT w)).
  apply (aligned_prim n0 24 36 mk); try assumption.
  - apply adds_indices_cube.
  - apply generates_cube.
  - lia.
  - apply aligned_check_capacity; assumption.
  - apply (num_check_capacity CUBE_VERTEX_COUNT w Hh);
      [unfold CUBE_VERTEX_COUNT; lia | apply Hw].
Qed.

Lemma aligned_CalculateTextureIndex n0 id w :
  header_ok -> aligned n0 w -> aligned n0 (snd (CalculateTextureIndex id w)).
Proof.
  intros Hh Hw.
  assert (Ha : aligned n0 (appended id w))
    by (apply aligned_on_data; try reflexivity; exact Hw).
  destruct (CalculateTextureIndex_cases id w)
    as [[_ ->]|[(_ & _ & ->)|(_ & _ & ->)]]; cbn [snd].
  - exact Hw.
  - exact Ha.
  - apply aligned_NewBatch; assumption.
Qed.

Lemma aligned_run n0 cs w :
  header_ok -> index_room ->
  Forall (fun c => negb (is_text c) = true) cs ->
  aligned n0 w -> aligned n0 (run cs w).
Proof.
  intros Hh Hr.
  apply (dispatch_run (aligned n0) (fun c => negb (is_text c))).
  - intros mk w1 _. apply aligned_quad; assumption.
  - intros mk w1 _. apply aligned_triangle; assumption.
  - intros mk w1 _. apply aligned_cube; assumption.
  - intros id w1. apply aligned_CalculateTextureIndex. exact Hh.
  - intros c w1 Hd Ht Hw1.
    destruct c; try discriminate Hd; try discriminate Ht; cbn [exec];
      (apply aligned_on_data; try reflexivity; exact Hw1).
Qed.

Lemma aligned_BeginScene cam fl w0 :
  header_ok -> aligned (length (draw_calls (gl w0))) (BeginScene cam fl w0).
Proof.
  intros Hh. split; [apply staged_BeginScene; exact Hh|].
  unfold indices_within, calls_since, BeginScene, StartBatch. proj.
  rewrite drop_all. repeat split; constructor.
Qed.

Lemma aligned_scene cam fl cs w0 :
  header_ok -> index_room ->
  Forall (fun c => is_text c = false) cs ->
  aligned (length (draw_calls (gl w0))) (run cs (BeginScene cam fl w0)).
Proof.
  intros Hh Hr Hcs. apply aligned_run; try assumption.
  - eapply Forall_impl; [exact Hcs|]. intros c ->. reflexivity.
  - apply aligned_BeginScene. exact Hh.
Qed.

(** X4.  In a scene that draws no text, every index refers to a vertex of
    its own batch.  Between the calls the running index offset equals the
    vertex count and every index staged is below it; and in every draw call
    of the scene, implicit or final, each uploaded index is below the number
    of vertices the same call uploaded.  (The vertex limit leaves room for
    the largest primitive, and the index array for the indices of a full
    batch.) *)
Theorem indices_refer_to_uploaded_vertices cam fl cs w0 :
  header_ok -> index_room ->
  Forall (fun c => is_text c = false) cs ->
  let ws := run cs (BeginScene cam fl w0) in
  index_offset (data ws) = Z.of_nat (length (vertices (data ws)))
  /\ indices_within (Z.of_nat (length (vertices (data ws)))) (indices (data ws))
  /\ Forall (fun c =>
               indices_within (Z.of_nat (length (call_vertex_data c)))
                 (call_index_data c))
       (calls_since (length (draw_calls (gl w0))) (scene cam fl cs w0)).
Proof.
  intros Hh Hr Hcs ws.
  destruct (aligned_scene cam fl cs w0 Hh Hr Hcs)
    as (Hs & Eo & Hin & _ & _ & Hcalls).
  fold ws in Hs, Eo, Hin, Hcalls.
  destruct Hs as (_ & Hv & _ & Hn & _).
  rewrite Hv. split; [exact Eo|]. split; [exact Hin|].
  unfold scene. fold ws.
  unfold indices_within, calls_since, EndScene, Render, GoToNextDrawCommand,
    MakeCommand in *. proj.
  rewrite drop_app_le by exact Hn. apply Forall_app. split; [exact Hcalls|].
  constructor; [|constructor].
  cbn [call_vertex_data call_index_data]. proj. rewrite Hv. exact Hin.
Qed.

(** X5.  At the end of a scene that draws no text, [EndScene] finalizes one
    draw command, in entry 0 of the command table, and it covers the last
    batch exactly: its vertex count is the number of indices the final
    flush uploads, with first index 0, base vertex 0, one instance and base
    instance 0 (the command table has an entry 0).  The table the flush
    uploads is the one the renderer keeps.  The other entries of the
    command table are as they were before the scene when no [memset] of
    [StartBatch] leaves the slot table: the scene starts from a slot table
    of the declared size, the [memset] of [BeginScene] stays inside it, and
    a [Texture] object has at most four bytes or no call of the scene asks
    for a texture slot. *)
Theorem EndScene_command_covers_last_batch cam fl cs w0 :
  header_ok -> index_room ->
  Forall (fun c => is_text c = false) cs ->
  (0 < length (draw_commands (data w0)))%nat ->
  let ws := run cs (BeginScene cam fl w0) in
  exists c,
    draw_calls (gl (scene cam fl cs w0)) = draw_calls (gl ws) ++ [c]
    /\ call_vertex_data c = vertices (data ws)
    /\ call_index_data c = indices (data ws)
    /\ call_commands c !!! 0%nat = final_command (length (call_index_data c))
    /\ draw_commands (data (scene cam fl cs w0)) = call_commands c
    /\ (memset_within (data w0) -> restarts_within cs ->
        0 < MAX_TEXTURE_SLOTS < U32 ->
        length (textures (data w0)) = Z.to_nat MAX_TEXTURE_SLOTS ->
        call_commands c
        = <[0%nat := final_command (length (call_index_data c))]>
            (draw_commands (data w0))).
Proof.
  intros Hh Hr Hcs Hlen ws.
  destruct (aligned_scene cam fl cs w0 Hh Hr Hcs)
    as (_ & _ & _ & Ec & Eb & _).
  destruct (commands_untouched_scene cam fl cs w0) as (Hc & Ht & _ & _).
  assert (Hkept : memset_within (data w0) -> restarts_within cs ->
                  0 < MAX_TEXTURE_SLOTS < U32 ->
                  length (textures (data w0)) = Z.to_nat MAX_TEXTURE_SLOTS ->
                  draw_commands (data ws) = draw_commands (data w0)).
  { intros Hin Hre Hmax Hl. apply commands_kept_scene; assumption. }
  apply (f_equal (@length _)) in Ht.
  fold ws in Ec, Eb, Hc, Ht. unfold scene. fold ws. clearbody ws.
  eexists. split; [reflexivity|].
  cbn [call_vertex_data call_index_data call_commands].
  split; [reflexivity|]. split; [reflexivity|].
  unfold EndScene, Render, GoToNextDrawCommand, MakeCommand, final_command.
  proj. rewrite Hc, Ec, Eb.
  split; [apply list_lookup_total_insert_eq; rewrite Ht; exact Hlen|].
  split; [reflexivity|]. intros Hin Hre Hmax Hl.
  rewrite (Hkept Hin Hre Hmax Hl). reflexivity.
Qed.

End Alignment.

(** ** Text *)

Section Text.
Context `{RendererH} `{Collaborators}.

Lemma list_ascii_of_string_app (s1 s2 : string) :
  list_ascii_of_string (String.append s1 s2)
  = list_ascii_of_string s1 ++ list_ascii_of_string s2.
Proof.
  induction s1 as [|a s1 IH]; [reflexivity|].
  change (String.append (String a s1) s2)
    with (String a (String.append s1 s2)).
  cbn [list_ascii_of_string app]. rewrite IH. reflexivity.
Qed.

Lemma pen_of_glyphs font y scl col cs x w :
  fst (fold_left (fun xw c => RenderGlyph font y scl col c xw) cs (x, w))
  = fold_left (fun x c => glyph_next_x font scl c x) cs x.
Proof.
  revert x w. induction cs as [|c cs IH]; intros x w; [reflexivity|].
  cbn [fold_left]. rewrite RenderGlyph_emit. apply IH.
Qed.

(** X12.  Rendering a text piece by piece gives what rendering it at once
    gives: [RenderText] of [s1 ++ s2] is [RenderText] of [s1] followed by
    [RenderText] of [s2] with the pen where [s1] left it, that is at the
    start position advanced by the advance of every glyph of [s1] (each
    shifted right by 6 bits and scaled).  The pen position depends on the
    font and the scale only, not on the batch.  The empty text changes
    nothing. *)
Theorem RenderText_of_concatenation font s1 s2 pos scl col w :
  RenderText font (String.append s1 s2) pos scl col w
    = RenderText font s2
        (mk_vec2 (pen_after font scl s1 (x2 pos)) (y2 pos)) scl col
        (RenderText font s1 pos scl col w)
  /\ pen_after font scl (String.append s1 s2) (x2 pos)
     = pen_after font scl s2 (pen_after font scl s1 (x2 pos))
  /\ RenderText font "" pos scl col w = w.
Proof.
  split; [|split; [|reflexivity]].
  - unfold RenderText, pen_after. cbn [x2 y2].
    rewrite list_ascii_of_string_app, fold_left_app.
    rewrite <- (pen_of_glyphs font (y2 pos) scl col
                  (list_ascii_of_string s1) (x2 pos) w).
    destruct (fold_left _ (list_ascii_of_string s1) (x2 pos, w)) as [x1 w1].
    reflexivity.
  - unfold pen_after. rewrite list_ascii_of_string_app, fold_left_app.
    reflexivity.
Qed.

End Text.

(** ** The sampler array *)

Section Sampler.
Context `{RendererH} `{Collaborators}.

Lemma sampler_loop (k : nat) (sampler : list Z) :
  (k <= length sampler)%nat ->
  for_loop (Z.of_nat k) (fun i sampler => <[i := Z.of_nat i]> sampler) sampler
  = map Z.of_nat (seq 0 k) ++ drop k sampler.
Proof.
  induction k as [|k IH]; intros Hk.
  - rewrite for_loop_0. reflexivity.
  - rewrite for_loop_succ, IH by lia.
    rewrite seq_S, map_app. cbn [map Nat.add].
    rewrite <- app_assoc. cbn [app].
    assert (Hlen : length (map Z.of_nat (seq 0 k)) = k)
      by (rewrite length_map, length_seq; reflexivity).
    rewrite insert_app_r_alt by (rewrite Hlen; lia).
    rewrite Hlen, Nat.sub_diag. f_equal.
    destruct (drop k sampler) as [|x rest] eqn:E.
    + apply (f_equal length) in E. rewrite length_drop in E.
      cbn [length] in E. lia.
    + cbn [insert]. f_equal.
      replace (S k) with (k + 1)%nat by lia.
      rewrite <- drop_drop, E. reflexivity.
Qed.

(** X13.  [InitRendererShader] passes the identity to the shader: whatever
    the uninitialised local array of [MAX_TEXTURE_SLOTS] entries held, the
    array handed over as the uniform [textures] is [0, 1, ...,
    MAX_TEXTURE_SLOTS - 1], so sampler [i] reads texture unit [i], the unit
    a flush binds slot [i] to.  No entry is left uninitialised. *)
Theorem InitRendererShader_passes_identity (sampler : list Z) :
  length sampler = Z.to_nat MAX_TEXTURE_SLOTS ->
  InitRendererShader sampler
    = map Z.of_nat (seq 0 (Z.to_nat MAX_TEXTURE_SLOTS))
  /\ length (InitRendererShader sampler) = Z.to_nat MAX_TEXTURE_SLOTS
  /\ forall i, (i < Z.to_nat MAX_TEXTURE_SLOTS)%nat ->
       InitRendererShader sampler !!! i = Z.of_nat i.
Proof.
  intros Hlen.
  assert (E : InitRendererShader sampler
              = map Z.of_nat (seq 0 (Z.to_nat MAX_TEXTURE_SLOTS))).
  { unfold InitRendererShader.
    destruct (Z.le_gt_cases 0 MAX_TEXTURE_SLOTS) as [Hle|Hgt].
    - rewrite <- (Z2Nat.id MAX_TEXTURE_SLOTS) at 1 by exact Hle.
      rewrite sampler_loop by lia.
      rewrite <- Hlen, drop_all, app_nil_r. reflexivity.
    - unfold for_loop.
      replace (Z.to_nat MAX_TEXTURE_SLOTS) with 0%nat in * by lia.
      destruct sampler; [reflexivity | discriminate Hlen]. }
  rewrite E. split; [reflexivity|].
  split; [rewrite length_map, length_seq; reflexivity|].
  intros i Hi. apply list_lookup_total_correct.
  change (map Z.of_nat (seq 0 (Z.to_nat MAX_TEXTURE_SLOTS)))
    with (Z.of_nat <$> seq 0 (Z.to_nat MAX_TEXTURE_SLOTS)).
  rewrite list_lookup_fmap, lookup_seq_lt by exact Hi. reflexivity.
Qed.

End Sampler.

(** ** The indices of triangles and cubes *)

Section OtherIndices.
Context `{RendererH} `{Collaborators}.

Lemma CalculateTriangleIndices_spec d :
  0 <= index_offset d -> index_offset d + 3 < U32 ->
  indices (CalculateTriangleIndices d)
    = indices d ++ map (Z.add (index_offset d)) [0; 1; 2]
  /\ index_offset (CalculateTriangleIndices d) = index_offset d + 3.
Proof.
  intros Hlo Hhi. unfold CalculateTriangleIndices, push_index. proj.
  rewrite !add32_small by lia.
  rewrite <- !app_assoc. cbn [map app].
  rewrite Z.add_0_r, !(Z.add_comm (index_offset d)).
  split; [reflexivity | lia].
Qed.

Lemma iter_square_indices (k : nat) d :
  0 <= index_offset d -> index_offset d + 4 * Z.of_nat k < U32 ->
  indices (Nat.iter k CalculateSquareIndices d)
    = indices d
      ++ flat_map (fun face =>
                     map (Z.add (index_offset d + 4 * Z.of_nat face))
                       [0; 1; 2; 2; 3; 0])
           (seq 0 k)
  /\ index_offset (Nat.iter k CalculateSquareIndices d)
     = index_offset d + 4 * Z.of_nat k.
Proof.
  intros Hlo. induction k as [|k IH]; intros Hhi.
  - cbn [Nat.iter nat_rect seq flat_map]. rewrite app_nil_r. split; [reflexivity | lia].
  - destruct IH as [Ii Io]; [lia|].
    rewrite Nat.iter_succ.
    destruct (CalculateSquareIndices_spec (Nat.iter k CalculateSquareIndices d))
      as [Si So]; [lia | lia |].
    rewrite Si, So, Ii, Io.
    rewrite seq_S, flat_map_app. cbn [flat_map Nat.add].
    rewrite app_nil_r, <- app_assoc. split; [reflexivity | lia].
Qed.

(** X14.  A triangle appends the three indices [0,1,2], and a cube the
    thirty-six indices of six quads, [0,1,2,2,3,0] on each face's own four
    vertices, each offset by the running index offset of the batch it is
    emitted into (the one at hand after the capacity test); the running
    offset then advances by 3 for a triangle and by 24 for a cube.  The
    offset is a 32-bit counter that does not wrap. *)
Theorem triangle_and_cube_indices d :
  0 <= index_offset d -> index_offset d + 24 < U32 ->
  let o := index_offset d in
  (forall pos rot axis size col w,
     data (check_capacity QUAD_VERTEX_COUNT w) = d ->
     indices (data (DrawTriangle pos size col w))
       = indices d ++ map (Z.add o) [0; 1; 2]
     /\ index_offset (data (DrawTriangle pos size col w)) = o + 3
     /\ indices (data (DrawTriangle_rotated pos rot axis size col w))
        = indices d ++ map (Z.add o) [0; 1; 2]
     /\ index_offset (data (DrawTriangle_rotated pos rot axis size col w))
        = o + 3)
  /\ (forall translation col tex tc w,
        data (check_capacity CUBE_VERTEX_COUNT w) = d ->
        indices (data (DrawCube_mat translation col tex tc w))
          = indices d ++ cube_indices o
        /\ length (cube_indices o) = 36%nat
        /\ index_offset (data (DrawCube_mat translation col tex tc w))
           = o + 24).
Proof.
  intros Hlo Hhi o. split.
  - intros pos rot axis size col w Hd.
    destruct (CalculateTriangleIndices_spec d Hlo ltac:(lia)) as [Hi Ho].
    rewrite DrawTriangle_emit, DrawTriangle_rotated_emit.
    unfold triangle_ready, emit, add_to_command_size, written.
    rewrite !data_on_data, Hd. proj. rewrite Hi, Ho. auto.
  - intros translation col tex tc w Hd.
    destruct (iter_square_indices 6 d Hlo ltac:(lia)) as [Hi Ho].
    rewrite DrawCube_mat_eq.
    unfold add_to_command_size, written. rewrite data_on_data, Hd. proj.
    rewrite Hi, Ho. split; [reflexivity|]. split; [reflexivity | lia].
Qed.

End OtherIndices.

(** ** Small integers convert to [float] exactly *)

Lemma digits2_pos_shift (p n : positive) :
  digits2_pos (Pos.iter xO p n) = (digits2_pos p + n)%positive.
Proof.
  induction n as [|n IH] using Pos.peano_ind.
  - cbn [Pos.iter digits2_pos]. lia.
  - rewrite Pos.iter_succ. cbn [digits2_pos]. rewrite IH. lia.
Qed.

Lemma shift_inj (p q n : positive) :
  Pos.iter xO p n = Pos.iter xO q n -> p = q.
Proof.
  induction n as [|n IH] using Pos.peano_ind.
  - cbn [Pos.iter]. intros E. injection E as E. exact E.
  - rewrite !Pos.iter_succ. intros E. injection E as E. exact (IH E).
Qed.

Lemma digits2_pos_lower (p : positive) :
  2 ^ (Z.pos (digits2_pos p) - 1) <= Z.pos p.
Proof.
  induction p as [p IH|p IH|]; cbn [digits2_pos].
  - rewrite Pos2Z.inj_succ.
    replace (Z.succ (Z.pos (digits2_pos p)) - 1)
      with (Z.succ (Z.pos (digits2_pos p) - 1)) by lia.
    rewrite Z.pow_succ_r by lia. lia.
  - rewrite Pos2Z.inj_succ.
    replace (Z.succ (Z.pos (digits2_pos p)) - 1)
      with (Z.succ (Z.pos (digits2_pos p) - 1)) by lia.
    rewrite Z.pow_succ_r by lia. lia.
  - reflexivity.
Qed.

Lemma digits2_pos_small (p : positive) :
  Z.pos p < 2 ^ 24 -> Z.pos (digits2_pos p) <= 24.
Proof.
  intros Hp. pose proof (digits2_pos_lower p) as Hlow.
  destruct (Z.le_gt_cases (Z.pos (digits2_pos p)) 24) as [Hle|Hgt];
    [exact Hle|].
  exfalso.
  assert (2 ^ 24 <= 2 ^ (Z.pos (digits2_pos p) - 1))
    by (apply Z.pow_le_mono_r; lia).
  lia.
Qed.

Lemma binary_round_aux_canonical (m : positive) (e : Z) :
  Z.pos (digits2_pos m) = 24 -> -149 <= e <= 104 ->
  binary_round_aux F32.prec F32.emax false (Z.pos m) e loc_Exact
  = S754_finite false m e.
Proof.
  intros Hd He.
  assert (Hshift : fexp F32.prec F32.emax (Zdigits2 (Z.pos m) + e) - e = 0).
  { unfold fexp, emin, Zdigits2, F32.prec, F32.emax. rewrite Hd. lia. }
  unfold binary_round_aux, shr_fexp. rewrite Hshift.
  cbn [shr shr_record_of_loc loc_of_shr_record shr_m round_nearest_even].
  rewrite Hshift. cbn [shr shr_record_of_loc shr_m].
  replace (e <=? F32.emax - F32.prec) with true; [reflexivity|].
  symmetry. apply Z.leb_le. unfold F32.emax, F32.prec. lia.
Qed.

(** An integer below [2^24] becomes the float with the same value: its
    bits, shifted left to fill the 24-bit mantissa. *)
Lemma of_Z_small (p : positive) :
  Z.pos p < 2 ^ 24 ->
  F32.of_Z (Z.pos p)
  = S754_finite false
      (fst (shl_align p 0 (Z.pos (digits2_pos p) - 24)))
      (Z.pos (digits2_pos p) - 24).
Proof.
  intros Hp. pose proof (digits2_pos_small p Hp) as Hd.
  unfold F32.of_Z, binary_normalize, binary_round.
  assert (Hf : fexp F32.prec F32.emax (Z.pos (digits2_pos p) + 0)
               = Z.pos (digits2_pos p) - 24).
  { unfold fexp, emin, F32.prec, F32.emax. lia. }
  rewrite Hf. unfold shl_align.
  destruct (Z.pos (digits2_pos p) - 24 - 0) as [|n|n] eqn:E; [|lia|].
  - cbn [fst].
    replace (Z.pos (digits2_pos p) - 24) with 0 by lia.
    apply binary_round_aux_canonical; lia.
  - cbn [fst]. apply binary_round_aux_canonical; [|lia].
    rewrite digits2_pos_shift. lia.
Qed.

(** Below [2^24], distinct integers convert to distinct floats. *)
Lemma of_Z_inj (i j : Z) :
  0 <= i < 2 ^ 24 -> 0 <= j < 2 ^ 24 -> F32.of_Z i = F32.of_Z j -> i = j.
Proof.
  intros Hi Hj E.
  destruct i as [|p|p], j as [|q|q]; try lia.
  - rewrite (of_Z_small q) in E by lia. discriminate E.
  - rewrite (of_Z_small p) in E by lia. discriminate E.
  - rewrite (of_Z_small p), (of_Z_small q) in E by lia.
    injection E as Em Ee.
    assert (Hd : digits2_pos p = digits2_pos q) by lia.
    rewrite Hd in Em. unfold shl_align in Em.
    destruct (Z.pos (digits2_pos q) - 24 - 0) as [|n|n]; cbn [fst] in Em.
    + rewrite Em. reflexivity.
    + rewrite Em. reflexivity.
    + rewrite (shift_inj p q n Em). reflexivity.
Qed.

Lemma of_Z_eqb_inj (i j : Z) :
  0 <= i < 2 ^ 24 -> 0 <= j < 2 ^ 24 ->
  F32.eqb (F32.of_Z i) (F32.of_Z j) = true -> i = j.
Proof.
  intros Hi Hj E. apply of_Z_inj; [exact Hi | exact Hj |].
  destruct i as [|p|p], j as [|q|q]; try lia; try reflexivity.
  - rewrite (of_Z_small q) in E by lia. discriminate E.
  - rewrite (of_Z_small p) in E by lia. discriminate E.
  - rewrite (of_Z_small p), (of_Z_small q) in * by lia.
    unfold F32.eqb, SFeqb, SFcompare in E.
    destruct (Z.compare_spec (Z.pos (digits2_pos p) - 24)
                (Z.pos (digits2_pos q) - 24)) as [Ee|Ee|Ee];
      try discriminate E.
    destruct (Pos.compare_cont Eq _ _) eqn:Ec in E; try discriminate E.
    apply Pos.compare_eq in Ec. f_equal; [exact Ec | exact Ee].
Qed.

(** ** Slot answers tell textures apart *)

Section SlotAnswers.
Context `{RendererH} `{Collaborators}.

Lemma request_keeps_lower_slots id w (i : nat) :
  MAX_TEXTURE_SLOTS < U32 -> table_ok w ->
  gl (snd (CalculateTextureIndex id w)) = gl w ->
  (i < Z.to_nat (texture_slot_index (data w)))%nat ->
  textures (data (snd (CalculateTextureIndex id w))) !!! i
    = textures (data w) !!! i
  /\ texture_slot_index (data w)
     <= texture_slot_index (data (snd (CalculateTextureIndex id w))).
Proof.
  intros Hmax (Hs & Hlen & Hnd) Hgl Hi.
  assert (Hadd : add32 (texture_slot_index (data w)) 1
                 = texture_slot_index (data w) + 1)
    by (apply add32_small; lia).
  destruct (CalculateTextureIndex_cases id w)
    as [[_ E]|[(_ & _ & E)|(_ & _ & E)]]; rewrite E in *; cbn [snd] in *.
  - split; [reflexivity | lia].
  - unfold appended. rewrite data_on_data. proj. rewrite Hadd.
    split; [|proj; lia].
    apply list_lookup_total_insert_ne. proj. lia.
  - exfalso. apply (f_equal (fun g => length (draw_calls g))) in Hgl.
    unfold NewBatch, Render in Hgl. proj. rewrite length_app in Hgl.
    cbn [length] in Hgl. unfold appended in Hgl. proj. lia.
Qed.

Lemma answer_not_marker id w :
  0 <= texture_slot_index (data w) ->
  F32.eqb (fst (CalculateTextureIndex id w)) F32.neg_one = false.
Proof.
  intros Hs.
  destruct (CalculateTextureIndex_cases id w)
    as [[Hyes ->]|[(_ & _ & ->)|(_ & _ & ->)]]; cbn [fst].
  - unfold has_slot in Hyes. apply negb_true_iff in Hyes. exact Hyes.
  - apply of_Z_nonneg_not_neg_one. exact Hs.
  - apply of_Z_nonneg_not_neg_one. exact Hs.
Qed.

(** X15.  Slot answers tell the textures of a batch apart.  When two
    different handles are requested one after the other and neither request
    flushes the batch, the two answers are different floats (the table has
    at most [2^24] slots, so every slot index converts to [float] exactly),
    and neither is [-1.0f], the value that marks an untextured vertex. *)
Theorem distinct_textures_get_distinct_slots id id' w :
  table_ok w -> MAX_TEXTURE_SLOTS <= 2 ^ 24 -> id <> id' ->
  let first := CalculateTextureIndex id w in
  let second := CalculateTextureIndex id' (snd first) in
  gl (snd first) = gl w -> gl (snd second) = gl (snd first) ->
  F32.eqb (fst first) (fst second) = false
  /\ fst first <> fst second
  /\ F32.eqb (fst first) F32.neg_one = false
  /\ F32.eqb (fst second) F32.neg_one = false.
Proof.
  intros Hw Hmax Hne first second Hgl1 Hgl2.
  assert (Hu : MAX_TEXTURE_SLOTS < U32) by (unfold U32; lia).
  assert (Hw1 : table_ok (snd first))
    by (apply table_CalculateTextureIndex; assumption).
  destruct (slot_answer_of_request id w Hu Hw)
    as (i1 & (Hr1 & _ & E1) & Hheld1).
  destruct (Hheld1 Hgl1) as [Hid1 Hlt1].
  destruct (slot_answer_of_request id' (snd first) Hu Hw1)
    as (i2 & (Hr2 & _ & E2) & Hheld2).
  destruct (Hheld2 Hgl2) as [Hid2 Hlt2].
  fold first in E1, Hid1, Hlt1. fold second in E2, Hid2, Hlt2.
  destruct (request_keeps_lower_slots id' (snd first) (Z.to_nat i1) Hu Hw1 Hgl2)
    as [Hkeep _]; [lia|].
  fold second in Hkeep.
  assert (Hdiff : i1 <> i2).
  { intros ->. apply Hne. rewrite <- Hid1, <- Hkeep. exact Hid2. }
  assert (Hneq : F32.eqb (fst first) (fst second) = false).
  { destruct (F32.eqb (fst first) (fst second)) eqn:E; [|reflexivity].
    exfalso. apply Hdiff. rewrite E1, E2 in E.
    apply of_Z_eqb_inj in E; [exact E | lia | lia]. }
  split; [exact Hneq|]. split.
  - intros E. rewrite E1, E2 in E.
    apply Hdiff. apply of_Z_inj; [lia | lia | exact E].
  - destruct Hw as (Hs & _). destruct Hw1 as (Hs1 & _).
    split; apply answer_not_marker; lia.
Qed.

End SlotAnswers.

(** ** Material ids as floats *)

(** X16.  The stamp identifies the material as long as material ids stay
    below [2^24]: a vertex cannot carry the stamp of two different ids of
    that range.  Beyond it the conversion to [float] rounds, and different
    ids share a stamp: 16777217 is stamped like 16777216, and 4294967168
    like the unset material 4294967295. *)
Theorem material_stamp_identifies_small_ids :
  (forall m m' v,
     0 <= m < 2 ^ 24 -> 0 <= m' < 2 ^ 24 ->
     stamped m v -> stamped m' v -> m = m')
  /\ (forall v, stamped 16777217 v <-> stamped 16777216 v)
  /\ (forall v, stamped 4294967168 v <-> stamped_unset v).
Proof.
  split; [|split].
  - intros m m' v Hm Hm' Hv Hv'. unfold stamped in *.
    rewrite Hv in Hv'. apply of_Z_inj; assumption.
  - intros v. unfold stamped.
    replace (F32.of_Z 16777217) with (F32.of_Z 16777216)
      by (vm_compute; reflexivity).
    reflexivity.
  - intros v. unfold stamped, stamped_unset.
    replace (F32.of_Z 4294967168) with unset_material_stamp
      by (vm_compute; reflexivity).
    reflexivity.
Qed.

(** ** The camera of a scene *)

Section CameraMatrix.
Context `{RendererH} `{Collaborators}.

Lemma proj_view_on_data M n0 f w :
  proj_view (f (data w)) = proj_view (data w) ->
  proj_view_inv M n0 w -> proj_view_inv M n0 (on_data f w).
Proof.
  intros Hp (Hm & Hn & Hc). unfold proj_view_inv, calls_since.
  rewrite gl_on_data, data_on_data, Hp. auto.
Qed.

Lemma proj_view_Render M n0 w :
  proj_view_inv M n0 w -> proj_view_inv M n0 (Render w).
Proof.
  intros (Hm & Hn & Hc). unfold proj_view_inv, calls_since, Render. proj.
  split; [exact Hm|]. rewrite length_app. split; [lia|].
  rewrite drop_app_le by exact Hn. apply Forall_app. split; [exact Hc|].
  constructor; [exact Hm | constructor].
Qed.

Lemma proj_view_BeginScene cam fl w0 :
  memset_within (data w0) ->
  proj_view_inv (mul (GetProjection cam) (GetView cam))
    (length (draw_calls (gl w0))) (BeginScene cam fl w0).
Proof.
  intros Hin. unfold proj_view_inv, calls_since.
  split; [|unfold BeginScene; rewrite gl_on_data, drop_all;
           split; [lia | constructor]].
  unfold BeginScene. rewrite data_on_data. cbv zeta.
  match goal with
  | |- proj_view (StartBatch ?d) = _ =>
      destruct (StartBatch_within d Hin) as [E _]
  end.
  rewrite E. reflexivity.
Qed.

(** X17.  When no [memset] of [StartBatch] leaves the slot table, every
    flush of a scene, implicit or final, uploads the same projection-view
    matrix: the product projection times view of the camera given to
    [BeginScene], computed once when the scene begins.  No drawing call or
    setter changes it.  The condition is that the scene starts from a slot
    table of the declared size, that the [memset] of [BeginScene] stays
    inside it, and that a [Texture] object has at most four bytes or no call
    of the scene asks for a texture slot; a longer write would run into
    [proj_view], the member declared after [textures]. *)
Theorem scene_uploads_camera_matrix cam fl cs w0 :
  memset_within (data w0) -> restarts_within cs ->
  0 < MAX_TEXTURE_SLOTS < U32 ->
  length (textures (data w0)) = Z.to_nat MAX_TEXTURE_SLOTS ->
  let M := mul (GetProjection cam) (GetView cam) in
  let w := scene cam fl cs w0 in
  Forall (fun c => call_proj_view c = M)
    (calls_since (length (draw_calls (gl w0))) w)
  /\ proj_view (data w) = M.
Proof.
  intros Hin Hcs [Hpos Hmax] Hlen M w.
  assert (Hend : proj_view_inv M (length (draw_calls (gl w0))) w).
  { subst w. unfold scene, EndScene. apply proj_view_Render.
    apply proj_view_on_data; [reflexivity|].
    apply proj_view_on_data; [reflexivity|].
    apply (kept_run (proj_view_inv M (length (draw_calls (gl w0))))).
    - apply proj_view_Render.
    - intros f w1 Ep _. apply proj_view_on_data. exact Ep.
    - exact Hcs.
    - exact Hmax.
    - apply table_BeginScene; assumption.
    - reflexivity.
    - apply proj_view_BeginScene, Hin. }
  destruct Hend as (Hm & _ & Hc). split; assumption.
Qed.

(** X18.  A scene with no call in it still issues a draw call.  [EndScene]
    right after [BeginScene] uploads no vertex and no index, finalizes a
    draw command with vertex count 0 in entry 0 of the command table, and
    submits two descriptors. *)
Theorem empty_scene_issues_one_draw_call cam fl w0 :
  exists c,
    draw_calls (gl (scene cam fl [] w0)) = draw_calls (gl w0) ++ [c]
    /\ call_vertex_data c = []
    /\ call_index_data c = []
    /\ call_commands c = <[0%nat := final_command 0]> (draw_commands (data w0))
    /\ call_count c = 2.
Proof.
  eexists. split; [reflexivity|]. repeat split.
Qed.

End CameraMatrix.

(** ** A capacity flush after a slot request *)

Section Stranded.
Context `{RendererH} `{Collaborators}.

Lemma request_without_flush id w :
  gl (snd (CalculateTextureIndex id w)) = gl w ->
  snd (CalculateTextureIndex id w) = w
  \/ snd (CalculateTextureIndex id w) = appended id w.
Proof.
  intros Hgl.
  destruct (CalculateTextureIndex_cases id w)
    as [[_ E]|[(_ & _ & E)|(_ & _ & E)]]; rewrite E in *; cbn [snd] in *.
  - left. reflexivity.
  - right. reflexivity.
  - exfalso. apply (f_equal (fun g => length (draw_calls g))) in Hgl.
    unfold NewBatch, Render in Hgl. proj. rewrite length_app in Hgl.
    cbn [length] in Hgl. unfold appended in Hgl. proj. lia.
Qed.

(** X19.  The slot of a textured quad is requested before the quad's
    capacity test.  When the request itself flushes nothing but the quad
    does not fit into the batch, the capacity test flushes the batch with
    the vertices staged so far and restarts it with an empty slot table;
    the quad is then written into the new batch with the slot index
    obtained in the old one, a slot the new batch's table does not hold. *)
Theorem capacity_flush_strands_slot pos size id col w :
  0 <= num_of_vertices_in_batch (data w) <= MAX_VERTEX_COUNT ->
  MAX_VERTEX_COUNT < num_of_vertices_in_batch (data w) + 4 ->
  4 <= MAX_VERTEX_COUNT -> MAX_VERTEX_COUNT + 4 < U32 ->
  let request := CalculateTextureIndex id w in
  let quad := DrawQuad_texture_id pos size id col w in
  gl (snd request) = gl w ->
  (exists c,
      draw_calls (gl quad) = draw_calls (gl w) ++ [c]
      /\ call_vertex_data c = vertices (data w))
  /\ length (vertices (data quad)) = 4%nat
  /\ Forall (fun v => texture_id v = fst request) (vertices (data quad))
  /\ texture_slot_index (data quad) = 0
  /\ has_slot id (data quad) = false.
Proof.
  intros Hn Hover Hmin Hmax request quad Hgl.
  assert (Hw1 : num_of_vertices_in_batch (data (snd request))
                = num_of_vertices_in_batch (data w)
                /\ vertices (data (snd request)) = vertices (data w)).
  { destruct (request_without_flush id w Hgl) as [E|E];
      fold request in E; rewrite E; split; reflexivity. }
  destruct Hw1 as [Hnum Hvs].
  assert (Hflush : check_capacity QUAD_VERTEX_COUNT (snd request)
                   = NewBatch (snd request)).
  { destruct (check_capacity_cases QUAD_VERTEX_COUNT (snd request))
      as [[Hle _]|[_ E]]; [|exact E].
    rewrite Hnum in Hle. unfold QUAD_VERTEX_COUNT in Hle.
    rewrite add32_small in Hle by lia. lia. }
  assert (Hquad : quad
            = emit 4 6
                (quad_vertex (GetModelMatrix (flags (data w)) pos size) col
                   (fst request) TEX_COORDS)
                (on_data CalculateSquareIndices (NewBatch (snd request)))).
  { subst quad. unfold DrawQuad_texture_id. fold request.
    destruct request as [tex w1]. cbn [fst snd] in *.
    rewrite DrawQuad_mat_emit. unfold quad_ready. rewrite Hflush.
    reflexivity. }
  rewrite Hquad. split.
  { eexists. split.
    - unfold emit, NewBatch, Render. proj. rewrite Hgl. reflexivity.
    - exact Hvs. }
  split; [reflexivity|]. split; [repeat constructor|].
  split; [reflexivity|].
  apply (CalculateTextureIndex_empty id). reflexivity.
Qed.

End Stranded.

(** ** A batch that is never flushed draws every texture *)

Section OneBatch.
Context `{RendererH} `{Collaborators}.

Lemma same_or_flushed_refl w : same_or_flushed w w.
Proof. left. reflexivity. Qed.

Lemma same_or_flushed_trans w w1 w2 :
  same_or_flushed w w1 -> same_or_flushed w1 w2 -> same_or_flushed w w2.
Proof.
  intros [E1|L1] [E2|L2].
  - left. rewrite E2. exact E1.
  - right. rewrite <- E1. exact L2.
  - right. rewrite E2. exact L1.
  - right. lia.
Qed.

Lemma same_or_flushed_NewBatch w : same_or_flushed w (NewBatch w).
Proof.
  right. unfold NewBatch, Render. proj. rewrite length_app. cbn [length]. lia.
Qed.

Lemma same_or_flushed_run w0 cs w :
  same_or_flushed w0 w -> same_or_flushed w0 (run cs w).
Proof.
  apply (stepwise_run (same_or_flushed w0) (fun _ => true)).
  - intros w1 Hw1.
    exact (same_or_flushed_trans _ _ _ Hw1 (same_or_flushed_NewBatch w1)).
  - intros w1 Hw1. exact Hw1.
  - intros w1 Hw1. exact Hw1.
  - intros id w1 Hw1.
    destruct (CalculateTextureIndex_cases id w1)
      as [[_ ->]|[(_ & _ & ->)|(_ & _ & ->)]]; cbn [snd].
    + exact Hw1.
    + exact Hw1.
    + apply (same_or_flushed_trans _ (appended id w1)); [exact Hw1|].
      apply same_or_flushed_NewBatch.
  - intros k n mk w1 _ Hw1. exact Hw1.
  - intros c w1 Hd Ht _ Hw1.
    destruct c; try discriminate Hd; try discriminate Ht; exact Hw1.
  - apply Forall_forall. intros; reflexivity.
Qed.

Lemma not_flushed w w1 w2 :
  same_or_flushed w w1 -> same_or_flushed w1 w2 -> gl w2 = gl w ->
  gl w1 = gl w.
Proof.
  intros [E1|L1] H2 E; [exact E1|]. exfalso.
  apply (f_equal (fun g => length (draw_calls g))) in E.
  destruct H2 as [E2|L2].
  - rewrite E2 in E. lia.
  - lia.
Qed.


Lemma same_or_flushed_exec c w : same_or_flushed w (exec c w).
Proof.
  exact (same_or_flushed_run w [c] w (same_or_flushed_refl w)).
Qed.

Lemma same_or_flushed_check_capacity k w :
  same_or_flushed w (check_capacity k w).
Proof.
  destruct (check_capacity_cases k w) as [[_ ->]|[_ ->]];
    [apply same_or_flushed_refl | apply same_or_flushed_NewBatch].
Qed.

Lemma same_or_flushed_request id w :
  same_or_flushed w (snd (CalculateTextureIndex id w)).
Proof.
  destruct (CalculateTextureIndex_cases id w)
    as [[_ ->]|[(_ & _ & ->)|(_ & _ & ->)]]; cbn [snd].
  - apply same_or_flushed_refl.
  - left. reflexivity.
  - apply (same_or_flushed_trans _ (appended id w)); [left; reflexivity|].
    apply same_or_flushed_NewBatch.
Qed.

Lemma check_capacity_not_flushed k w :
  gl (check_capacity k w) = gl w -> check_capacity k w = w.
Proof.
  intros Hgl. destruct (check_capacity_cases k w) as [[_ E]|[_ E]];
    [exact E|]. exfalso. rewrite E in Hgl.
  apply (f_equal (fun g => length (draw_calls g))) in Hgl.
  unfold NewBatch, Render in Hgl. proj. rewrite length_app in Hgl.
  cbn [length] in Hgl. lia.
Qed.

Lemma slotted_mono d d' e tex :
  texture_slot_index d <= texture_slot_index d' ->
  (forall i : nat, Z.of_nat i < texture_slot_index d ->
     textures d' !!! i = textures d !!! i) ->
  slotted d e tex -> slotted d' e tex.
Proof.
  intros Hs Ht. destruct e as [t|id]; [exact (fun E => E)|].
  intros (Hid & i & Hi & Htex & Hlook). split; [exact Hid|].
  exists i. split; [lia|]. split; [exact Htex|].
  rewrite Ht by exact Hi. exact Hlook.
Qed.

Lemma one_batch_on_data g0 es f w :
  texture_slot_index (f (data w)) = texture_slot_index (data w) ->
  textures (f (data w)) = textures (data w) ->
  vertices (f (data w)) = vertices (data w) ->
  one_batch g0 es w -> one_batch g0 es (on_data f w).
Proof.
  intros Hs Ht Hv (Hgl & Hok & Hall). unfold one_batch.
  rewrite gl_on_data. split; [exact Hgl|].
  split; [apply table_on_data; assumption|].
  rewrite data_on_data, Hv.
  eapply Forall2_impl; [exact Hall|]. intros v e.
  apply slotted_mono; [rewrite Hs; lia|].
  intros i _. rewrite Ht. reflexivity.
Qed.

Lemma Forall2_map_seq_replicate {A B : Type} (R : A -> B -> Prop)
    (f : nat -> A) (e : B) (a k : nat) :
  (forall i, R (f i) e) -> Forall2 R (map f (seq a k)) (replicate k e).
Proof.
  intros Hf. revert a. induction k as [|k IH]; intros a; cbn [seq map replicate].
  - constructor.
  - constructor; [apply Hf | apply IH].
Qed.

Lemma one_batch_emit g0 es e k n mk w :
  one_batch g0 es w ->
  (forall i m, slotted (data w) e (texture_id (mk i m))) ->
  one_batch g0 (es ++ replicate k e) (emit k n mk w).
Proof.
  intros (Hgl & Hok & Hall) Hmk. unfold one_batch.
  split; [exact Hgl|]. split; [exact Hok|].
  unfold emit, add_to_command_size, written. proj.
  apply Forall2_app; [exact Hall|].
  apply Forall2_map_seq_replicate. intros i. apply Hmk.
Qed.

Lemma one_batch_request g0 es id w :
  MAX_TEXTURE_SLOTS < U32 -> id <> 0 ->
  one_batch g0 es w -> gl (snd (CalculateTextureIndex id w)) = g0 ->
  one_batch g0 es (snd (CalculateTextureIndex id w))
  /\ slotted (data (snd (CalculateTextureIndex id w))) (as_texture id)
       (fst (CalculateTextureIndex id w)).
Proof.
  intros Hmax Hid (Hgl & Hok & Hall) Hgl'.
  pose proof Hok as (Hs & Hlen & Hnd).
  assert (Hadd : add32 (texture_slot_index (data w)) 1
                 = texture_slot_index (data w) + 1)
    by (apply add32_small; lia).
  destruct (CalculateTextureIndex_cases id w)
    as [[Hyes E]|[(Hno & Hroom & E)|(_ & _ & E)]]; rewrite E in *;
    cbn [fst snd] in *.
  - split; [split; [exact Hgl|]; split; assumption|].
    destruct (has_slot_true id (data w) Hyes) as (i & Hi & Hr & Hlook).
    split; [exact Hid|]. exists i. split; [lia|]. split; assumption.
  - split.
    + split; [exact Hgl|]. split; [apply table_appended; assumption|].
      change (vertices (data (appended id w))) with (vertices (data w)).
      eapply Forall2_impl; [exact Hall|]. intros v e.
      apply slotted_mono.
      * unfold appended. rewrite data_on_data. proj. rewrite Hadd. proj. lia.
      * intros i Hi. unfold appended. rewrite data_on_data. proj.
        apply list_lookup_total_insert_ne. proj. lia.
    + split; [exact Hid|]. exists (Z.to_nat (texture_slot_index (data w))).
      unfold appended. rewrite data_on_data. proj. rewrite Hadd.
      split; [proj; lia|]. split; [f_equal; proj; lia|].
      apply list_lookup_total_insert_eq. proj. lia.
  - exfalso. rewrite <- Hgl in Hgl'.
    apply (f_equal (fun g => length (draw_calls g))) in Hgl'.
    unfold NewBatch, Render in Hgl'. proj. rewrite length_app in Hgl'.
    cbn [length] in Hgl'. unfold appended in Hgl'. proj. lia.
Qed.

Lemma one_batch_ready g0 es k f w :
  (forall d, texture_slot_index (f d) = texture_slot_index d) ->
  (forall d, textures (f d) = textures d) ->
  (forall d, vertices (f d) = vertices d) ->
  one_batch g0 es w -> gl (check_capacity k w) = g0 ->
  one_batch g0 es (on_data f (check_capacity k w))
  /\ data (on_data f (check_capacity k w)) = f (data w).
Proof.
  intros Hs Ht Hv Hw Hgl.
  assert (E : check_capacity k w = w).
  { apply check_capacity_not_flushed. rewrite Hgl. symmetry. apply Hw. }
  rewrite E. split; [|reflexivity].
  apply one_batch_on_data; [apply Hs | apply Ht | apply Hv | exact Hw].
Qed.

Lemma one_batch_primitive g0 es e k n mk c f w tex :
  (forall d, texture_slot_index (f d) = texture_slot_index d) ->
  (forall d, textures (f d) = textures d) ->
  (forall d, vertices (f d) = vertices d) ->
  (forall i m, texture_id (mk i m) = tex) ->
  one_batch g0 es w -> gl (check_capacity c w) = g0 ->
  slotted (data w) e tex ->
  one_batch g0 (es ++ replicate k e) (emit k n mk (on_data f (check_capacity c w))).
Proof.
  intros Hs Ht Hv Hmk Hw Hgl He.
  destruct (one_batch_ready g0 es c f w Hs Ht Hv Hw Hgl) as [Hr Ed].
  apply one_batch_emit; [exact Hr|].
  intros i m. rewrite Hmk, Ed.
  revert He. apply slotted_mono; [rewrite Hs; lia|].
  intros j _. rewrite Ht. reflexivity.
Qed.

Lemma one_batch_DrawQuad_mat g0 es e translation col tex tc w :
  one_batch g0 es w -> gl (DrawQuad_mat translation col tex tc w) = g0 ->
  slotted (data w) e tex ->
  one_batch g0 (es ++ replicate 4 e) (DrawQuad_mat translation col tex tc w).
Proof.
  rewrite DrawQuad_mat_emit. unfold quad_ready. intros Hw Hgl He.
  apply (one_batch_primitive g0 es e 4 6 _ QUAD_VERTEX_COUNT
           CalculateSquareIndices w tex); try reflexivity; assumption.
Qed.

Lemma one_batch_DrawCube_mat g0 es e translation col tex tc w :
  one_batch g0 es w -> gl (DrawCube_mat translation col tex tc w) = g0 ->
  slotted (data w) e tex ->
  one_batch g0 (es ++ replicate 24 e) (DrawCube_mat translation col tex tc w).
Proof.
  rewrite DrawCube_mat_emit. unfold cube_ready.
  change (for_loop CUBE_FACES (fun _ w => on_data CalculateSquareIndices w)
            (check_capacity CUBE_VERTEX_COUNT w))
    with (on_data (Nat.iter 6 CalculateSquareIndices)
            (check_capacity CUBE_VERTEX_COUNT w)).
  intros Hw Hgl He.
  apply (one_batch_primitive g0 es e 24 36 _ CUBE_VERTEX_COUNT
           (Nat.iter 6 CalculateSquareIndices) w tex);
    try reflexivity; assumption.
Qed.

Lemma one_batch_triangle g0 es mk w :
  (forall i m, texture_id (mk i m) = F32.neg_one) ->
  one_batch g0 es w -> gl (emit 3 3 mk (triangle_ready w)) = g0 ->
  one_batch g0 (es ++ replicate 3 (as_given F32.neg_one))
    (emit 3 3 mk (triangle_ready w)).
Proof.
  unfold triangle_ready. intros Hmk Hw Hgl.
  apply (one_batch_primitive g0 es _ 3 3 mk QUAD_VERTEX_COUNT
           CalculateTriangleIndices w F32.neg_one);
    try reflexivity; assumption.
Qed.


Lemma same_or_flushed_glyph font y scl col c x w :
  same_or_flushed w (snd (RenderGlyph font y scl col c (x, w))).
Proof.
  rewrite RenderGlyph_emit. cbn [snd].
  unfold glyph_ready, CalculateTextureIndex_texture.
  apply (same_or_flushed_trans _ (check_capacity QUAD_VERTEX_COUNT w));
    [apply same_or_flushed_check_capacity|].
  exact (same_or_flushed_request (GetTextureId (font_texture font))
           (on_data CalculateSquareIndices
              (check_capacity QUAD_VERTEX_COUNT w))).
Qed.

Lemma same_or_flushed_glyphs font y scl col cs x w :
  same_or_flushed w
    (snd (fold_left (fun xw c => RenderGlyph font y scl col c xw) cs (x, w))).
Proof.
  revert x w. induction cs as [|c cs IH]; intros x w.
  - apply same_or_flushed_refl.
  - cbn [fold_left].
    pose proof (same_or_flushed_glyph font y scl col c x w) as Hg.
    destruct (RenderGlyph font y scl col c (x, w)) as [x1 w1].
    cbn [snd] in Hg. exact (same_or_flushed_trans _ _ _ Hg (IH x1 w1)).
Qed.

Lemma request_then g0 es id w tex w1 w2 :
  MAX_TEXTURE_SLOTS < U32 -> id <> 0 ->
  CalculateTextureIndex id w = (tex, w1) ->
  same_or_flushed w1 w2 -> gl w2 = g0 ->
  one_batch g0 es w ->
  one_batch g0 es w1 /\ slotted (data w1) (as_texture id) tex.
Proof.
  intros Hmax Hid E H12 Hgl Hw.
  assert (Hgl1 : gl (snd (CalculateTextureIndex id w)) = g0).
  { destruct Hw as (Hg & _). rewrite <- Hg.
    apply (not_flushed w _ w2); [apply same_or_flushed_request | |].
    - rewrite E. exact H12.
    - rewrite Hgl. symmetry. exact Hg. }
  pose proof (one_batch_request g0 es id w Hmax Hid Hw Hgl1) as Hreq.
  rewrite E in Hreq. exact Hreq.
Qed.

Lemma one_batch_glyph g0 es font y scl col c x w :
  MAX_TEXTURE_SLOTS < U32 -> GetTextureId (font_texture font) <> 0 ->
  one_batch g0 es w ->
  gl (snd (RenderGlyph font y scl col c (x, w))) = g0 ->
  one_batch g0
    (es ++ replicate 4 (as_texture (GetTextureId (font_texture font))))
    (snd (RenderGlyph font y scl col c (x, w))).
Proof.
  intros Hmax Hid Hw. rewrite RenderGlyph_emit. cbn [snd]. intros Hgl.
  unfold glyph_ready, CalculateTextureIndex_texture in *.
  set (id := GetTextureId (font_texture font)) in *.
  set (w1 := on_data CalculateSquareIndices
               (check_capacity QUAD_VERTEX_COUNT w)) in *.
  change (gl (snd (CalculateTextureIndex id w1)) = g0) in Hgl.
  assert (Hc : gl (check_capacity QUAD_VERTEX_COUNT w) = g0).
  { destruct Hw as (Hg & _). rewrite <- Hg.
    apply (not_flushed w _ (snd (CalculateTextureIndex id w1)));
      [apply same_or_flushed_check_capacity | |].
    - exact (same_or_flushed_request id w1).
    - rewrite Hgl. symmetry. exact Hg. }
  destruct (one_batch_ready g0 es QUAD_VERTEX_COUNT CalculateSquareIndices w)
    as [Hw1 _]; try reflexivity; try assumption.
  fold w1 in Hw1.
  destruct (one_batch_request g0 es id w1 Hmax Hid Hw1 Hgl) as [Hw2 Hs].
  apply one_batch_emit; [exact Hw2|].
  intros i m. exact Hs.
Qed.

Lemma one_batch_glyphs g0 font y scl col cs x es w :
  MAX_TEXTURE_SLOTS < U32 -> GetTextureId (font_texture font) <> 0 ->
  one_batch g0 es w ->
  gl (snd (fold_left (fun xw c => RenderGlyph font y scl col c xw) cs (x, w)))
    = g0 ->
  one_batch g0
    (es ++ replicate (4 * length cs)
             (as_texture (GetTextureId (font_texture font))))
    (snd (fold_left (fun xw c => RenderGlyph font y scl col c xw) cs (x, w))).
Proof.
  intros Hmax Hid. revert x es w.
  induction cs as [|c cs IH]; intros x es w Hw Hgl.
  - cbn [length Nat.mul replicate fold_left snd]. rewrite app_nil_r. exact Hw.
  - cbn [fold_left] in *.
    pose proof (same_or_flushed_glyph font y scl col c x w) as Hg.
    pose proof (one_batch_glyph g0 es font y scl col c x w Hmax Hid Hw) as H1.
    destruct (RenderGlyph font y scl col c (x, w)) as [x1 w1].
    cbn [snd] in *.
    assert (Hgl1 : gl w1 = g0).
    { destruct Hw as (Hg0 & _). rewrite <- Hg0.
      apply (not_flushed w w1 _ Hg (same_or_flushed_glyphs font y scl col cs x1 w1)).
      rewrite Hgl. symmetry. exact Hg0. }
    replace (4 * length (c :: cs))%nat with (4 + 4 * length cs)%nat
      by (cbn [length]; lia).
    rewrite replicate_add, app_assoc.
    apply IH; [apply H1; exact Hgl1 | exact Hgl].
Qed.

Lemma one_batch_exec g0 es c w :
  MAX_TEXTURE_SLOTS < U32 -> bindable (expect_of c) ->
  one_batch g0 es w -> gl (exec c w) = g0 ->
  one_batch g0 (es ++ expected c) (exec c w).
Proof.
  intros Hmax Hb Hw Hgl.
  destruct c; unfold expected; cbn [exec vertices_of expect_of bindable] in *;
    unfold DrawQuad_color, DrawQuad_texture, DrawQuad_texture_id,
      DrawQuad_coords, DrawQuad_texture_coords, DrawRotatedQuad_color,
      DrawRotatedQuad_texture, DrawRotatedQuad_coords,
      DrawRotatedQuad_coords_texture, DrawLine, DrawCube_color,
      DrawCube_texture, CalculateTextureIndex_texture in *;
    try match goal with
        | |- context [CalculateTextureIndex ?id ?w0] =>
            destruct (CalculateTextureIndex id w0) as [tex w1] eqn:E;
            match goal with
            | |- one_batch _ _ (DrawQuad_mat ?m ?col _ ?tc _) =>
                destruct (request_then g0 es id w0 tex w1 _ Hmax Hb E
                            (same_or_flushed_exec (CDrawQuad_mat m col tex tc) w1)
                            Hgl Hw) as [Hw1 Hs]
            | |- one_batch _ _ (DrawCube_mat ?m ?col _ ?tc _) =>
                destruct (request_then g0 es id w0 tex w1 _ Hmax Hb E
                            (same_or_flushed_exec (CDrawCube_mat m col tex tc) w1)
                            Hgl Hw) as [Hw1 Hs]
            end
        end;
    lazymatch goal with
    | |- one_batch _ _ (DrawQuad_mat _ _ _ _ _) =>
        apply one_batch_DrawQuad_mat;
          first [assumption | reflexivity]
    | |- one_batch _ _ (DrawCube_mat _ _ _ _ _) =>
        apply one_batch_DrawCube_mat;
          first [assumption | reflexivity]
    | |- one_batch _ _ (DrawTriangle _ _ _ _) =>
        rewrite DrawTriangle_emit in *;
        apply one_batch_triangle; [reflexivity | assumption | assumption]
    | |- one_batch _ _ (DrawTriangle_rotated _ _ _ _ _ _) =>
        rewrite DrawTriangle_rotated_emit in *;
        apply one_batch_triangle; [reflexivity | assumption | assumption]
    | |- one_batch _ _ (RenderText _ _ _ _ _ _) =>
        rewrite <- length_list_ascii_of_string;
        apply one_batch_glyphs; assumption
    | |- _ =>
        cbn [replicate]; rewrite app_nil_r;
        apply one_batch_on_data; [reflexivity | reflexivity | reflexivity | exact Hw]
    end.
Qed.

Lemma one_batch_run g0 cs es w :
  MAX_TEXTURE_SLOTS < U32 ->
  Forall (fun c => bindable (expect_of c)) cs ->
  one_batch g0 es w -> gl (run cs w) = g0 ->
  one_batch g0 (es ++ concat (map expected cs)) (run cs w).
Proof.
  intros Hmax Hcs. revert es w. unfold run.
  induction Hcs as [|c cs Hc Hcs IH]; intros es w Hw Hgl.
  - cbn [map concat fold_left]. rewrite app_nil_r. exact Hw.
  - cbn [map concat fold_left] in *. rewrite app_assoc.
    apply IH; [|exact Hgl].
    apply one_batch_exec; try assumption.
    destruct Hw as (Hg & _). rewrite <- Hg.
    apply (not_flushed w (exec c w) (run cs (exec c w)));
      [apply same_or_flushed_exec | |].
    + apply same_or_flushed_run, same_or_flushed_refl.
    + unfold run. rewrite Hgl. symmetry. exact Hg.
Qed.

(** X20.  In a scene whose calls cause no implicit flush, every vertex is
    drawn with the texture its call asked for.  The one draw call of the
    scene, issued by [EndScene], uploads for every call of the scene, in
    order, as many vertices as the call emits; a vertex of an untextured
    call carries the texture index [-1.0f], a vertex of a call that was
    given a texture index carries that index, and a vertex of a call that
    was given a texture (or the vertex of a glyph, for the atlas texture of
    its font) carries the number of a texture unit that the draw call has
    bound to the handle of that texture.  Handles are not 0, the slot table
    has its declared size and there are at least as many texture units as
    slots. *)
Theorem unflushed_scene_draws_every_texture cam fl cs w0 :
  0 < MAX_TEXTURE_SLOTS < U32 ->
  length (textures (data w0)) = Z.to_nat MAX_TEXTURE_SLOTS ->
  (Z.to_nat MAX_TEXTURE_SLOTS <= length (texture_units (gl w0)))%nat ->
  Forall (fun c => bindable (expect_of c)) cs ->
  gl (run cs (BeginScene cam fl w0)) = gl w0 ->
  exists c,
    draw_calls (gl (scene cam fl cs w0)) = draw_calls (gl w0) ++ [c]
    /\ Forall2 (drawn_with (call_texture_units c)) (call_vertex_data c)
         (concat (map expected cs)).
Proof.
  intros [Hpos Hmax] Hlen Hunits Hcs Hgl.
  assert (Hbegin : one_batch (gl w0) [] (BeginScene cam fl w0)).
  { split; [reflexivity|]. split; [apply table_BeginScene; assumption|].
    constructor. }
  pose proof (one_batch_run (gl w0) cs [] _ Hmax Hcs Hbegin Hgl)
    as (Hg & Hok & Hall).
  cbn [app] in Hall. set (ws := run cs (BeginScene cam fl w0)) in *.
  unfold scene. fold ws.
  eexists. split.
  - rewrite <- Hg. reflexivity.
  - cbn [call_texture_units call_vertex_data].
    change (vertices (data (on_data GoToNextDrawCommand
                              (on_data MakeCommand ws))))
      with (vertices (data ws)).
    eapply Forall2_impl; [exact Hall|]. intros v e.
    destruct e as [t|id]; [exact (fun E => E)|].
    intros (Hid & i & Hi & Htex & Hlook). exists i. split; [exact Htex|].
    destruct Hok as (Hs & _).
    change (bind_textures (data ws) (texture_units (gl ws)) !!! i = id).
    rewrite bind_textures_spec by (rewrite Hg; lia).
    unfold bound_after.
    replace (Z.of_nat i <? texture_slot_index (data ws)) with true
      by (symmetry; apply Z.ltb_lt; exact Hi).
    rewrite Hlook.
    replace (id =? 0) with false by (symmetry; apply Z.eqb_neq; exact Hid).
    reflexivity.
Qed.

End OneBatch.

(** ** Allocation and release *)

Lemma delete_live a (h : Heap) :
  a ∈ live h ->
  delete (Some a) h = Some {| live := live h ∖ {[ a ]}; next := next h |}.
Proof. intros Ha. unfold delete. rewrite decide_True by exact Ha. reflexivity. Qed.

Lemma delete_dead a (h : Heap) : a ∉ live h -> delete (Some a) h = None.
Proof. intros Ha. unfold delete. rewrite decide_False by exact Ha. reflexivity. Qed.

(** X21.  [Destroy] releases six of the seven objects [Init] allocates:
    the shader storage buffer is never deleted and stays live.  [Destroy]
    leaves the pointers as they are, so a second [Destroy] deletes an
    object that is no longer live; before any [Init] the pointers are null
    and [Destroy] releases nothing. *)
Theorem Destroy_leaks_the_storage_buffer (h : Heap) :
  heap_ok h ->
  let '(p, h1) := Init_objects h in
  exists h2,
    Destroy p h1 = Some h2
    /\ live h2 = {[ (next h + 6)%nat ]} ∪ live h
    /\ ssbo p = Some (next h + 6)%nat
    /\ Destroy p h2 = None
    /\ Destroy null_pointers h = Some h.
Proof.
  intros Hok. unfold Init_objects, new. cbn [live next].
  assert (Hfresh : forall k x : nat, x ∈ live h -> x <> (next h + k)%nat).
  { intros k x Hin. apply Hok in Hin. lia. }
  replace (S (next h)) with (next h + 1)%nat by lia.
  replace (S (next h + 1)) with (next h + 2)%nat by lia.
  replace (S (next h + 2)) with (next h + 3)%nat by lia.
  replace (S (next h + 3)) with (next h + 4)%nat by lia.
  replace (S (next h + 4)) with (next h + 5)%nat by lia.
  replace (S (next h + 5)) with (next h + 6)%nat by lia.
  eexists. unfold Destroy. cbn [vertex_array vertex_buffer index_buffer
    indirect_draw_buffer vertices_base index_base ssbo].
  rewrite delete_live by (cbn [live]; set_unfold; naive_solver lia).
  cbn [mbind option_bind].
  rewrite delete_live by (cbn [live]; set_unfold; naive_solver lia).
  cbn [mbind option_bind].
  rewrite delete_live by (cbn [live]; set_unfold; naive_solver lia).
  cbn [mbind option_bind].
  rewrite delete_live by (cbn [live]; set_unfold; naive_solver lia).
  cbn [mbind option_bind].
  rewrite delete_live by (cbn [live]; set_unfold; naive_solver lia).
  cbn [mbind option_bind].
  rewrite delete_live by (cbn [live]; set_unfold; naive_solver lia).
  split; [reflexivity|]. cbn [live next].
  split.
  { apply set_eq. intros x. set_unfold. split.
    - intros Hx. destruct_and!. destruct_or!; first [lia | auto].
    - intros [->|Hin]; [repeat split; lia|].
      pose proof (Hfresh 0%nat x Hin). pose proof (Hfresh 1%nat x Hin).
      pose proof (Hfresh 2%nat x Hin). pose proof (Hfresh 3%nat x Hin).
      pose proof (Hfresh 4%nat x Hin). pose proof (Hfresh 5%nat x Hin).
      repeat split; first [lia | auto 10]. }
  split; [reflexivity|]. split; [|reflexivity].
  rewrite delete_dead
    by (cbn [live]; set_unfold; intros Hx; destruct_and!; congruence).
  reflexivity.
Qed.

(** * The sample configuration, evaluated *)

Import Sample.

Lemma sample_header_ok : header_ok.
Proof. unfold header_ok. split; vm_compute; [discriminate | reflexivity]. Qed.

(** Seven quads: the seventh does not fit into the first batch.  The flush
    uploads the 24 vertices and 36 indices of the first six, but the one
    descriptor it submits is the zero-initialised one and draws nothing; the
    end-of-scene flush covers the seventh quad. *)
Example seven_quads_first_flush_draws_nothing :
  let w := scene cam 0 (replicate 7 quad) (Init 7) in
  map (fun c => (length (call_vertex_data c), length (call_index_data c),
                 call_count c, indices_drawn c))
      (draw_calls (gl w))
  = [(24%nat, 36%nat, 1, 0); (4%nat, 6%nat, 2, 6)].
Proof. vm_compute. reflexivity. Qed.

(** Four quads with the four handles 1, 2, 3, 4 and two texture slots: the
    quad for handle 2 fills the table, is written into the second batch with
    slot index 1 (the float 1.0), and is drawn by the second flush, which
    binds handle 4 to unit 1. *)
Example quad_of_filling_handle_drawn_with_other_texture :
  let w := first_scene (map textured_quad [1; 2; 3; 4]) in
  map (fun c => (map texture_id (take 4 (call_vertex_data c)),
                 call_texture_units c))
      (draw_calls (gl w))
  = [ (replicate 4 F32.zero, [1; 2]);
      (replicate 4 F32.one, [3; 4]) ].
Proof. vm_compute. reflexivity. Qed.

(** A textured quad, then one letter whose atlas texture fills the two-slot
    table.  [RenderText] generates the six indices of the glyph before it
    asks for the slot, so the flush uploads them with the quad's four
    vertices, and the glyph's four vertices start the next batch, which has
    no index at all when the scene ends. *)
Example glyph_indices_flushed_without_vertices :
  let w := scene cam 0 [textured_quad 1; letter_A] (Init 7) in
  map (fun c => (length (call_vertex_data c), call_index_data c))
      (draw_calls (gl w))
  = [ (4%nat, [0; 1; 2; 2; 3; 0; 4; 5; 6; 6; 7; 4]); (4%nat, []) ].
Proof. vm_compute. reflexivity. Qed.

(** Four texture slots, 27 vertices per batch.  Six quads with handle 1,
    then quads with the handles 2, 3 and 4.  The quad of handle 2 gets slot
    1 in the first batch, but does not fit into it: the capacity test
    flushes, and the quad is written into the second batch with index 1.
    There the handles 3 and 4 get the slots 0 and 1, so the second flush
    draws the quad of handle 2 with unit 1 bound to handle 4. *)
Example quad_after_capacity_flush_drawn_with_other_texture :
  map (fun c => (map texture_id (take 4 (call_vertex_data c)),
                 call_texture_units c))
      (draw_calls
         (gl (@scene wide collaborators cam 0
                (replicate 6 (textured_quad 1)
                 ++ map textured_quad [2; 3; 4]) (@Init wide 7))))
  = [ (replicate 4 F32.zero, [1; 2; 0; 0]);
      (replicate 4 F32.one, [3; 4; 0; 0]) ].
Proof. vm_compute. reflexivity. Qed.

(** ** Concrete instances of the theorems above *)

Lemma C3_full_table_flush_witness :
  texture_slot_index (data (first_scene [textured_quad 1])) + 1
    = MAX_TEXTURE_SLOTS
  /\ has_slot 2 (data (first_scene [textured_quad 1])) = false
  /\ fst (CalculateTextureIndex 2 (first_scene [textured_quad 1])) = F32.one
  /\ Forall (fun v => texture_id v = F32.one)
       (vertices (data (first_scene [textured_quad 1; textured_quad 2])))
  /\ texture_slot_index
       (data (first_scene [textured_quad 1; textured_quad 2])) = 0.
Proof.
  destruct (C3_full_table_flush origin unit_size white 2 3
              (first_scene [textured_quad 1]))
    as (Hslot & _ & _ & _ & _ & _ & _ & Hv & Ht & _);
    try (vm_compute; first [reflexivity | discriminate | lia]).
  split; [vm_compute; reflexivity|].
  split; [vm_compute; reflexivity|].
  split; [exact Hslot|]. split; [exact Hv | exact Ht].
Defined.

Lemma C4_vertex_capacity_invariant_witness :
  header_ok /\ within_capacity (first_scene (replicate 7 quad ++ [triangle])).
Proof.
  split; [exact sample_header_ok|].
  destruct (C4_vertex_capacity_invariant sample_header_ok) as [Hscene _].
  apply Hscene.
Defined.

Lemma C5_same_texture_one_slot_witness :
  stays_in_batch 5 (data (first_scene []))
  /\ allocate_repeatedly 3 5 (first_scene [])
     = (replicate 3 F32.zero, snd (CalculateTextureIndex 5 (first_scene [])))
  /\ texture_slot_index
       (data (draw_textured 5 (replicate 3 (origin, unit_size, white))
                (first_scene []))) = 1.
Proof.
  assert (Hroom : stays_in_batch 5 (data (first_scene []))).
  { right. unfold room_for_one. vm_compute.
    split; [discriminate|]. split; [reflexivity|]. split; [discriminate | lia]. }
  destruct (C5_same_texture_one_slot 3 5 (replicate 3 (origin, unit_size, white))
              (first_scene []))
    as (Hall & _ & _ & _ & Hfresh & _ & Hslots & _);
    try (vm_compute; first [reflexivity | discriminate | lia]);
    try exact Hroom.
  destruct (Hfresh eq_refl) as [Hone Hzero].
  split; [exact Hroom|]. split; [rewrite Hall, Hzero; reflexivity|].
  rewrite Hslots. exact Hone.
Defined.

Lemma C6_quad_indices_witness :
  indices (data (DrawQuad_mat identity white F32.neg_one TEX_COORDS
                   (first_scene [quad])))
    = [0; 1; 2; 2; 3; 0] ++ map (Z.add 4) [0; 1; 2; 2; 3; 0]
  /\ index_offset (data (DrawQuad_mat identity white F32.neg_one TEX_COORDS
                           (first_scene [quad]))) = 8.
Proof.
  destruct (C6_quad_indices (data (first_scene [quad]))) as [_ Hquad];
    try (vm_compute; first [reflexivity | discriminate]).
  destruct (Hquad identity white F32.neg_one TEX_COORDS (first_scene [quad]))
    as (Hi & _ & Ho); [vm_compute; reflexivity|].
  split; [exact Hi | exact Ho].
Defined.

Lemma C8_unset_material_stamp_witness :
  Forall stamped_unset
    (vertices (data (first_scene [quad; triangle; textured_quad 1]))).
Proof.
  destruct (C8_unset_material_stamp cam 0 [quad; triangle; textured_quad 1]
              (Init 7))
    as (_ & Hv & _).
  - repeat constructor.
  - exact Hv.
Defined.

Lemma C9_triangle_capacity_check_witness :
  MAX_VERTEX_COUNT
    - num_of_vertices_in_batch (data (first_scene (replicate 6 quad))) = 3
  /\ length (draw_calls (gl (DrawTriangle origin unit_size white
                               (first_scene (replicate 6 quad))))) = 1%nat
  /\ length (vertices (data (DrawTriangle origin unit_size white
                               (first_scene (replicate 6 quad))))) = 3%nat.
Proof.
  destruct (C9_triangle_capacity_check origin F32.zero
              (mk_vec3 F32.zero F32.zero F32.one) unit_size white
              (first_scene (replicate 6 quad)))
    as [Hflush _];
    try (vm_compute; first [reflexivity | split; discriminate]).
  destruct Hflush as (_ & _ & Hcalls & Hv & _); [vm_compute; reflexivity|].
  split; [vm_compute; reflexivity|]. split; [exact Hcalls | exact Hv].
Defined.

(** ** Concrete instances of the batch properties *)


Lemma vertex_array_never_overrun_witness :
  header_ok
  /\ Z.of_nat (length (vertices (data (first_scene (replicate 7 quad)))))
     <= MAX_VERTEX_COUNT.
Proof.
  split; [exact sample_header_ok|].
  destruct (vertex_array_never_overrun cam 0 (replicate 7 quad) (Init 7)
              sample_header_ok) as (_ & Hv & _).
  exact Hv.
Defined.

Lemma index_array_never_overrun_witness :
  3 * MAX_VERTEX_COUNT <= 2 * MAX_INDEX_COUNT
  /\ Z.of_nat (length (indices (data (first_scene (replicate 6 quad)))))
     <= MAX_INDEX_COUNT.
Proof.
  assert (Hroom : 3 * MAX_VERTEX_COUNT <= 2 * MAX_INDEX_COUNT)
    by (vm_compute; discriminate).
  split; [exact Hroom|].
  destruct (index_array_never_overrun cam 0 (replicate 6 quad) (Init 7)
              sample_header_ok Hroom) as (_ & Hi & _).
  exact Hi.
Defined.

Lemma sample_index_room : index_room.
Proof. split; vm_compute; [discriminate | reflexivity]. Qed.

Lemma indices_refer_to_uploaded_vertices_witness :
  index_room
  /\ indices_within 7
       (indices (data (first_scene (replicate 1 quad ++ [triangle])))).
Proof.
  split; [exact sample_index_room|].
  destruct (indices_refer_to_uploaded_vertices cam 0
              (replicate 1 quad ++ [triangle]) (Init 7)
              sample_header_ok sample_index_room)
    as (_ & Hi & _).
  - repeat constructor.
  - exact Hi.
Defined.

Lemma EndScene_command_covers_last_batch_witness :
  exists c,
    draw_calls (gl (scene cam 0 [quad; triangle] (Init 7))) = [c]
    /\ call_commands c !!! 0%nat = final_command 9
    /\ call_commands c
       = final_command 9 :: replicate 3 zero_command.
Proof.
  destruct (EndScene_command_covers_last_batch cam 0 [quad; triangle] (Init 7)
              sample_header_ok sample_index_room)
    as (c & Hcalls & _ & Hi & Hcmd & _ & Hframe).
  - repeat constructor.
  - vm_compute. lia.
  - exists c. split; [exact Hcalls|]. split; [rewrite Hcmd, Hi; reflexivity|].
    rewrite Hframe, Hi.
    + reflexivity.
    + vm_compute. discriminate.
    + right. repeat constructor.
    + split; reflexivity.
    + reflexivity.
Defined.

Lemma texture_table_stays_in_bounds_witness :
  length (textures (data (Init 7))) = Z.to_nat MAX_TEXTURE_SLOTS
  /\ table_ok (first_scene [textured_quad 1])
  /\ memset_within (data (appended 2 (first_scene [textured_quad 1])))
  /\ ~ @memset_within large_texture
         (data (appended 2
                  (@run large_texture collaborators [textured_quad 1]
                     (@BeginScene large_texture cam 0
                        (@Init large_texture 7))))).
Proof.
  assert (Hlen : length (textures (data (Init 7))) = Z.to_nat MAX_TEXTURE_SLOTS)
    by reflexivity.
  split; [exact Hlen|].
  destruct (texture_table_stays_in_bounds cam 0 [textured_quad 1] (Init 7))
    as (Hok & _ & _ & Hsmall & _); [split; reflexivity | exact Hlen |].
  split; [exact Hok|]. split.
  - destruct Hsmall as (_ & _ & Hreq); [vm_compute; discriminate|].
    destruct (Hreq 2) as [Happ _]. exact Happ.
  - destruct (@texture_table_stays_in_bounds large_texture collaborators cam 0
                [textured_quad 1] (@Init large_texture 7))
      as (_ & _ & _ & _ & Hlarge); [split; reflexivity | reflexivity |].
    destruct (Hlarge eq_refl 2) as [_ Hover];
      [vm_compute; reflexivity | reflexivity | exact Hover].
Defined.

Lemma Render_binds_occupied_slots_witness :
  texture_units (gl (Render (first_scene [textured_quad 5]))) !!! 0%nat = 5.
Proof.
  destruct (Render_binds_occupied_slots (first_scene [textured_quad 5]) 0)
    as (Hb & _); [vm_compute; lia|].
  rewrite Hb. reflexivity.
Defined.

Lemma polygon_mode_is_never_reset_witness :
  line_mode_of 1 (Init 7) = true
  /\ polygon_mode_line
       (gl (scene cam 0 [quad] (scene cam 1 [quad] (Init 7)))) = true.
Proof.
  split; [reflexivity|].
  destruct (polygon_mode_is_never_reset cam 1 [quad] (Init 7)) as [_ Hlater].
  destruct (Hlater eq_refl cam 0 [quad]) as [_ Hmode]. exact Hmode.
Defined.

Lemma scene_without_SetShader_binds_default_witness :
  GetShaderId (scene cam 0 [quad; CSetShaderToDefualt; triangle] (Init 7)) = 7.
Proof.
  destruct (scene_without_SetShader_binds_default cam 0
              [quad; CSetShaderToDefualt; triangle] (Init 7))
    as (_ & Hs & _).
  - repeat constructor.
  - exact Hs.
Defined.

Lemma SetShader_applies_to_staged_geometry_witness :
  Forall (fun c => call_shader c = 9)
    (calls_since 0 (scene cam 0 ([quad] ++ CSetShader 9 :: [triangle]) (Init 7))).
Proof.
  destruct (SetShader_applies_to_staged_geometry cam 0 [quad] 9 [triangle]
              (Init 7) sample_header_ok)
    as (_ & Hs & _).
  - repeat constructor.
  - exact Hs.
Defined.

Lemma SetMaterialId_stamps_later_vertices_witness :
  exists vs,
    uploaded_vertices 0
      (scene cam 0 ([quad] ++ CSetMaterialId 5 :: [triangle; quad]) (Init 7))
      = uploaded_vertices 0 (scene cam 0 [quad] (Init 7)) ++ vs
    /\ length vs = 7%nat
    /\ Forall (stamped 5) vs.
Proof.
  apply (SetMaterialId_stamps_later_vertices cam 0 [quad] 5 [triangle; quad]
           (Init 7) sample_header_ok).
  repeat constructor.
Defined.

Lemma InitRendererShader_passes_identity_witness :
  InitRendererShader [7; 7] = [0; 1].
Proof.
  destruct (InitRendererShader_passes_identity [7; 7]) as (Hs & _);
    [reflexivity | exact Hs].
Defined.

Lemma triangle_and_cube_indices_witness :
  indices (data (DrawTriangle origin unit_size white (first_scene [quad])))
  = [0; 1; 2; 2; 3; 0] ++ [4; 5; 6].
Proof.
  destruct (triangle_and_cube_indices (data (first_scene [quad])))
    as [Htri _].
  - vm_compute. discriminate.
  - vm_compute. reflexivity.
  - destruct (Htri origin F32.zero (mk_vec3 F32.zero F32.zero F32.one)
                unit_size white (first_scene [quad]))
      as (Hi & _); [vm_compute; reflexivity|].
    exact Hi.
Defined.

Lemma distinct_textures_get_distinct_slots_witness :
  F32.eqb
    (fst (@CalculateTextureIndex wide 1 (@BeginScene wide cam 0 (@Init wide 7))))
    (fst (@CalculateTextureIndex wide 2
            (snd (@CalculateTextureIndex wide 1
                    (@BeginScene wide cam 0 (@Init wide 7))))))
  = false.
Proof.
  destruct (@distinct_textures_get_distinct_slots wide 1 2
              (@BeginScene wide cam 0 (@Init wide 7))) as (Hd & _).
  - split; [split; reflexivity|]. split; [reflexivity | constructor].
  - vm_compute. discriminate.
  - discriminate.
  - reflexivity.
  - reflexivity.
  - exact Hd.
Defined.

Lemma material_stamp_identifies_small_ids_witness :
  stamped 3 (quad_vertex identity white F32.neg_one TEX_COORDS 0 3)
  /\ stamped_unset (quad_vertex identity white F32.neg_one TEX_COORDS 0 4294967168).
Proof.
  destruct material_stamp_identifies_small_ids as (Hinj & _ & Hunset).
  assert (Hv : stamped 3 (quad_vertex identity white F32.neg_one TEX_COORDS 0 3))
    by reflexivity.
  assert (Hsame : 3 = 3).
  { apply (Hinj 3 3 (quad_vertex identity white F32.neg_one TEX_COORDS 0 3));
      try exact Hv; split; (vm_compute; first [reflexivity | discriminate]). }
  split; [exact Hv|]. apply Hunset. reflexivity.
Defined.

Lemma scene_uploads_camera_matrix_witness :
  Forall (fun c => call_proj_view c = mul identity identity)
    (draw_calls
       (gl (scene cam 0
              (replicate 7 quad ++ [textured_quad 1; textured_quad 2])
              (Init 7))))
  /\ Forall (fun c => call_proj_view c = mul identity identity)
       (draw_calls
          (gl (@scene large_texture collaborators cam 0
                 (replicate 7 quad ++ [triangle]) (@Init large_texture 7)))).
Proof.
  split.
  - destruct (scene_uploads_camera_matrix cam 0
                (replicate 7 quad ++ [textured_quad 1; textured_quad 2])
                (Init 7))
      as [Hcalls _].
    + vm_compute. discriminate.
    + left. vm_compute. discriminate.
    + split; reflexivity.
    + reflexivity.
    + exact Hcalls.
  - destruct (@scene_uploads_camera_matrix large_texture collaborators cam 0
                (replicate 7 quad ++ [triangle]) (@Init large_texture 7))
      as [Hcalls _].
    + vm_compute. discriminate.
    + right. repeat constructor.
    + split; reflexivity.
    + reflexivity.
    + exact Hcalls.
Defined.

Lemma capacity_flush_strands_slot_witness :
  Forall (fun v => texture_id v = F32.one)
    (vertices
       (data (@DrawQuad_texture_id wide origin unit_size 2 white
                (@run wide collaborators (replicate 6 (textured_quad 1))
                   (@BeginScene wide cam 0 (@Init wide 7))))))
  /\ texture_slot_index
       (data (@DrawQuad_texture_id wide origin unit_size 2 white
                (@run wide collaborators (replicate 6 (textured_quad 1))
                   (@BeginScene wide cam 0 (@Init wide 7))))) = 0.
Proof.
  destruct (@capacity_flush_strands_slot wide origin unit_size 2 white
              (@run wide collaborators (replicate 6 (textured_quad 1))
                 (@BeginScene wide cam 0 (@Init wide 7))))
    as (_ & _ & Hv & Hs & _).
  - vm_compute. split; discriminate.
  - vm_compute. reflexivity.
  - vm_compute. discriminate.
  - vm_compute. reflexivity.
  - vm_compute. reflexivity.
  - split; [exact Hv | exact Hs].
Defined.

Lemma unflushed_scene_draws_every_texture_witness :
  exists c,
    draw_calls (gl (scene cam 0 [textured_quad 5; quad; triangle] (Init 7)))
      = [c]
    /\ Forall2 (drawn_with (call_texture_units c)) (call_vertex_data c)
         (replicate 4 (as_texture 5) ++ replicate 7 (as_given F32.neg_one)).
Proof.
  destruct (unflushed_scene_draws_every_texture cam 0
              [textured_quad 5; quad; triangle] (Init 7))
    as (c & Hcalls & Hall).
  - split; reflexivity.
  - reflexivity.
  - vm_compute. lia.
  - repeat constructor. discriminate.
  - vm_compute. reflexivity.
  - exists c. split; [exact Hcalls | exact Hall].
Defined.

Lemma Destroy_leaks_the_storage_buffer_witness :
  exists h2,
    Destroy (fst (Init_objects {| live := ∅; next := 0 |}))
      (snd (Init_objects {| live := ∅; next := 0 |})) = Some h2
    /\ live h2 = {[ 6%nat ]} ∪ ∅.
Proof.
  destruct (Destroy_leaks_the_storage_buffer {| live := ∅; next := 0 |})
    as (h2 & Hd & Hl & _).
  - intros a Ha. set_solver.
  - exists h2. split; [exact Hd | exact Hl].
Defined.

(** ** Where the code departs from its specification *)

(** C2, as the specification words it, fails: at the end of a scene with one
    quad, one draw command has been finalized, and the flush submits two
    descriptors, the second one the zero-initialised entry 1 of the table. *)
Lemma C2_counterexample :
  exists c,
    draw_calls (gl (scene cam 0 [quad] (Init 7))) = [c]
    /\ draw_count (data (scene cam 0 [quad] (Init 7))) = 1
    /\ call_count c = 2
    /\ call_count c <> draw_count (data (scene cam 0 [quad] (Init 7)))
    /\ call_commands c !!! 1%nat = zero_command.
Proof.
  eexists. split; [vm_compute; reflexivity|].
  split; [vm_compute; reflexivity|]. split; [vm_compute; reflexivity|].
  split; [vm_compute; discriminate | vm_compute; reflexivity].
Qed.

(** C5, as the specification words it, fails.  Seven quads with one texture
    handle in a batch of 27 vertices: the seventh finds the handle in slot
    0, then fails the capacity test, and the restart empties the table, so
    the batch that holds this quad has no slot occupied, not one.  And with
    one of two slots taken, three requests for another handle answer 1, 0
    and 0: the first fills the table, the flush empties it, and the second
    request raises the slot count again (it is 1, 0, 1, 1 before the first
    request and after each of the three). *)
Lemma C5_counterexample :
  texture_slot_index
    (data (draw_textured 5 (replicate 7 (origin, unit_size, white))
             (first_scene []))) = 0
  /\ texture_slot_index
       (data (draw_textured 5 (replicate 7 (origin, unit_size, white))
                (first_scene []))) <> 1
  /\ has_slot 5
       (data (draw_textured 5 (replicate 7 (origin, unit_size, white))
                (first_scene []))) = false
  /\ length
       (vertices
          (data (draw_textured 5 (replicate 7 (origin, unit_size, white))
                   (first_scene [])))) = 4%nat
  /\ fst (allocate_repeatedly 3 2 (first_scene [textured_quad 1]))
     = [F32.one; F32.zero; F32.zero]
  /\ fst (allocate_repeatedly 3 2 (first_scene [textured_quad 1]))
     <> replicate 3 F32.one
  /\ map (fun K =>
            texture_slot_index
              (data (snd (allocate_repeatedly K 2
                            (first_scene [textured_quad 1])))))
       [0; 1; 2; 3]%nat
     = [1; 0; 1; 1].
Proof.
  split; [vm_compute; reflexivity|]. split; [vm_compute; discriminate|].
  split; [vm_compute; reflexivity|]. split; [vm_compute; reflexivity|].
  split; [vm_compute; reflexivity|]. split; [vm_compute; discriminate|].
  vm_compute; reflexivity.
Qed.

(** C8, as the specification words it, fails: with no material set, the
    vertices of a quad carry the material id [4294967296.0f], which is not
    [-1.0f]. *)
Lemma C8_counterexample :
  exists v,
    In v (vertices (data (first_scene [quad])))
    /\ current_material_id (data (first_scene [quad])) = 4294967295
    /\ material_id v = F32.of_scaled 1 32
    /\ material_id v <> F32.neg_one
    /\ F32.eqb (material_id v) F32.neg_one = false.
Proof.
  eexists. split; [vm_compute; left; reflexivity|].
  split; [vm_compute; reflexivity|]. split; [vm_compute; reflexivity|].
  split; [vm_compute; discriminate | vm_compute; reflexivity].
Qed.
